(** * The turn-taking core of the interview component

    A shallow embedding of [src/components/ui/GeminiInterviewComponent.tsx]:
    the voice-activity monitor ([analyzeAudio]), the recording-session
    controller ([startNewRecordingSession] and its data handler), the turn
    orchestrator ([sendCurrentAudio] with its suspension points), the phase
    classifier ([updateInterviewPhase]), the fact extraction
    ([updateCandidateInfo]) and the prompt composer ([createSystemPrompt]).

    React state and refs are fields of one [State] record and every callback
    is a function on it; the browser and the network are the events of a
    step function.

    The server side of a turn is embedded next to it: the action
    [saveTranscript] the component awaits, and the route
    [src/app/api/interview-conversation/route.ts] its request goes to, with
    the services they call as arguments. *)

From Stdlib Require Import List Bool Arith NArith ZArith Lia String Ascii
  DecimalString.
Import ListNotations.

(** ** JavaScript strings

    A JavaScript string is a sequence of UTF-16 code units; [length], the
    regular expressions without the [u] flag and [trim] all work on code
    units.  Literals of the source are written as Rocq strings (UTF-8 bytes)
    and decoded by [js]. *)

Module JS.

Definition jsstring : Type := list N.

Definition codeunits (cp : N) : list N :=
  if (cp <? 0x10000)%N then [cp]
  else let v := (cp - 0x10000)%N in
       [(0xD800 + N.shiftr v 10)%N; (0xDC00 + N.land v 0x3FF)%N].

Definition cont (b : N) : N := N.land b 0x3F.

Fixpoint utf8_decode (bs : list N) : list N :=
  match bs with
  | [] => []
  | b0 :: t0 =>
    if (b0 <? 0x80)%N then b0 :: utf8_decode t0
    else if (b0 <? 0xE0)%N then
      match t0 with
      | b1 :: t1 =>
        N.lor (N.shiftl (N.land b0 0x1F) 6) (cont b1) :: utf8_decode t1
      | _ => []
      end
    else if (b0 <? 0xF0)%N then
      match t0 with
      | b1 :: b2 :: t2 =>
        N.lor (N.shiftl (N.land b0 0x0F) 12)
              (N.lor (N.shiftl (cont b1) 6) (cont b2)) :: utf8_decode t2
      | _ => []
      end
    else
      match t0 with
      | b1 :: b2 :: b3 :: t3 =>
        N.lor (N.shiftl (N.land b0 0x07) 18)
              (N.lor (N.shiftl (cont b1) 12)
                     (N.lor (N.shiftl (cont b2) 6) (cont b3))) :: utf8_decode t3
      | _ => []
      end
  end.

Definition js (s : string) : jsstring :=
  flat_map codeunits (utf8_decode (map N_of_ascii (list_ascii_of_string s))).
Arguments js s%_string.

(** [String(n)] for a non-negative integer. *)
Definition of_number (n : N) : jsstring :=
  js (NilZero.string_of_uint (N.to_uint n)).

(** Truthiness of an optional string field: [undefined], [null] and the
    empty string are falsy. *)
Definition truthy (o : option jsstring) : bool :=
  match o with
  | Some (_ :: _) => true
  | _ => false
  end.

(** WhiteSpace and LineTerminator code units, the ones [trim] removes. *)
Definition isLineTerminator (c : N) : bool :=
  (c =? 0x0A)%N || (c =? 0x0D)%N || (c =? 0x2028)%N || (c =? 0x2029)%N.

Definition isWhiteSpace (c : N) : bool :=
  (c =? 0x09)%N || (c =? 0x0B)%N || (c =? 0x0C)%N || (c =? 0x20)%N
  || (c =? 0xA0)%N || (c =? 0x1680)%N
  || ((0x2000 <=? c)%N && (c <=? 0x200A)%N)
  || (c =? 0x202F)%N || (c =? 0x205F)%N || (c =? 0x3000)%N || (c =? 0xFEFF)%N.

Definition isTrimmed (c : N) : bool := isWhiteSpace c || isLineTerminator c.

Fixpoint trimStart (s : jsstring) : jsstring :=
  match s with
  | c :: s' => if isTrimmed c then trimStart s' else s
  | [] => []
  end.

Definition trim (s : jsstring) : jsstring :=
  rev (trimStart (rev (trimStart s))).

(** [Array.prototype.join]. *)
Fixpoint join (sep : jsstring) (l : list jsstring) : jsstring :=
  match l with
  | [] => []
  | [x] => x
  | x :: rest => x ++ sep ++ join sep rest
  end.

Fixpoint strip_prefix (p s : jsstring) : option jsstring :=
  match p, s with
  | [], _ => Some s
  | a :: p', b :: s' => if (a =? b)%N then strip_prefix p' s' else None
  | _ :: _, [] => None
  end.

End JS.

Import JS.
Arguments js s%_string : simpl never.

(** ** Regular expressions

    Every pattern of [updateCandidateInfo] is a sequence of non-capturing
    groups of literal alternatives [(?:a|b)], lazy runs [.+?] and one
    capturing group.  The matcher is the backtracking one of ECMAScript:
    alternatives left to right, a lazy run tries the shortest extension
    first, and [String.prototype.match] takes the leftmost start index. *)

Module Regex.

Inductive token : Type :=
| Alt (alts : list jsstring)
| AnyLazy
| Open
| Close.

Definition pattern : Type := list token.

Section Backtracking.
Context {A : Type}.
Variable k : jsstring -> option A.

Fixpoint lazy_plus (s : jsstring) : option A :=
  match s with
  | [] => None
  | c :: s' =>
    if isLineTerminator c then None
    else match k s' with
         | Some r => Some r
         | None => lazy_plus s'
         end
  end.

Fixpoint first_alt (alts : list jsstring) (s : jsstring) : option A :=
  match alts with
  | [] => None
  | a :: alts' =>
    match strip_prefix a s with
    | Some s' =>
      match k s' with
      | Some r => Some r
      | None => first_alt alts' s
      end
    | None => first_alt alts' s
    end
  end.
End Backtracking.

(** [go ts open_at cap s] matches the tokens [ts] at the head of [s];
    [open_at] is the input where the group was opened and [cap] the text the
    closed group has captured.  The result is capture 1 of the match. *)
Fixpoint go (ts : pattern) (open_at cap s : jsstring) : option jsstring :=
  match ts with
  | [] => Some cap
  | Open :: ts' => go ts' s cap s
  | Close :: ts' =>
    go ts' open_at (firstn (List.length open_at - List.length s) open_at) s
  | Alt alts :: ts' => first_alt (go ts' open_at cap) alts s
  | AnyLazy :: ts' => lazy_plus (go ts' open_at cap) s
  end.

(** [s.match(p)] without the [g] flag, reduced to its capture 1:
    [None] when the pattern matches nowhere. *)
Fixpoint regex_match (p : pattern) (s : jsstring) : option jsstring :=
  match go p [] [] s with
  | Some c => Some c
  | None =>
    match s with
    | [] => None
    | _ :: s' => regex_match p s'
    end
  end.

Definition lits (l : list string) : token := Alt (map js l).
Arguments lits l%_list.

End Regex.

Import Regex.

(** ** Data model *)

Inductive Role : Type := user | assistant.

Definition Role_eqb (a b : Role) : bool :=
  match a, b with
  | user, user | assistant, assistant => true
  | _, _ => false
  end.

(** A turn of [conversationHistory]. *)
Record Turn : Type := mkTurn {
  role : Role;
  content : jsstring;
  timestamp : N
}.

Inductive Phase : Type :=
| introduction | experience | skills | motivation | closing.

(** The state [candidateInfo]; an absent field is [None]. *)
Record CandidateInfo : Type := mkCandidateInfo {
  ci_name : option jsstring;
  ci_experience : option jsstring;
  ci_skills : option (list jsstring);
  ci_interests : option (list jsstring);
  ci_university : option jsstring;
  ci_company : option jsstring
}.

Definition emptyCandidateInfo : CandidateInfo :=
  mkCandidateInfo None None None None None None.

(** ** The phase classifier *)

Definition userMessageCount (history : list Turn) : nat :=
  List.length (filter (fun msg => Role_eqb (role msg) user) history).

Definition phaseOfCount (n : nat) : Phase :=
  if n <=? 2 then introduction
  else if n <=? 5 then experience
  else if n <=? 8 then skills
  else if n <=? 11 then motivation
  else closing.

(** [updateInterviewPhase history]: the value handed to [setInterviewPhase]. *)
Definition updateInterviewPhase (history : list Turn) : Phase :=
  phaseOfCount (userMessageCount history).

(** ** Fact extraction *)

Module Patterns.
Local Open Scope string_scope.

Definition namePatterns : list pattern := [
  [lits ["私の名前は"; "私は"]; Open; AnyLazy; Close;
   lits ["です"; "と申します"; "と申します"; "です"]];
  [lits ["名前は"; "名前が"]; Open; AnyLazy; Close; lits ["です"; "と申します"]];
  [lits ["私は"]; Open; AnyLazy; Close; lits ["です"; "と申します"]];
  [lits ["候補者は"; "応募者は"]; Open; AnyLazy; Close; lits ["です"; "と申します"]]
]%list.

Definition universityPatterns : list pattern := [
  [Open; AnyLazy; lits ["大学"; "学院"; "専門学校"; "短大"]; AnyLazy; Close;
   lits ["です"; "出身"; "卒業"]];
  [lits ["出身は"; "卒業は"];
   Open; AnyLazy; lits ["大学"; "学院"; "専門学校"; "短大"]; AnyLazy; Close;
   lits ["です"; "です"]];
  [Open; AnyLazy; lits ["大学"; "学院"; "専門学校"; "短大"]; AnyLazy; Close;
   lits ["で"; "に"]; lits ["通っ"; "在学"; "卒業"]];
  [lits ["大学は"; "学校は"]; Open; AnyLazy; Close; lits ["です"; "でした"]]
]%list.

Definition experiencePatterns : list pattern := [
  [Open; AnyLazy; lits ["経験"; "働い"; "職歴"; "勤務"; "在職"]; AnyLazy; Close];
  [Open; AnyLazy; lits ["年"; "年間"]; AnyLazy; lits ["経験"; "働い"; "職歴"];
   AnyLazy; Close];
  [Open; AnyLazy; lits ["会社"; "企業"; "組織"]; AnyLazy; lits ["で"; "に"];
   AnyLazy; lits ["働い"; "勤務"]; AnyLazy; Close]
]%list.

Definition companyPatterns : list pattern := [
  [Open; AnyLazy; lits ["会社"; "企業"; "株式会社"; "有限会社"; "合同会社"];
   AnyLazy; Close; lits ["で"; "に"]; lits ["働い"; "勤務"]];
  [lits ["会社は"; "企業は"]; Open; AnyLazy; Close; lits ["です"; "でした"]];
  [Open; AnyLazy; lits ["株式会社"; "有限会社"; "合同会社"]; AnyLazy; Close;
   lits ["です"; "でした"]]
]%list.

Definition skillsPatterns : list pattern := [
  [Open; AnyLazy; lits ["スキル"; "できる"; "技術"; "得意"; "専門"]; AnyLazy; Close];
  [Open; AnyLazy; lits ["プログラミング"; "開発"; "設計"; "分析"; "管理"];
   AnyLazy; Close];
  [Open; AnyLazy; lits ["言語"; "ツール"; "フレームワーク"]; AnyLazy; Close]
]%list.

End Patterns.

Import Patterns.

(** The loop [for (const pattern of patterns)]: the first pattern that
    matches with a trimmed capture longer than [min] gives the value, and the
    loop breaks there. *)
Fixpoint first_capture (min : nat) (patterns : list pattern)
    (userTranscript : jsstring) : option jsstring :=
  match patterns with
  | [] => None
  | p :: rest =>
    match regex_match p userTranscript with
    | Some c =>
      if min <? List.length (trim c) then Some (trim c)
      else first_capture min rest userTranscript
    | None => first_capture min rest userTranscript
    end
  end.

Definition or_keep {A : Type} (found old : option A) : option A :=
  match found with
  | Some v => Some v
  | None => old
  end.

(** [!updated.skills || updated.skills.length === 0] *)
Definition skills_missing (o : option (list jsstring)) : bool :=
  match o with
  | Some (_ :: _) => false
  | _ => true
  end.

(** The updater [updateCandidateInfo] hands to [setCandidateInfo]; the
    argument [aiResponse] is not read by the source either. *)
Definition updateCandidateInfo (aiResponse userTranscript : jsstring)
    (prev : CandidateInfo) : CandidateInfo :=
  let name' :=
    if negb (truthy (ci_name prev))
    then or_keep (first_capture 0 namePatterns userTranscript) (ci_name prev)
    else ci_name prev in
  let university' :=
    if negb (truthy (ci_university prev))
    then or_keep (first_capture 2 universityPatterns userTranscript)
                 (ci_university prev)
    else ci_university prev in
  let experience' :=
    if negb (truthy (ci_experience prev))
    then or_keep (first_capture 5 experiencePatterns userTranscript)
                 (ci_experience prev)
    else ci_experience prev in
  let company' :=
    if negb (truthy (ci_company prev))
    then or_keep (first_capture 2 companyPatterns userTranscript)
                 (ci_company prev)
    else ci_company prev in
  let skills' :=
    if skills_missing (ci_skills prev)
    then or_keep (option_map (fun v => [v])
                    (first_capture 3 skillsPatterns userTranscript))
                 (ci_skills prev)
    else ci_skills prev in
  mkCandidateInfo name' experience' skills' (ci_interests prev)
                  university' company'.

(** ** The prompt composer *)

Definition nl : jsstring := [10%N].

Definition messageNumber (index : nat) : N := N.of_nat (index / 2 + 1).

(** The callback of [history.map((msg, index) => ...)]. *)
Definition formatTurn (msg : Turn) (index : nat) : jsstring :=
  match role msg with
  | user =>
    js "【やり取り" ++ of_number (messageNumber index) ++ js "】" ++ nl
       ++ js "候補者: " ++ content msg ++ nl
  | assistant => js "面接官: " ++ content msg ++ nl
  end.

Fixpoint mapi {A B : Type} (f : A -> nat -> B) (index : nat) (l : list A)
    : list B :=
  match l with
  | [] => []
  | x :: rest => f x index :: mapi f (S index) rest
  end.

Definition formatConversationHistory (history : list Turn) : jsstring :=
  match history with
  | [] => js "まだ会話が始まっていません。"
  | _ => join nl (mapi formatTurn 0 history)
  end.

(** The block [introPhaseBlock] takes in the introduction phase. *)
Definition introPhaseBlock_text : jsstring := js "
【自己紹介段階の特別指示】
- 候補者の自己紹介が短い・抽象的・情報が少ない場合は、必ず具体的な質問をして詳細を引き出してください。
- 例：「どの大学を卒業されましたか？」「ご専門は何ですか？」「どんな仕事をされていますか？」「趣味や興味はありますか？」など。
- 決して候補者が自発的に話し出すのを待たず、積極的に質問してください。
- もし候補者が既に「名前」「大学」「専攻」などの基本情報を自己紹介で述べている場合は、これ以上「自己紹介をお願いします」とは言わず、学校外での活動、趣味、アルバイト経験、または次の面接フェーズ（経験・スキル・志望動機など）に自然に移行してください。
- 例：「大学以外で力を入れている活動はありますか？」「趣味や特技について教えてください」「学生時代に頑張ったことは何ですか？」など。".

(** [progressionBlock], the same in every phase. *)
Definition progressionBlock : jsstring := js "
【面接の進行に関する指示】
- 会話の流れをよく観察し、候補者が十分に自己紹介や基本情報を述べたと判断したら、自然に次の話題や質問に移ってください。
- フェーズ（自己紹介・経験・スキル・志望動機など）にこだわりすぎず、会話の内容や候補者の発言に応じて柔軟に質問を展開してください。
- ただ「良いですね」「分かりました」などの相槌だけで終わらず、必ず次の質問や深掘りを行ってください。
- もし話題に困った場合は、候補者の過去の発言や会話履歴から興味深い点を見つけて質問してください。

【質問の多様性と深掘り】
- 同じ質問を2回以上繰り返さないでください。会話履歴を確認して、既に聞いた内容は避けてください。
- 表面的な質問だけでなく、必ず深掘り質問をしてください。例：
  * 「なぜその活動を始められたのですか？」
  * 「その経験から何を学ばれましたか？」
  * 「具体的にどのような困難がありましたか？」
  * 「その結果、どのような変化がありましたか？」
- 質問のバリエーションを豊富にしてください：
  * 経験・活動：「学生時代に最も印象に残っている経験は？」「部活動やサークル活動は？」「アルバイト経験は？」「インターンシップ経験は？」
  * スキル・技術：「得意な技術やツールは？」「最近学んでいることは？」「技術的な課題にどう取り組みますか？」
  * 志望動機：「なぜこの業界に興味を持たれましたか？」「将来のキャリアビジョンは？」「この会社を選んだ理由は？」
  * 性格・価値観：「ストレス解消法は？」「チームワークで大切にしていることは？」「失敗から学んだことは？」

【会話履歴の活用】
- 候補者が既に話した内容を必ず覚えておき、同じ質問を繰り返さないでください。
- 前の回答を踏まえて、より具体的で深い質問をしてください。
- 候補者が言及したキーワードや経験を拾って、それについて詳しく聞いてください。".

(** The template of [createSystemPrompt] up to the two blocks. *)
Definition prompt_head : jsstring := js "あなたは経験豊富な日本企業の面接官です。以下の指針に従って面接を進めてください：".

(** The template between the blocks and the phase label. *)
Definition prompt_guidelines : jsstring := js "

**重要な指示:**
- 会話の履歴を必ず参照し、候補者が既に話した内容を覚えておく
- 候補者の名前、大学、会社、経験、スキルなどの情報を記憶し、後で参照する
- 一貫性のある会話を維持する

**面接の流れ:**
- 自己紹介から始める（introduction段階）
- 経歴・経験について詳しく聞く（experience段階）
- スキルや専門知識を確認（skills段階）
- 志望動機や将来の目標を聞く（motivation段階）
- 質問の機会を提供して締める（closing段階）

**面接官としての態度:**
- 丁寧で敬語を使った話し方
- 候補者の回答に対して適切な深掘り質問
- 1回の応答は1-2個の質問に留める
- 候補者にたくさん話してもらう
- 自然な会話の流れを作る

**記憶の活用:**
- 前の回答を参考にした質問をする
- 候補者の発言に一貫性があるかチェック
- 具体的な例やエピソードを求める
- 候補者の名前を適切に使用する

**現在の面接フェーズ:** ".

(** The template between the phase label and the rendered history. *)
Definition prompt_history_header : jsstring := js "

**会話履歴:**
".

(** The closing line of the template. *)
Definition prompt_tail : jsstring := js "

各回答は1文と必ず簡潔にまとめてください。".

Definition introPhaseBlock (p : Phase) : jsstring :=
  match p with
  | introduction => introPhaseBlock_text
  | _ => []
  end.

Definition phaseLabel (p : Phase) : jsstring :=
  match p with
  | introduction => js "自己紹介"
  | experience => js "経歴・経験"
  | skills => js "スキル確認"
  | motivation => js "志望動機"
  | closing => js "質疑応答"
  end.

(** A line of [candidateInfoText] for a string field, empty when the field
    is falsy. *)
Definition factLine (label : jsstring) (o : option jsstring) : jsstring :=
  match o with
  | Some (c :: v) => nl ++ label ++ c :: v
  | _ => []
  end.

(** The skills line tests [candidateInfo.skills] alone: any array is truthy. *)
Definition skillsLine (o : option (list jsstring)) : jsstring :=
  match o with
  | Some l => nl ++ js "- スキル: " ++ join (js ", ") l
  | None => []
  end.

Definition candidateInfoText (c : CandidateInfo) : jsstring :=
  match ci_name c with
  | Some (ch :: v) =>
    nl ++ js "候補者情報:" ++ nl ++ js "- 名前: " ++ (ch :: v)
       ++ factLine (js "- 大学: ") (ci_university c)
       ++ factLine (js "- 会社: ") (ci_company c)
       ++ factLine (js "- 経験: ") (ci_experience c)
       ++ skillsLine (ci_skills c)
  | _ => []
  end.

(** The values of one render that the callbacks created in it close over. *)
Record Render : Type := mkRender {
  r_conversationHistory : list Turn;
  r_interviewPhase : Phase;
  r_candidateInfo : CandidateInfo
}.

Definition createSystemPrompt (r : Render) : jsstring :=
  prompt_head ++ introPhaseBlock (r_interviewPhase r) ++ progressionBlock
    ++ prompt_guidelines ++ phaseLabel (r_interviewPhase r)
    ++ prompt_history_header
    ++ formatConversationHistory (r_conversationHistory r)
    ++ candidateInfoText (r_candidateInfo r)
    ++ prompt_tail.

(** ** The component state *)

(** A [MediaRecorder] the component created: the session id its data handler
    closed over, and whether it is in state [recording]. *)
Record Recorder : Type := mkRecorder {
  rec_sessionId : nat;
  rec_recording : bool
}.

(** A handle returned by [setTimeout]: the timer is still due, or has fired
    (the handle stays in the ref until somebody clears it). *)
Inductive Timeout : Type := Pending | Fired.

(** A chunk of recorded audio, by its size in bytes. *)
Definition Blob : Type := N.

Definition blobSize (chunks : list Blob) : N := fold_right N.add 0%N chunks.

(** The body [conversationContext] of the request. *)
Record Context : Type := mkContext {
  ctx_history : list Turn;
  ctx_phase : Phase;
  ctx_candidateInfo : CandidateInfo;
  ctx_totalExchanges : nat;
  ctx_formattedHistory : jsstring
}.

(** One call of [fetch("/api/interview-conversation")]. *)
Record Request : Type := mkRequest {
  req_audio : list Blob;
  req_systemPrompt : jsstring;
  req_context : Context
}.

(** The JSON body of a response. *)
Record ApiData : Type := mkApiData {
  d_text : option jsstring;
  d_transcript : option jsstring;
  d_audio : option jsstring;
  d_mimeType : option jsstring
}.

(** What a [throw] or a rejected promise carries: an [Error] with its
    message, or any other value. *)
Inductive Thrown : Type :=
| ErrorObject (message : jsstring)
| OtherValue.

(** How the awaited [fetch], [response.text()] and [response.json()] end. *)
Inductive FetchOutcome : Type :=
| FetchRejected (e : Thrown)
| NotOk (status : N) (errorText : jsstring)
| JsonRejected (e : Thrown)
| Json (data : ApiData).

(** An activation of [sendCurrentAudio] suspended at an [await], with the
    render [r] its closure was created in. *)
Inductive Task : Type :=
| AwaitFetch (r : Render) (req : Request)
| AwaitSaveTranscript (r : Render) (data : ApiData)
| AwaitPlay.

Record State : Type := mkState {
  (* useState *)
  isActive : bool;
  isProcessing : bool;
  isSpeaking : bool;
  response : jsstring;
  error : jsstring;
  silenceTimer : N;
  hasSpokenInCurrentSession : bool;
  isPlayingTTS : bool;
  sessionStartTime : option N;
  conversationHistory : list Turn;
  interviewPhase : Phase;
  candidateInfo : CandidateInfo;
  (* useRef; a device handle is [true] when the ref is not null *)
  mediaRecorderRef : option Recorder;
  audioContextRef : bool;
  analyserRef : bool;
  streamRef : bool;
  chunksRef : list Blob;
  silenceTimerRef : option Timeout;
  analysisIntervalRef : bool;
  currentAudioRef : option jsstring;
  previousSpeakingStateRef : bool;
  hasSpokenInCurrentSessionRef : bool;
  isProcessingRef : bool;
  isPlayingTTSRef : bool;
  currentRecordingSessionRef : nat;
  (* outside the component: suspended activations and the calls made *)
  tasks : list Task;
  fetchLog : list Request;
  savedTranscripts : list jsstring;
  usageLog : list N
}.

(** Field updates: [set_f v s] is [s] with field [f] replaced by [v]. *)
Ltac setter proj v s :=
  let e := constr:(mkState
    (isActive s) (isProcessing s) (isSpeaking s) (response s) (error s)
    (silenceTimer s) (hasSpokenInCurrentSession s) (isPlayingTTS s)
    (sessionStartTime s) (conversationHistory s) (interviewPhase s)
    (candidateInfo s) (mediaRecorderRef s) (audioContextRef s)
    (analyserRef s) (streamRef s) (chunksRef s) (silenceTimerRef s)
    (analysisIntervalRef s) (currentAudioRef s) (previousSpeakingStateRef s)
    (hasSpokenInCurrentSessionRef s) (isProcessingRef s) (isPlayingTTSRef s)
    (currentRecordingSessionRef s) (tasks s) (fetchLog s)
    (savedTranscripts s) (usageLog s)) in
  match eval pattern (proj s) in e with
  | ?f _ => let r := eval cbv beta in (f v) in exact r
  end.

Definition setIsActive (v : bool) (s : State) : State :=
  ltac:(setter isActive v s).
Definition setIsProcessing (v : bool) (s : State) : State :=
  ltac:(setter isProcessing v s).
Definition setIsSpeaking (v : bool) (s : State) : State :=
  ltac:(setter isSpeaking v s).
Definition setResponse (v : jsstring) (s : State) : State :=
  ltac:(setter response v s).
Definition setError (v : jsstring) (s : State) : State :=
  ltac:(setter error v s).
Definition setSilenceTimer (v : N) (s : State) : State :=
  ltac:(setter silenceTimer v s).
Definition setHasSpokenInCurrentSession (v : bool) (s : State) : State :=
  ltac:(setter hasSpokenInCurrentSession v s).
Definition setIsPlayingTTS (v : bool) (s : State) : State :=
  ltac:(setter isPlayingTTS v s).
Definition setSessionStartTime (v : option N) (s : State) : State :=
  ltac:(setter sessionStartTime v s).
Definition setConversationHistory (v : list Turn) (s : State) : State :=
  ltac:(setter conversationHistory v s).
Definition setInterviewPhase (v : Phase) (s : State) : State :=
  ltac:(setter interviewPhase v s).
Definition setCandidateInfo (v : CandidateInfo) (s : State) : State :=
  ltac:(setter candidateInfo v s).
Definition set_mediaRecorderRef (v : option Recorder) (s : State) : State :=
  ltac:(setter mediaRecorderRef v s).
Definition set_audioContextRef (v : bool) (s : State) : State :=
  ltac:(setter audioContextRef v s).
Definition set_analyserRef (v : bool) (s : State) : State :=
  ltac:(setter analyserRef v s).
Definition set_streamRef (v : bool) (s : State) : State :=
  ltac:(setter streamRef v s).
Definition set_chunksRef (v : list Blob) (s : State) : State :=
  ltac:(setter chunksRef v s).
Definition set_silenceTimerRef (v : option Timeout) (s : State) : State :=
  ltac:(setter silenceTimerRef v s).
Definition set_analysisIntervalRef (v : bool) (s : State) : State :=
  ltac:(setter analysisIntervalRef v s).
Definition set_currentAudioRef (v : option jsstring) (s : State) : State :=
  ltac:(setter currentAudioRef v s).
Definition set_previousSpeakingStateRef (v : bool) (s : State) : State :=
  ltac:(setter previousSpeakingStateRef v s).
Definition set_hasSpokenInCurrentSessionRef (v : bool) (s : State) : State :=
  ltac:(setter hasSpokenInCurrentSessionRef v s).
Definition set_isProcessingRef (v : bool) (s : State) : State :=
  ltac:(setter isProcessingRef v s).
Definition set_isPlayingTTSRef (v : bool) (s : State) : State :=
  ltac:(setter isPlayingTTSRef v s).
Definition set_currentRecordingSessionRef (v : nat) (s : State) : State :=
  ltac:(setter currentRecordingSessionRef v s).
Definition set_tasks (v : list Task) (s : State) : State :=
  ltac:(setter tasks v s).
Definition set_fetchLog (v : list Request) (s : State) : State :=
  ltac:(setter fetchLog v s).
Definition set_savedTranscripts (v : list jsstring) (s : State) : State :=
  ltac:(setter savedTranscripts v s).
Definition set_usageLog (v : list N) (s : State) : State :=
  ltac:(setter usageLog v s).

(** ** Configuration constants *)

Definition SILENCE_DURATION : N := 1500.
Definition ANALYSIS_INTERVAL : N := 100.

(** [normalizedLevel > SILENCE_THRESHOLD] with the threshold 0.05:
    [sum / bufferLength / 255 > 5 / 100], decided on the integers.  (The
    nearest values of the quotient are [1 / (5100 * bufferLength)] away from
    the threshold, far more than the rounding of the two divisions.) *)
Definition aboveThreshold (dataArray : list N) : bool :=
  (255 * N.of_nat (List.length dataArray) <? 20 * fold_left N.add dataArray 0)%N.

(** ** Callbacks *)

Definition stopRecorder (s : State) : State :=
  match mediaRecorderRef s with
  | Some rc =>
    if rec_recording rc
    then set_mediaRecorderRef (Some (mkRecorder (rec_sessionId rc) false)) s
    else s
  | None => s
  end.

(** [cleanup]: the recorder, the tracks, the audio context, the timer, the
    interval and the playback are stopped, then the refs are reset.  The
    stream and audio-context refs are not nulled. *)
Definition cleanup (s : State) : State :=
  let s := stopRecorder s in
  let s := set_chunksRef [] s in
  let s := set_silenceTimerRef None s in
  let s := set_analysisIntervalRef false s in
  let s := set_currentAudioRef None s in
  let s := set_previousSpeakingStateRef false s in
  let s := set_hasSpokenInCurrentSessionRef false s in
  let s := set_isProcessingRef false s in
  set_isPlayingTTSRef false s.

Definition startNewRecordingSession (s : State) : State :=
  let s := set_currentRecordingSessionRef (currentRecordingSessionRef s + 1) s in
  let s := stopRecorder s in
  let s := set_chunksRef [] s in
  let s := set_hasSpokenInCurrentSessionRef false s in
  let s := setHasSpokenInCurrentSession false s in
  let s := set_previousSpeakingStateRef false s in
  let s := set_silenceTimerRef None s in
  let s := setSilenceTimer 0 s in
  if streamRef s && audioContextRef s then
    let sessionId := currentRecordingSessionRef s in
    set_mediaRecorderRef (Some (mkRecorder sessionId true)) s
  else s.

(** [recorder.ondataavailable] of the recorder created for [sessionId]. *)
Definition ondataavailable (sessionId : nat) (size : N) (s : State) : State :=
  if (0 <? size)%N
     && negb (isProcessingRef s)
     && negb (isPlayingTTSRef s)
     && (sessionId =? currentRecordingSessionRef s)
  then set_chunksRef (chunksRef s ++ [size]) s
  else s.

(** [recorder.onerror] *)
Definition onrecordererror (s : State) : State :=
  setError (js "音声録音エラーが発生しました") s.

Definition nonEmpty {A : Type} (l : list A) : bool :=
  match l with
  | [] => false
  | _ :: _ => true
  end.

Definition isNull {A : Type} (o : option A) : bool :=
  match o with
  | None => true
  | Some _ => false
  end.

(** [analyzeAudio], one sample of the analyser in [dataArray].  The first
    call of [updateTimer] is made in the same tick as [startTime] is read,
    with nothing elapsed; the later ones are events of their own. *)
Definition analyzeAudio (dataArray : list N) (s : State) : State :=
  if negb (analyserRef s) || isProcessingRef s || isPlayingTTSRef s then s
  else
    let currentlySpeaking := aboveThreshold dataArray in
    let previouslySpeaking := previousSpeakingStateRef s in
    let s := setIsSpeaking currentlySpeaking s in
    let s :=
      if currentlySpeaking then
        let s := set_hasSpokenInCurrentSessionRef true s in
        let s := setHasSpokenInCurrentSession true s in
        let s := set_silenceTimerRef None s in
        setSilenceTimer 0 s
      else if hasSpokenInCurrentSessionRef s
              && previouslySpeaking
              && negb currentlySpeaking
              && nonEmpty (chunksRef s)
              && isNull (silenceTimerRef s)
              && negb (isProcessingRef s)
              && negb (isPlayingTTSRef s)
      then
        let s := set_silenceTimerRef (Some Pending) s in
        setSilenceTimer (N.min 0 SILENCE_DURATION) s
      else s in
    set_previousSpeakingStateRef currentlySpeaking s.

(** A later call of [updateTimer], [elapsed] milliseconds after the
    countdown was started. *)
Definition updateTimer (elapsed : N) (s : State) : State :=
  setSilenceTimer (N.min elapsed SILENCE_DURATION) s.

Definition errorMessage (e : Thrown) : jsstring :=
  match e with
  | ErrorObject message => message
  | OtherValue => js "Unknown error"
  end.

(** The [finally] block of [sendCurrentAudio]. *)
Definition finallyBlock (s : State) : State :=
  let s := set_isProcessingRef false s in
  setIsProcessing false s.

(** The [catch] block of [sendCurrentAudio], followed by [finally]. *)
Definition catchBlock (err : Thrown) (s : State) : State :=
  let s := setError (js "エラーが発生しました: " ++ errorMessage err) s in
  let s := startNewRecordingSession s in
  finallyBlock s.

Definition option_default (o : option jsstring) : jsstring :=
  match o with
  | Some v => v
  | None => []
  end.

(** [sendCurrentAudio] from the line after [await saveTranscript] (or after
    the test of [data.transcript] when there is none) to the next [await] or
    the end.  [now] is [Date.now()]. *)
Definition afterSaveTranscript (r : Render) (data : ApiData) (now : N)
    (s : State) : State :=
  let text := option_default (d_text data) in
  let newUserMessage :=
    mkTurn user
           (if truthy (d_transcript data) then option_default (d_transcript data)
            else js "[Audio message]")
           now in
  let newAssistantMessage := mkTurn assistant text now in
  let newHistory :=
    r_conversationHistory r ++ [newUserMessage; newAssistantMessage] in
  let s := setConversationHistory newHistory s in
  let s := setInterviewPhase (updateInterviewPhase newHistory) s in
  let s :=
    if truthy (d_transcript data)
    then setCandidateInfo
           (updateCandidateInfo text (option_default (d_transcript data))
                                (candidateInfo s)) s
    else s in
  if truthy (d_audio data) && truthy (d_mimeType data) then
    let audioData :=
      js "data:" ++ option_default (d_mimeType data) ++ js ";base64,"
         ++ option_default (d_audio data) in
    let s := set_currentAudioRef (Some audioData) s in
    let s := set_isPlayingTTSRef true s in
    let s := setIsPlayingTTS true s in
    let s := set_chunksRef [] s in
    set_tasks (tasks s ++ [AwaitPlay]) s
  else
    let s := startNewRecordingSession s in
    finallyBlock s.

(** [sendCurrentAudio] from the settlement of the request to the next
    [await] or the end. *)
Definition afterFetch (r : Render) (o : FetchOutcome) (now : N) (s : State)
    : State :=
  match o with
  | FetchRejected e => catchBlock e s
  | NotOk status errorText =>
    catchBlock (ErrorObject (js "API Error: " ++ of_number status ++ js " - "
                                ++ errorText)) s
  | JsonRejected e => catchBlock e s
  | Json data =>
    if negb (truthy (d_text data))
    then catchBlock (ErrorObject (js "No text response from API")) s
    else
      let s := setResponse (option_default (d_text data)) s in
      if truthy (d_transcript data) then
        let s := set_savedTranscripts
                   (savedTranscripts s ++ [option_default (d_transcript data)])
                   s in
        set_tasks (tasks s ++ [AwaitSaveTranscript r data]) s
      else afterSaveTranscript r data now s
  end.

(** The statements of [sendCurrentAudio] between its guard and the size
    tests: the processing flag is raised, the countdown cleared, the buffer
    emptied (its content is by then in the local [audioChunks]), the speech
    flags and the error reset. *)
Definition beginProcessing (s : State) : State :=
  let s := set_isProcessingRef true s in
  let s := setIsProcessing true s in
  let s := set_silenceTimerRef None s in
  let s := setSilenceTimer 0 s in
  let s := set_chunksRef [] s in
  let s := set_hasSpokenInCurrentSessionRef false s in
  let s := setHasSpokenInCurrentSession false s in
  let s := set_previousSpeakingStateRef false s in
  setError [] s.

Definition buildRequest (r : Render) (audioChunks : list Blob) : Request :=
  let conversationContext :=
    mkContext (r_conversationHistory r) (r_interviewPhase r)
              (r_candidateInfo r)
              (userMessageCount (r_conversationHistory r))
              (formatConversationHistory (r_conversationHistory r)) in
  mkRequest audioChunks (createSystemPrompt r) conversationContext.

(** [sendCurrentAudio] of the render [r], up to [await fetch(...)] or, when
    the payload is rejected, to its end. *)
Definition sendCurrentAudio (r : Render) (s : State) : State :=
  if negb (nonEmpty (chunksRef s)) || isProcessingRef s then s
  else
    let audioChunks := chunksRef s in
    let s := beginProcessing s in
    if (blobSize audioChunks =? 0)%N
    then catchBlock (ErrorObject (js "Empty audio data")) s
    else if (blobSize audioChunks <? 1000)%N
    then catchBlock
           (ErrorObject (js "Audio data too small - please speak longer")) s
    else
      let req := buildRequest r audioChunks in
      let s := set_fetchLog (fetchLog s ++ [req]) s in
      set_tasks (tasks s ++ [AwaitFetch r req]) s.

(** [audio.onended] and [audio.onerror] have the same body. *)
Definition onPlaybackOver (s : State) : State :=
  let s := set_currentAudioRef None s in
  let s := set_isPlayingTTSRef false s in
  let s := setIsPlayingTTS false s in
  startNewRecordingSession s.

Definition initialMessage : jsstring :=
  js "本日はお時間をいただきありがとうございます。まずは簡単に自己紹介をお願いできますか？".

Definition handleInitialAIGreeting (now : N) (s : State) : State :=
  let initialAIMessage := mkTurn assistant initialMessage now in
  let s := setConversationHistory [initialAIMessage] s in
  setResponse initialMessage s.

(** The answer of [canStartSession()]. *)
Inductive UsageCheck : Type :=
| CheckRejected
| Denied (currentUsage planLimit : N)
| Allowed.

(** [startRealTimeRecording], with the answers of the usage check and of
    [getUserMedia] ([micGranted]). *)
Definition startRealTimeRecording (usageCheck : UsageCheck) (micGranted : bool)
    (now : N) (s : State) : State :=
  match usageCheck with
  | CheckRejected => setError (js "マイクへのアクセスに失敗しました") s
  | Denied currentUsage planLimit =>
    setError (js "月間利用制限に達しました (" ++ of_number currentUsage ++ js "/"
                 ++ of_number planLimit ++ js "分)") s
  | Allowed =>
    if micGranted then
      let s := set_streamRef true s in
      let s := set_audioContextRef true s in
      let s := set_analyserRef true s in
      let s := setConversationHistory [] s in
      let s := setInterviewPhase introduction s in
      let s := setCandidateInfo emptyCandidateInfo s in
      let s := setResponse [] s in
      let s := setError [] s in
      let s := setSessionStartTime (Some now) s in
      let s := startNewRecordingSession s in
      let s := set_analysisIntervalRef true s in
      let s := setIsActive true s in
      setError [] s
    else setError (js "マイクへのアクセスに失敗しました") s
  end.

(** [Math.ceil((end - start) / (1000 * 60))] *)
Definition sessionMinutes (startTime endTime : N) : N :=
  ((endTime - startTime + 59999) / 60000)%N.

Definition stopRealTimeRecording (now : N) (s : State) : State :=
  let s := cleanup s in
  let s := setIsActive false s in
  let s := setIsSpeaking false s in
  let s := setSilenceTimer 0 s in
  let s := setIsPlayingTTS false s in
  let s := setIsProcessing false s in
  let s := set_currentRecordingSessionRef 0 s in
  match sessionStartTime s with
  | Some startTime =>
    let s :=
      if (0 <? sessionMinutes startTime now)%N
      then set_usageLog (usageLog s ++ [sessionMinutes startTime now]) s
      else s in
    setSessionStartTime None s
  | None => s
  end.

Definition toggleRecording (usageCheck : UsageCheck) (micGranted : bool)
    (now : N) (s : State) : State :=
  if isActive s then stopRealTimeRecording now s
  else startRealTimeRecording usageCheck micGranted now
         (handleInitialAIGreeting now s).

(** ** The event loop *)

(** How an awaited promise of a suspended activation settles. *)
Inductive Settlement : Type :=
| Fetched (o : FetchOutcome)
| Resolved
| Rejected (e : Thrown).

Inductive Event : Type :=
| Toggle (usageCheck : UsageCheck) (micGranted : bool) (now : N)
| Tick (dataArray : list N)
| DataAvailable (sessionId : nat) (size : N)
| RecorderError
| SilenceTimeout
| UpdateTimer (elapsed : N)
| Settle (i : nat) (o : Settlement) (now : N)
| PlaybackEnded
| PlaybackError.

Fixpoint remove_nth {A : Type} (i : nat) (l : list A) : list A :=
  match i, l with
  | _, [] => []
  | O, _ :: rest => rest
  | S i', x :: rest => x :: remove_nth i' rest
  end.

(** The continuation of a suspended activation on a settlement; [None] when
    the settlement is not one of the promise the activation awaits. *)
Definition resume (t : Task) (o : Settlement) (now : N) (s : State)
    : option State :=
  match t, o with
  | AwaitFetch r _, Fetched o => Some (afterFetch r o now s)
  | AwaitSaveTranscript r data, Resolved => Some (afterSaveTranscript r data now s)
  | AwaitSaveTranscript _ _, Rejected e => Some (catchBlock e s)
  | AwaitPlay, Resolved => Some (finallyBlock s)
  | AwaitPlay, Rejected e => Some (catchBlock e s)
  | _, _ => None
  end.

(** The render of the first mount: the initial values of the three states. *)
Definition mount_render : Render := mkRender [] introduction emptyCandidateInfo.

(** The render a state is displayed by. *)
Definition current_render (s : State) : Render :=
  mkRender (conversationHistory s) (interviewPhase s) (candidateInfo s).

Section Machine.

(** The render whose [sendCurrentAudio] the silence timer calls.  In the
    source [analyzeAudio] is memoised with an empty dependency list, so the
    callback it hands to [setTimeout] is the [sendCurrentAudio] of the
    first render: [fun _ => mount_render].  The step function takes the
    choice as a parameter. *)
Variable closure : State -> Render.

(** One event.  An event that cannot occur in a state leaves it as it is:
    the button is disabled while [isProcessing], the interval and the
    timer fire only while they are set, a playback event needs an audio
    element. *)
Definition step (s : State) (e : Event) : State :=
  match e with
  | Toggle usageCheck micGranted now =>
    if isProcessing s then s else toggleRecording usageCheck micGranted now s
  | Tick dataArray =>
    if analysisIntervalRef s then analyzeAudio dataArray s else s
  | DataAvailable sessionId size => ondataavailable sessionId size s
  | RecorderError => onrecordererror s
  | SilenceTimeout =>
    match silenceTimerRef s with
    | Some Pending =>
      sendCurrentAudio (closure s) (set_silenceTimerRef (Some Fired) s)
    | _ => s
    end
  | UpdateTimer elapsed => updateTimer elapsed s
  | Settle i o now =>
    match nth_error (tasks s) i with
    | Some t =>
      match resume t o now (set_tasks (remove_nth i (tasks s)) s) with
      | Some s' => s'
      | None => s
      end
    | None => s
    end
  | PlaybackEnded | PlaybackError =>
    match currentAudioRef s with
    | Some _ => onPlaybackOver s
    | None => s
    end
  end.

Definition run (s : State) (events : list Event) : State :=
  fold_left step events s.

End Machine.

Definition init : State :=
  mkState false false false [] [] 0 false false None [] introduction
          emptyCandidateInfo None false false false [] None false None
          false false false false 0 [] [] [] [].

Definition mount_closure (s : State) : Render := mount_render.

(** The requests that are in flight: the activations awaiting [fetch]. *)
Definition isAwaitFetch (t : Task) : bool :=
  match t with
  | AwaitFetch _ _ => true
  | _ => false
  end.

Definition inFlight (s : State) : nat :=
  List.length (filter isAwaitFetch (tasks s)).

(** ** Vocabulary of the properties *)

(** The state of the turn loop, read off the flags the callbacks test. *)
Inductive Mode : Type := Idle | Recording | Processing | Playing.

Definition mode (s : State) : Mode :=
  if negb (isActive s) then Idle
  else if isPlayingTTSRef s then Playing
  else if isProcessingRef s then Processing
  else Recording.

(** [s'] is [s] after exactly one new recording session was started: the id
    is the next one, the buffer and the speech flags are reset, no countdown
    is left, and the recorder (there is one whenever the stream and the audio
    context exist) is the one of the new id. *)
Definition freshSession (s s' : State) : Prop :=
  currentRecordingSessionRef s' = S (currentRecordingSessionRef s)
  /\ chunksRef s' = []
  /\ hasSpokenInCurrentSessionRef s' = false
  /\ previousSpeakingStateRef s' = false
  /\ silenceTimerRef s' = None
  /\ (streamRef s = true -> audioContextRef s = true ->
      mediaRecorderRef s'
      = Some (mkRecorder (S (currentRecordingSessionRef s)) true)).

(** The settlements of the request that make the turn fail: the request is
    rejected, the status is not a success, the body is not JSON, or the JSON
    has no text. *)
Definition failedOutcome (o : FetchOutcome) : bool :=
  match o with
  | Json data => negb (truthy (d_text data))
  | _ => true
  end.

(** What the [catch] block catches for a failed outcome. *)
Definition failureThrown (o : FetchOutcome) : Thrown :=
  match o with
  | FetchRejected e | JsonRejected e => e
  | NotOk status errorText =>
    ErrorObject (js "API Error: " ++ of_number status ++ js " - " ++ errorText)
  | Json _ => ErrorObject (js "No text response from API")
  end.

(** The message for a payload under the floor. *)
Definition payloadMessage (size : N) : jsstring :=
  if (size =? 0)%N then js "Empty audio data"
  else js "Audio data too small - please speak longer".

(** A step starts a silence countdown. *)
Definition arms (s s' : State) : Prop :=
  silenceTimerRef s' = Some Pending /\ silenceTimerRef s <> Some Pending.

(** The chunks the recorders hand over during a list of events. *)
Definition delivered (events : list Event) : list Blob :=
  flat_map (fun e => match e with
                     | DataAvailable _ size => [size]
                     | _ => []
                     end) events.

(** The stop of a running interview: the button pressed while active. *)
Definition isStop (s : State) (e : Event) : bool :=
  match e with
  | Toggle _ _ _ => negb (isProcessing s) && isActive s
  | _ => false
  end.

(** A history of [n] exchanges: a user turn and the reply, [n] times. *)
Fixpoint exchanges (n : nat) : list Turn :=
  match n with
  | O => []
  | S n' => exchanges n' ++ [mkTurn user (js "A") 0; mkTurn assistant (js "Q") 0]
  end.

Arguments updateCandidateInfo : simpl never.
Arguments updateInterviewPhase : simpl never.
Arguments createSystemPrompt : simpl never.
Arguments formatConversationHistory : simpl never.
Arguments of_number : simpl never.
Arguments blobSize : simpl never.
Arguments N.ltb : simpl never.
Arguments N.eqb : simpl never.
Arguments N.leb : simpl never.
Arguments N.min : simpl never.
Arguments aboveThreshold : simpl never.
Arguments stopRecorder : simpl never.
Arguments cleanup : simpl never.
Arguments startNewRecordingSession : simpl never.
Arguments ondataavailable : simpl never.
Arguments analyzeAudio : simpl never.
Arguments catchBlock : simpl never.
Arguments finallyBlock : simpl never.
Arguments afterSaveTranscript : simpl never.
Arguments afterFetch : simpl never.
Arguments sendCurrentAudio : simpl never.
Arguments onPlaybackOver : simpl never.
Arguments handleInitialAIGreeting : simpl never.
Arguments startRealTimeRecording : simpl never.
Arguments stopRealTimeRecording : simpl never.
Arguments toggleRecording : simpl never.

(** Case analysis on every test a callback makes, on an explicit state. *)
Ltac break_test :=
  match goal with
  | |- context [if ?b then _ else _] => destruct b eqn:?
  | |- context [match ?x with _ => _ end] => destruct x eqn:?
  end.

Ltac open_callbacks :=
  unfold toggleRecording, stopRealTimeRecording, startRealTimeRecording,
    handleInitialAIGreeting, onPlaybackOver, sendCurrentAudio, buildRequest,
    beginProcessing, afterFetch,
    afterSaveTranscript, catchBlock, finallyBlock, updateTimer, analyzeAudio,
    onrecordererror, ondataavailable, startNewRecordingSession, cleanup,
    stopRecorder in *.

Ltac state_done :=
  intros; subst; cbn in *;
  rewrite ?Nat.add_1_r, ?N.ltb_lt, ?N.ltb_ge, ?N.eqb_eq, ?N.eqb_neq,
    ?Nat.eqb_eq, ?Nat.eqb_neq in *;
  try reflexivity; try congruence; try discriminate; try lia.

Ltac state_cases s :=
  open_callbacks; destruct s; cbn in *;
  repeat (break_test; cbn in *);
  repeat split; try reflexivity; try congruence; try discriminate; auto.

(** The callbacks of the monitor and of the recorder leave the turn in
    progress alone: the suspended activations, the log of requests and the
    two processing flags. *)
Definition keepsTurn (s s' : State) : Prop :=
  tasks s' = tasks s /\ fetchLog s' = fetchLog s
  /\ isProcessingRef s' = isProcessingRef s
  /\ isProcessing s' = isProcessing s.

(** At most one activation of [sendCurrentAudio] is suspended, and while one
    is, both processing flags are raised. *)
Definition oneTurn (s : State) : Prop :=
  tasks s = []
  \/ exists t, tasks s = [t] /\ isProcessingRef s = true /\ isProcessing s = true.

(** The test [analyzeAudio] makes before it calls [setTimeout]. *)
Definition armingConditions (dataArray : list N) (s : State) : Prop :=
  hasSpokenInCurrentSessionRef s = true
  /\ previousSpeakingStateRef s = true
  /\ aboveThreshold dataArray = false
  /\ chunksRef s <> []
  /\ silenceTimerRef s = None
  /\ isProcessingRef s = false
  /\ isPlayingTTSRef s = false.

(** A step that leaves the countdown as it was or without one. *)
Definition timerKept (s s' : State) : Prop :=
  silenceTimerRef s' = silenceTimerRef s \/ silenceTimerRef s' = None.

(** The identifier moves to the next one or stays. *)
Definition sessionKept (s s' : State) : Prop :=
  currentRecordingSessionRef s' = currentRecordingSessionRef s
  \/ currentRecordingSessionRef s' = S (currentRecordingSessionRef s).

(** The buffer stays or is emptied, and no request is made. *)
Definition bufferKept (s s' : State) : Prop :=
  (chunksRef s' = chunksRef s \/ chunksRef s' = [])
  /\ fetchLog s' = fetchLog s.


(** A sample with every bin at 200, and a sample with every bin at 0. *)
Definition loud : list N := repeat 200%N 1024.
Definition quiet : list N := repeat 0%N 1024.

Definition reply_text_only : ApiData :=
  mkApiData (Some (js "Q2")) (Some (js "I am Taro")) None None.


Definition reply_with_audio : ApiData :=
  mkApiData (Some (js "Q2")) (Some (js "I am Taro")) (Some (js "AAAA"))
            (Some (js "audio/mp3")).

(** The button on the idle component, the usage check and the microphone
    granted. *)
Definition start_ok (now : N) : Event := Toggle Allowed true now.

(** Two chunks of the first session around a speaking sample, then a silent
    sample and the timeout of the countdown it starts. *)
Definition utterance (chunk : N) : list Event :=
  [DataAvailable 1 chunk; Tick loud; DataAvailable 1 chunk; Tick quiet;
   SilenceTimeout].

Definition first_utterance : list Event := start_ok 1000 :: utterance 4000.

(** The first round trip: the utterance, the response, and the resolution of
    [saveTranscript]. *)
Definition round_trip (data : ApiData) : list Event :=
  first_utterance
    ++ [Settle 0 (Fetched (Json data)) 5000; Settle 0 Resolved 5001].


(** The states a run goes through, the first one included. *)
Fixpoint trace (closure : State -> Render) (s : State) (events : list Event)
    : list State :=
  s :: match events with
       | [] => []
       | e :: rest => trace closure (step closure s e) rest
       end.

(** The component after the start, a chunk and a speaking sample. *)
Definition speaking_state : State :=
  run mount_closure init [start_ok 1000; DataAvailable 1 4000; Tick loud].

(** The component with 600 bytes buffered and a countdown pending. *)
Definition short_pending_state : State :=
  run mount_closure init
      [start_ok 1000; DataAvailable 1 300; Tick loud; DataAvailable 1 300;
       Tick quiet].

(** The component while the first request is in flight. *)
Definition processing_state : State := run mount_closure init first_utterance.

Ltac concrete :=
  repeat split; vm_compute; try reflexivity; try discriminate.

(** The five kinds of [updateCandidateInfo], in the order it extracts them. *)
Inductive Kind : Type := KName | KUniversity | KExperience | KCompany | KSkills.

Definition kindPatterns (k : Kind) : list pattern :=
  match k with
  | KName => namePatterns
  | KUniversity => universityPatterns
  | KExperience => experiencePatterns
  | KCompany => companyPatterns
  | KSkills => skillsPatterns
  end.

(** The length the trimmed capture has to exceed. *)
Definition kindMin (k : Kind) : nat :=
  match k with
  | KName => 0
  | KUniversity => 2
  | KExperience => 5
  | KCompany => 2
  | KSkills => 3
  end.

(** The value of a kind in the sheet; a string field counts as the one-element
    list the skills field would hold. *)
Definition fact (k : Kind) (c : CandidateInfo) : option (list jsstring) :=
  match k with
  | KName => option_map (fun v => [v]) (ci_name c)
  | KUniversity => option_map (fun v => [v]) (ci_university c)
  | KExperience => option_map (fun v => [v]) (ci_experience c)
  | KCompany => option_map (fun v => [v]) (ci_company c)
  | KSkills => ci_skills c
  end.

(** The test the source makes before it tries the patterns of a kind. *)
Definition populated (k : Kind) (c : CandidateInfo) : bool :=
  match k with
  | KName => truthy (ci_name c)
  | KUniversity => truthy (ci_university c)
  | KExperience => truthy (ci_experience c)
  | KCompany => truthy (ci_company c)
  | KSkills => negb (skills_missing (ci_skills c))
  end.

(** Pattern [p] matches [t] with a capture whose trimmed text [v] is longer
    than [min]. *)
Definition accepts (min : nat) (t : jsstring) (p : pattern) (v : jsstring)
    : Prop :=
  exists c, regex_match p t = Some c /\ v = trim c /\ min < List.length v.

(** Pattern [p] does not match [t], or with a capture too short. *)
Definition rejects (min : nat) (t : jsstring) (p : pattern) : Prop :=
  match regex_match p t with
  | Some c => List.length (trim c) <= min
  | None => True
  end.

(** [v] is what the first accepting pattern of the list captures. *)
Definition firstAccepted (min : nat) (patterns : list pattern) (t v : jsstring)
    : Prop :=
  exists before p after,
    patterns = before ++ p :: after
    /\ Forall (rejects min t) before
    /\ accepts min t p v.

(** The sheet after a list of responses, oldest first. *)
Definition feed (c : CandidateInfo) (turns : list (jsstring * jsstring))
    : CandidateInfo :=
  fold_left (fun c turn => updateCandidateInfo (fst turn) (snd turn) c) turns c.

(** A transcript whose first name pattern matches with a blank capture, and
    one whose first experience pattern matches with a capture of five code
    units. *)
Definition blank_then_name : jsstring := js "私は です。名前は太郎です".
Definition short_then_long : jsstring := js "営業経験あり。3年間の職歴があります".

(** What the composer reads of a turn: not its timestamp. *)
Definition spoken (msg : Turn) : Role * jsstring := (role msg, content msg).

(** The sheets the composer cannot tell apart: [interests] is not rendered. *)
Definition sameFacts (c1 c2 : CandidateInfo) : Prop :=
  ci_name c1 = ci_name c2 /\ ci_university c1 = ci_university c2
  /\ ci_company c1 = ci_company c2 /\ ci_experience c1 = ci_experience c2
  /\ ci_skills c1 = ci_skills c2.

(** The label a turn is rendered under, and the numbered header a user turn
    gets. *)
Definition speakerLabel (r : Role) : jsstring :=
  match r with
  | user => js "候補者: "
  | assistant => js "面接官: "
  end.

Definition turnHeader (r : Role) (index : nat) : jsstring :=
  match r with
  | user => js "【やり取り" ++ of_number (messageNumber index) ++ js "】" ++ nl
  | assistant => []
  end.

(** The sheets the component can hold: the empty one and its updates. *)
Inductive extracted : CandidateInfo -> Prop :=
| extracted_empty : extracted emptyCandidateInfo
| extracted_update (a t : jsstring) (c : CandidateInfo) :
    extracted c -> extracted (updateCandidateInfo a t c).

(** The facts [candidateInfoText] renders, each with its label. *)
Definition optFact (label : jsstring) (o : option jsstring)
    : list (jsstring * jsstring) :=
  match o with
  | Some (ch :: v) => [(label, ch :: v)]
  | _ => []
  end.

Definition shownFacts (c : CandidateInfo) : list (jsstring * jsstring) :=
  match ci_name c with
  | Some (ch :: v) =>
    (js "- 名前: ", ch :: v)
      :: optFact (js "- 大学: ") (ci_university c)
      ++ optFact (js "- 会社: ") (ci_company c)
      ++ optFact (js "- 経験: ") (ci_experience c)
      ++ match ci_skills c with
         | Some l => [(js "- スキル: ", join (js ", ") l)]
         | None => []
         end
  | _ => []
  end.

Definition renderFact (f : jsstring * jsstring) : jsstring :=
  nl ++ fst f ++ snd f.

(** A rendered fact is the value the sheet holds for the kind of its label. *)
Definition knownFact (c : CandidateInfo) (f : jsstring * jsstring) : Prop :=
  (fst f = js "- 名前: " /\ ci_name c = Some (snd f))
  \/ (fst f = js "- 大学: " /\ ci_university c = Some (snd f))
  \/ (fst f = js "- 会社: " /\ ci_company c = Some (snd f))
  \/ (fst f = js "- 経験: " /\ ci_experience c = Some (snd f))
  \/ (fst f = js "- スキル: "
      /\ exists v, ci_skills c = Some [v] /\ snd f = v).

(** The sheet after the transcript of a candidate who gives a name. *)
Definition taro_sheet : CandidateInfo :=
  updateCandidateInfo (js "Q2") (js "私は太郎です") emptyCandidateInfo.

(** ** The persistence action

    [saveTranscript] of the interview actions, with the answers of [auth()]
    and of the insert into [session_history] as arguments.  The result is the
    list of rows it asked the database to insert and how the promise
    settles. *)

Record HistoryRow : Type := mkHistoryRow {
  row_transcript : jsstring;
  row_user_id : jsstring;
  row_interview_id : option jsstring;
  row_created_at : N
}.

(** The answer of [auth()]: the promise is rejected, or gives a [userId]
    ([None] for [null]). *)
Inductive AuthAnswer : Type :=
| AuthRejected (e : Thrown)
| AuthUser (userId : option jsstring).

(** The answer [{ data, error }] of the insert: an error with its message, or
    the ids of the rows returned by [select()]. *)
Inductive InsertAnswer : Type :=
| InsertError (message : jsstring)
| InsertData (ids : list N).

Inductive SaveResult : Type :=
| SaveOk (sessionId : N)
| SaveThrown (e : Thrown).

(** The [TypeError] of [data[0].id] on an empty array, as Node words it. *)
Definition noRowMessage : jsstring :=
  js "Cannot read properties of undefined (reading 'id')".

Definition saveTranscript (auth : AuthAnswer)
    (insert : HistoryRow -> InsertAnswer) (now : N) (transcript : jsstring)
    (interviewId : option jsstring) : list HistoryRow * SaveResult :=
  match auth with
  | AuthRejected e => ([], SaveThrown e)
  | AuthUser userId =>
    if negb (truthy userId)
    then ([], SaveThrown (ErrorObject (js "User not authenticated")))
    else if negb (nonEmpty transcript)
    then ([], SaveThrown (ErrorObject (js "Transcript is required")))
    else
      let row :=
        mkHistoryRow transcript (option_default userId) interviewId now in
      match insert row with
      | InsertError message =>
        ([row],
         SaveThrown
           (ErrorObject (js "Failed to save transcript: " ++ message)))
      | InsertData [] => ([row], SaveThrown (ErrorObject noRowMessage))
      | InsertData (id :: _) => ([row], SaveOk id)
      end
  end.

(** How the component sees the promise of [saveTranscript]. *)
Definition saveSettlement (result : SaveResult) : Settlement :=
  match result with
  | SaveOk _ => Resolved
  | SaveThrown e => Rejected e
  end.

(** ** The route [POST /api/interview-conversation] *)

Definition dquote : jsstring := [34%N].
Definition lbrace : N := 123.
Definition rbrace : N := 125.

(** [Buffer.prototype.toString('base64')]: the standard alphabet, padded. *)
Definition base64Char (n : N) : N :=
  if (n <? 26)%N then (65 + n)%N
  else if (n <? 52)%N then (97 + (n - 26))%N
  else if (n <? 62)%N then (48 + (n - 52))%N
  else if (n =? 62)%N then 43%N
  else 47%N.

Fixpoint base64 (bytes : list N) : jsstring :=
  match bytes with
  | [] => []
  | [a] =>
    [base64Char (N.shiftr a 2); base64Char (N.shiftl (N.land a 3) 4);
     61%N; 61%N]
  | [a; b] =>
    [base64Char (N.shiftr a 2);
     base64Char (N.lor (N.shiftl (N.land a 3) 4) (N.shiftr b 4));
     base64Char (N.shiftl (N.land b 15) 2); 61%N]
  | a :: b :: c :: rest =>
    base64Char (N.shiftr a 2)
    :: base64Char (N.lor (N.shiftl (N.land a 3) 4) (N.shiftr b 4))
    :: base64Char (N.lor (N.shiftl (N.land b 15) 2) (N.shiftr c 6))
    :: base64Char (N.land c 63)
    :: base64 rest
  end.

(** The regular expression [/\{[\s\S]*\}/]: a left brace, the longest run of
    any code units, a right brace, at the leftmost start index.
    [greedy_any k s] is [[\s\S]*] followed by [k]: the longest run first. *)
Fixpoint greedy_any {A : Type} (k : jsstring -> option A) (s : jsstring)
    : option A :=
  match s with
  | [] => k []
  | c :: s' =>
    match greedy_any k s' with
    | Some r => Some r
    | None => k s
    end
  end.

(** The right brace at the head of the input; the result is the rest. *)
Definition closing_brace (s : jsstring) : option jsstring :=
  match s with
  | c :: rest => if (c =? rbrace)%N then Some rest else None
  | [] => None
  end.

(** The match that starts at the head of [s]: the text matched. *)
Definition match_here (s : jsstring) : option jsstring :=
  match s with
  | c :: s' =>
    if (c =? lbrace)%N then
      match greedy_any closing_brace s' with
      | Some rest => Some (firstn (List.length s - List.length rest) s)
      | None => None
      end
    else None
  | [] => None
  end.

(** [responseText.match(/\{[\s\S]*\}/)], reduced to [jsonMatch[0]]. *)
Fixpoint jsonMatch (s : jsstring) : option jsstring :=
  match match_here s with
  | Some m => Some m
  | None =>
    match s with
    | [] => None
    | _ :: s' => jsonMatch s'
    end
  end.

(** A property of the parsed object, as far as the route looks at it: absent,
    [null], a string, or any other value with its truthiness. *)
Inductive Value : Type :=
| VUndefined
| VNull
| VString (s : jsstring)
| VOther (isTruthy : bool).

Definition truthyValue (v : Value) : bool :=
  match v with
  | VString (_ :: _) => true
  | VOther b => b
  | _ => false
  end.

(** The entry [audio] of the form is a file or absent. *)
Record File : Type := mkFile {
  file_type : jsstring;
  file_bytes : list N
}.

Record FormData : Type := mkFormData {
  fd_audio : option File;
  fd_context : option jsstring;
  fd_systemPrompt : option jsstring;
  fd_interviewId : option jsstring
}.

(** The two parts handed to [model.generateContent]. *)
Record GeminiRequest : Type := mkGeminiRequest {
  g_mimeType : jsstring;
  g_data : jsstring;
  g_prompt : jsstring
}.

Inductive GeminiAnswer : Type :=
| GeminiThrown (e : Thrown)
| GeminiText (responseText : jsstring).

Inductive Body : Type :=
| ErrorBody (error : jsstring)
| DataBody (text transcript : Value) (audio mimeType : option jsstring).

Record Response : Type := mkResponse {
  res_status : N;
  res_body : Body
}.

(** The response and the calls made on the way to it. *)
Record Outcome : Type := mkOutcome {
  out_response : Response;
  out_geminiCalls : list GeminiRequest;
  out_ttsCalls : list Value
}.

Definition instructions : jsstring :=
  js "

**重要な指示:**
- 会話履歴を必ず詳しく読み、候補者が実際に話した具体的な内容を参照してください
- 候補者の名前、大学、経験、スキルなどの情報を正確に記憶し、質問に答える際に使用してください
- 会話の一貫性を保ち、前の質問や回答に関連した質問をしてください
- 候補者の名前が分かっている場合は、適切に名前を呼んでください
- 具体的な数字、会社名、技術名など、候補者が言及した詳細を覚えておいてください

**会話履歴の活用方法:**
- 候補者が言及した具体的な情報（名前、大学、会社、年数、技術など）を必ず記憶する
- 質問に答える際は、履歴から該当する情報を探して正確に回答する
- 新しい質問をする際は、履歴の内容を踏まえて関連性のある質問をする
- 会話履歴を分析し、候補者が繰り返し強調した価値観や特徴について深掘りする質問をしてください。
- 候補者が既に話した内容を繰り返し聞かない

**具体的な回答方法:**
- 候補者が「私の名前を覚えていますか？」と聞いた場合：履歴から実際の名前を探し、「はい、○○さんですね」と正確に回答する
- 候補者が「私の大学は？」と聞いた場合：履歴から実際の大学名を探し、「○○大学ですね」と正確に回答する
- 候補者が「私の会社は？」と聞いた場合：履歴から実際の会社名を探し、「○○会社ですね」と正確に回答する
- 情報が見つからない場合：「申し訳ございませんが、まだその情報をお聞きしていません」と正直に答える

**現在の音声入力に対する応答:**
候補者の音声入力を聞いて、会話履歴を参照しながら適切な面接官としての応答をしてください。

**応答形式:**
以下のJSON形式で応答してください：
{
  "
  ++ dquote ++ js "text"
  ++ dquote ++ js ": "
  ++ dquote ++ js "面接官の応答テキスト（日本語）"
  ++ dquote ++ js ",
  "
  ++ dquote ++ js "transcript"
  ++ dquote ++ js ": "
  ++ dquote ++ js "候補者の音声の文字起こし（日本語）"
  ++ dquote ++ js "
}

**注意事項:**
- 候補者が「私の名前を覚えていますか？」と聞いた場合、履歴から実際の名前を探して正確に回答する
- 候補者が「私の大学は？」と聞いた場合、履歴から実際の大学名を探して正確に回答する
- 具体的な情報がない場合は、「申し訳ございませんが、まだその情報をお聞きしていません」と正直に答える
- 応答は簡潔で、1-2文程度にまとめてください".

Definition enhancedPrompt (systemPrompt : jsstring) : jsstring :=
  systemPrompt ++ instructions.

(** The outer [catch] of the route. *)
Definition failure (e : Thrown) : Response :=
  mkResponse 500
    (ErrorBody
       match e with
       | ErrorObject message => js "Failed to process conversation: " ++ message
       | OtherValue => js "Failed to process conversation"
       end).

Section Route.

(** The services the route calls: Gemini, [JSON.parse] on the text matched
    (the properties [text] and [transcript] of the object, [None] when it
    throws) and the speech synthesis ([None] when it throws or returns no
    audio content). *)
Variable generateContent : GeminiRequest -> GeminiAnswer.
Variable JSON_parse : jsstring -> option (Value * Value).
Variable synthesizeSpeech : Value -> option (list N).

(** [aiText] and [transcript] after the [try] around [JSON.parse]. *)
Definition readReply (responseText : jsstring) : Value * Value :=
  match jsonMatch responseText with
  | Some matched =>
    match JSON_parse matched with
    | Some (text, transcript) =>
      (if truthyValue text then text else VString responseText, transcript)
    | None => (VString responseText, VUndefined)
    end
  | None => (VString responseText, VUndefined)
  end.

(** [POST], with the settlement of [request.formData()]. *)
Definition POST (form : Thrown + FormData) : Outcome :=
  match form with
  | inl e => mkOutcome (failure e) [] []
  | inr formData =>
    match fd_audio formData with
    | None =>
      mkOutcome (mkResponse 400 (ErrorBody (js "Audio file is required")))
                [] []
    | Some audioFile =>
      let systemPrompt := option_default (fd_systemPrompt formData) in
      let request :=
        mkGeminiRequest (file_type audioFile)
                        (base64 (file_bytes audioFile))
                        (enhancedPrompt systemPrompt) in
      match generateContent request with
      | GeminiThrown e => mkOutcome (failure e) [request] []
      | GeminiText responseText =>
        let '(aiText, transcript) := readReply responseText in
        match synthesizeSpeech aiText with
        | Some audioContent =>
          mkOutcome
            (mkResponse 200
               (DataBody aiText transcript (Some (base64 audioContent))
                         (Some (js "audio/mp3"))))
            [request] [aiText]
        | None =>
          mkOutcome (mkResponse 200 (DataBody aiText transcript None None))
                    [request] [aiText]
        end
      end
    end
  end.

End Route.

(** What [response.json()] gives the component for a body of the route: the
    fields as the strings the component takes them for.  A [text] or
    [transcript] that is neither a string nor absent is outside the
    component's types. *)
Definition asField (v : Value) : option (option jsstring) :=
  match v with
  | VUndefined | VNull => Some None
  | VString s => Some (Some s)
  | VOther _ => None
  end.

Definition clientData (b : Body) : option ApiData :=
  match b with
  | DataBody text transcript audio mimeType =>
    match asField text, asField transcript with
    | Some t, Some tr => Some (mkApiData t tr audio mimeType)
    | _, _ => None
    end
  | ErrorBody _ => None
  end.

(** The text matched is a pair of braces around [body], with no left brace
    before it and no right brace after it in [s]. *)
Definition outermostBraces (s m : jsstring) : Prop :=
  exists before body after,
    s = before ++ m ++ after
    /\ m = lbrace :: body ++ [rbrace]
    /\ ~ In lbrace before /\ ~ In rbrace after.

(** ** Vocabulary of the further properties *)

(** A recorder after [stop()]. *)
Definition stopped (rc : Recorder) : Recorder :=
  mkRecorder (rec_sessionId rc) false.

(** The recorder ref after [startNewRecordingSession]: a new recorder of the
    next id when the stream and the audio context exist, the old one, stopped,
    otherwise. *)
Definition recorderAfterStart (s : State) : option Recorder :=
  if streamRef s && audioContextRef s
  then Some (mkRecorder (currentRecordingSessionRef s + 1) true)
  else option_map stopped (mediaRecorderRef s).

(** The start is refused: the usage check fails or denies, or the microphone
    is not granted. *)
Definition refused (usageCheck : UsageCheck) (micGranted : bool) : bool :=
  match usageCheck with
  | Allowed => negb micGranted
  | _ => true
  end.

(** The events of the timers and of the playback. *)
Definition isTimerOrPlayback (e : Event) : bool :=
  match e with
  | Tick _ | SilenceTimeout | PlaybackEnded | PlaybackError => true
  | _ => false
  end.

(** A step keeps the session identifier, or leaves an empty buffer, no
    countdown and cleared speech flags. *)
Definition sessionOrReset (s s' : State) : Prop :=
  currentRecordingSessionRef s' = currentRecordingSessionRef s
  \/ (chunksRef s' = [] /\ silenceTimerRef s' = None
      /\ hasSpokenInCurrentSessionRef s' = false
      /\ previousSpeakingStateRef s' = false).

(** An activation suspended on [saveTranscript] holds a response with a
    text and a transcript. *)
Definition savable (t : Task) : Prop :=
  match t with
  | AwaitSaveTranscript _ data =>
    truthy (d_text data) = true /\ truthy (d_transcript data) = true
  | _ => True
  end.

(** The fields the guards of the turn loop read. *)
Definition core (s : State)
    : list Task * bool * bool * bool * bool * option Timeout * list Blob * N :=
  (tasks s, isProcessing s, isProcessingRef s, isPlayingTTS s,
   isPlayingTTSRef s, silenceTimerRef s, chunksRef s, silenceTimer s).

(** What holds of them in every state the component reaches: at most one
    suspended activation, and then the processing flag is raised; the
    displayed flags equal the refs; the timer ref never holds a handle that
    has fired; a pending countdown has a buffer to send and no turn processed
    or played; the displayed countdown is within the duration. *)
Definition wellFormedCore
    (c : list Task * bool * bool * bool * bool * option Timeout * list Blob * N)
    : Prop :=
  let '(ts, p, pr, q, qr, tm, ch, st) := c in
  (ts = [] \/ exists t, ts = [t] /\ pr = true)
  /\ p = pr /\ q = qr
  /\ tm <> Some Fired
  /\ (tm = Some Pending -> ch <> [] /\ pr = false /\ qr = false)
  /\ (st <= SILENCE_DURATION)%N
  /\ Forall savable ts.

Definition wellFormed (s : State) : Prop := wellFormedCore (core s).

(** [Math.ceil((SILENCE_DURATION - silenceTimer) / 1000)], the seconds shown
    under "送信まで". *)
Definition remainingSeconds (silenceTimer : N) : Z :=
  (- ((Z.of_N silenceTimer - Z.of_N SILENCE_DURATION) / 1000))%Z.

(** The seven parts of [wellFormedCore], each from the hypotheses at hand. *)
Ltac wf_core :=
  cbn;
  split;
  [ auto; try (right; eexists; split; reflexivity)
  | split;
    [ auto; try congruence
    | split;
      [ auto; try congruence
      | split;
        [ try assumption; try discriminate; try congruence
        | split;
          [ try assumption;
            try (let H := fresh in intros H; discriminate H);
            try (intros _; repeat split;
                 congruence || discriminate || assumption)
          | split;
            [ try assumption; try apply N.le_min_r;
              try (unfold SILENCE_DURATION, N.min; cbn; lia)
            | try assumption; try (repeat constructor; cbn; auto; fail) ] ] ] ] ] ].

(** An activation created by the first render. *)
Definition fromMount (t : Task) : Prop :=
  match t with
  | AwaitFetch r _ | AwaitSaveTranscript r _ => r = mount_render
  | AwaitPlay => True
  end.

(** A request built by the first render: its prompt and its context are
    those of the empty history, the introduction phase and the empty sheet. *)
Definition mountRequest (req : Request) : Prop :=
  req = buildRequest mount_render (req_audio req).

(** The fields the renders and the requests are made of. *)
Definition story (s : State)
    : list Turn * Phase * list Task * list Request :=
  (conversationHistory s, interviewPhase s, tasks s, fetchLog s).

Definition staleStory (c : list Turn * Phase * list Task * list Request)
    : Prop :=
  let '(h, p, ts, log) := c in
  p = introduction /\ List.length h <= 2 /\ userMessageCount h <= 1
  /\ Forall fromMount ts /\ Forall mountRequest log.

Definition stale (s : State) : Prop := staleStory (story s).

(** What an active component holds and what an idle one has released: the
    interval runs exactly while the interview is active; an active interview
    has its stream, audio context and analyser, a recorder recording for the
    current session (numbered from 1) and a start time; an idle one has no
    suspended activation, countdown, audio element or raised flag, the
    session identifier 0, no start time and no recorder recording. *)
Definition rigged (s : State) : Prop :=
  analysisIntervalRef s = isActive s
  /\ (isActive s = true ->
      streamRef s = true /\ audioContextRef s = true /\ analyserRef s = true
      /\ mediaRecorderRef s
         = Some (mkRecorder (currentRecordingSessionRef s) true)
      /\ 1 <= currentRecordingSessionRef s
      /\ sessionStartTime s <> None)
  /\ (isActive s = false ->
      tasks s = [] /\ silenceTimerRef s = None /\ currentAudioRef s = None
      /\ isProcessingRef s = false /\ isPlayingTTSRef s = false
      /\ currentRecordingSessionRef s = 0 /\ sessionStartTime s = None
      /\ option_map rec_recording (mediaRecorderRef s) <> Some true).

(** An utterance heard by a recording component: a speaking sample, a chunk
    of the session [sessionId], a silent sample and the timeout of the
    countdown. *)
Definition heard (speaking silent : list N) (sessionId : nat) (chunk : N)
    : list Event :=
  [Tick speaking; DataAvailable sessionId chunk; Tick silent; SilenceTimeout].

(** [x] is a piece of [w]: a run of consecutive code units of it. *)
Definition infix (x w : jsstring) : Prop :=
  exists before after, w = before ++ x ++ after.

(** [s] is the end of [w]. *)
Definition suffix (s w : jsstring) : Prop := exists before, w = before ++ s.

(** The place of a phase in the order the interview goes through them. *)
Definition phaseRank (p : Phase) : nat :=
  match p with
  | introduction => 0
  | experience => 1
  | skills => 2
  | motivation => 3
  | closing => 4
  end.

(** The scenarios of the further properties. *)

(** The component with a chunk buffered, after the button. *)
Definition buffered_state : State :=
  run mount_closure init [start_ok 1000; DataAvailable 1 4000].

(** A round trip without audio, then an utterance of the second session. *)
Definition second_utterance : list Event :=
  round_trip reply_text_only ++ heard loud quiet 2 4000.

(** The component while it waits for [saveTranscript]. *)
Definition saving : list Event :=
  first_utterance ++ [Settle 0 (Fetched (Json reply_text_only)) 5000].

(** A run of the route: Gemini replies with a JSON object in a sentence, the
    parser reads its two properties, the synthesis returns three bytes. *)
Definition gemini_reply : jsstring :=
  js "Sure: {" ++ dquote ++ js "text" ++ dquote ++ js ": " ++ dquote
     ++ js "Q2" ++ dquote ++ js "} done".

Definition gemini_stub (request : GeminiRequest) : GeminiAnswer :=
  GeminiText gemini_reply.

Definition parse_stub (matched : jsstring) : option (Value * Value) :=
  Some (VString (js "Q2"), VString (js "I am Taro")).

Definition speech_stub (aiText : Value) : option (list N) := Some [1; 2; 3]%N.

Definition audio_form : Thrown + FormData :=
  inr (mkFormData (Some (mkFile (js "audio/webm") [26; 69; 223; 163]%N))
                  (Some (js "{}")) (Some (js "prompt")) None).

Definition route_reply : ApiData :=
  mkApiData (Some (js "Q2")) (Some (js "I am Taro")) (Some (js "AQID"))
            (Some (js "audio/mp3")).

(** A database that returns the row it inserted under the id 7. *)
Definition insert_stub (row : HistoryRow) : InsertAnswer := InsertData [7%N].

(** * Properties *)

(** ** The phase classifier *)

Lemma phaseOfCount_thresholds (n : nat) :
  (n <= 2 -> phaseOfCount n = introduction)
  /\ (3 <= n <= 5 -> phaseOfCount n = experience)
  /\ (6 <= n <= 8 -> phaseOfCount n = skills)
  /\ (9 <= n <= 11 -> phaseOfCount n = motivation)
  /\ (12 <= n -> phaseOfCount n = closing).
Proof.
  unfold phaseOfCount.
  repeat split; intros H;
    repeat match goal with
           | |- context [?a <=? ?b] => destruct (Nat.leb_spec a b); try lia
           end; reflexivity.
Qed.

Lemma userMessageCount_app (h1 h2 : list Turn) :
  userMessageCount (h1 ++ h2) = userMessageCount h1 + userMessageCount h2.
Proof.
  unfold userMessageCount. rewrite filter_app, length_app. reflexivity.
Qed.

Lemma userMessageCount_exchanges (n : nat) : userMessageCount (exchanges n) = n.
Proof.
  induction n as [|n IH]; [reflexivity|].
  simpl exchanges. rewrite userMessageCount_app, IH.
  unfold userMessageCount. simpl. lia.
Qed.

(** What a completed round trip leaves in the history and the phase. *)
Lemma afterSaveTranscript_history (r : Render) (data : ApiData) (now : N)
    (s : State) :
  exists u a,
    role u = user /\ role a = assistant
    /\ content a = option_default (d_text data)
    /\ conversationHistory (afterSaveTranscript r data now s)
       = r_conversationHistory r ++ [u; a]
    /\ interviewPhase (afterSaveTranscript r data now s)
       = updateInterviewPhase (r_conversationHistory r ++ [u; a]).
Proof.
  exists (mkTurn user
            (if truthy (d_transcript data)
             then option_default (d_transcript data)
             else js "[Audio message]") now),
         (mkTurn assistant (option_default (d_text data)) now).
  state_cases s.
Qed.

(** C6: the phase is a function of the number of user turns alone, with the
    thresholds 2, 5, 8 and 11; the nine sample counts give the phases listed;
    and the part of [sendCurrentAudio] that appends the pair of turns stores
    the phase of the history it has just stored. *)
Theorem C6_phase_of_user_turn_count :
  (forall h : list Turn,
      let n := userMessageCount h in
      (n <= 2 -> updateInterviewPhase h = introduction)
      /\ (3 <= n <= 5 -> updateInterviewPhase h = experience)
      /\ (6 <= n <= 8 -> updateInterviewPhase h = skills)
      /\ (9 <= n <= 11 -> updateInterviewPhase h = motivation)
      /\ (12 <= n -> updateInterviewPhase h = closing))
  /\ (forall h1 h2 : list Turn,
         userMessageCount h1 = userMessageCount h2 ->
         updateInterviewPhase h1 = updateInterviewPhase h2)
  /\ map (fun n => updateInterviewPhase (exchanges n)) [0; 2; 3; 5; 6; 8; 9; 11; 12]
     = [introduction; introduction; experience; experience; skills; skills;
        motivation; motivation; closing]
  /\ (forall (r : Render) (data : ApiData) (now : N) (s : State),
         let s' := afterSaveTranscript r data now s in
         interviewPhase s' = updateInterviewPhase (conversationHistory s')
         /\ userMessageCount (conversationHistory s')
            = S (userMessageCount (r_conversationHistory r))).
Proof.
  split; [|split; [|split]].
  - intros h n. apply phaseOfCount_thresholds.
  - intros h1 h2 H. unfold updateInterviewPhase. rewrite H. reflexivity.
  - vm_compute. reflexivity.
  - intros r data now s s'. subst s'.
    destruct (afterSaveTranscript_history r data now s)
      as (u & a & Hu & Ha & _ & Hh & Hp).
    rewrite Hh, Hp. split; [reflexivity|].
    rewrite userMessageCount_app. unfold userMessageCount at 2. simpl.
    rewrite Hu, Ha. simpl. lia.
Qed.

(** A history with four user turns is in the experience phase. *)
Lemma C6_phase_witness :
  updateInterviewPhase (exchanges 4) = experience.
Proof.
  apply (proj1 (proj2 (proj1 C6_phase_of_user_turn_count (exchanges 4)))).
  vm_compute. split; repeat constructor.
Defined.

(** ** Rejected payloads and failed turns *)


(** What the [catch] block leaves, whatever was thrown. *)
Lemma catchBlock_spec (e : Thrown) (s : State) :
  let s' := catchBlock e s in
  error s' = js "エラーが発生しました: " ++ errorMessage e
  /\ freshSession s s'
  /\ isProcessingRef s' = false /\ isProcessing s' = false
  /\ isPlayingTTSRef s' = isPlayingTTSRef s
  /\ isActive s' = isActive s
  /\ tasks s' = tasks s /\ fetchLog s' = fetchLog s
  /\ conversationHistory s' = conversationHistory s
  /\ interviewPhase s' = interviewPhase s
  /\ candidateInfo s' = candidateInfo s.
Proof.
  unfold freshSession. state_cases s; state_done.
Qed.

(** The dispatch of a payload under the floor ends in the [catch] block. *)
Lemma sendCurrentAudio_small (r : Render) (s : State) :
  chunksRef s <> [] ->
  isProcessingRef s = false ->
  (blobSize (chunksRef s) < 1000)%N ->
  sendCurrentAudio r s
  = catchBlock (ErrorObject (payloadMessage (blobSize (chunksRef s))))
               (beginProcessing s).
Proof.
  intros Hc Hp Hsz. unfold sendCurrentAudio, payloadMessage.
  rewrite Hp. destruct (chunksRef s) as [|b l] eqn:Hch; [congruence|].
  cbn [nonEmpty negb orb].
  destruct (N.eqb_spec (blobSize (b :: l)) 0); [reflexivity|].
  destruct (N.ltb_spec (blobSize (b :: l)) 1000); [reflexivity|lia].
Qed.

(** [sendCurrentAudio] on an empty buffer, or while a turn is processed,
    does nothing. *)
Lemma sendCurrentAudio_guard (r : Render) (s : State) :
  chunksRef s = [] \/ isProcessingRef s = true ->
  sendCurrentAudio r s = s.
Proof.
  intros [H|H]; unfold sendCurrentAudio; rewrite H; cbn;
    [reflexivity | rewrite orb_true_r; reflexivity].
Qed.

(** C5: a dispatched payload of fewer than 1000 bytes, empty or not, is
    rejected with an error message; no request is made or left in flight;
    the processing flag is clear again and a fresh recording session runs, so
    a component that was recording is recording again. *)
Theorem C5_payload_under_floor_rejected (r : Render) (s : State) :
  chunksRef s <> [] ->
  isProcessingRef s = false ->
  (blobSize (chunksRef s) < 1000)%N ->
  let s' := sendCurrentAudio r s in
  error s' = js "エラーが発生しました: " ++ payloadMessage (blobSize (chunksRef s))
  /\ error s' <> []
  /\ fetchLog s' = fetchLog s
  /\ inFlight s' = inFlight s
  /\ freshSession s s'
  /\ (mode s = Recording -> mode s' = Recording).
Proof.
  intros Hc Hp Hsz s'. subst s'.
  rewrite (sendCurrentAudio_small r s Hc Hp Hsz).
  destruct (catchBlock_spec (ErrorObject (payloadMessage (blobSize (chunksRef s))))
                            (beginProcessing s))
    as (He & Hfresh & Hpr & _ & Hpl & Ha & Ht & Hf & _).
  cbn in Hpl, Ha, Ht, Hf, Hfresh.
  set (s' := catchBlock _ _) in *.
  split; [exact He|].
  split; [rewrite He; discriminate|].
  split; [exact Hf|].
  split; [unfold inFlight; rewrite Ht; reflexivity|].
  split.
  - destruct Hfresh as (H1 & H2 & H3 & H4 & H5 & H6).
    unfold freshSession. cbn in H1, H6. auto 10.
  - unfold mode. rewrite Ha, Hpl, Hpr.
    destruct (isActive s), (isPlayingTTSRef s), (isProcessingRef s);
      cbn; congruence.
Qed.

(** A payload of 600 bytes at the timeout. *)
Lemma C5_payload_under_floor_witness :
  chunksRef short_pending_state <> []
  /\ isProcessingRef short_pending_state = false
  /\ (blobSize (chunksRef short_pending_state) < 1000)%N
  /\ fetchLog (sendCurrentAudio mount_render short_pending_state)
     = fetchLog short_pending_state
  /\ freshSession short_pending_state
                  (sendCurrentAudio mount_render short_pending_state).
Proof.
  assert (H1 : chunksRef short_pending_state <> [])
    by (vm_compute; discriminate).
  assert (H2 : isProcessingRef short_pending_state = false) by reflexivity.
  assert (H3 : (blobSize (chunksRef short_pending_state) < 1000)%N)
    by reflexivity.
  pose proof (C5_payload_under_floor_rejected
                mount_render short_pending_state H1 H2 H3) as H.
  cbv zeta in H. destruct H as (_ & _ & Hf & _ & Hfresh & _).
  auto.
Defined.

Lemma afterFetch_failed (r : Render) (o : FetchOutcome) (now : N) (s : State) :
  failedOutcome o = true ->
  afterFetch r o now s = catchBlock (failureThrown o) s.
Proof.
  destruct o as [e|st tx|e|data]; cbn; intros H; try reflexivity.
  unfold afterFetch. rewrite H. reflexivity.
Qed.

Lemma error_prefix_nonempty (m : jsstring) : js "エラーが発生しました: " ++ m <> [].
Proof. discriminate. Qed.



Lemma mode_Recording_inv (s : State) :
  mode s = Recording ->
  isActive s = true /\ isPlayingTTSRef s = false /\ isProcessingRef s = false.
Proof.
  unfold mode.
  destruct (isActive s), (isPlayingTTSRef s), (isProcessingRef s);
    cbn; intros H; try discriminate; auto.
Qed.



(** ** What each callback touches *)

Lemma keepsTurn_refl (s : State) : keepsTurn s s.
Proof. unfold keepsTurn. auto. Qed.

Lemma startNewRecordingSession_keepsTurn (s : State) :
  keepsTurn s (startNewRecordingSession s)
  /\ isPlayingTTSRef (startNewRecordingSession s) = isPlayingTTSRef s
  /\ isActive (startNewRecordingSession s) = isActive s
  /\ currentAudioRef (startNewRecordingSession s) = currentAudioRef s.
Proof. unfold keepsTurn. state_cases s. Qed.

Lemma ondataavailable_cases (sessionId : nat) (size : N) (s : State) :
  ((0 < size)%N /\ sessionId = currentRecordingSessionRef s
   /\ isProcessingRef s = false /\ isPlayingTTSRef s = false
   /\ ondataavailable sessionId size s = set_chunksRef (chunksRef s ++ [size]) s)
  \/ (((size = 0)%N \/ sessionId <> currentRecordingSessionRef s
       \/ isProcessingRef s = true \/ isPlayingTTSRef s = true)
      /\ ondataavailable sessionId size s = s).
Proof.
  unfold ondataavailable.
  destruct (N.ltb_spec 0 size); cbn [andb];
    [|right; split; [left; lia|reflexivity]].
  destruct (isProcessingRef s); cbn [andb negb]; [right; auto|].
  destruct (isPlayingTTSRef s); cbn [andb negb]; [right; auto 6|].
  destruct (Nat.eqb_spec sessionId (currentRecordingSessionRef s));
    [left; auto|right; auto].
Qed.

Lemma analyzeAudio_keeps (dataArray : list N) (s : State) :
  let s' := analyzeAudio dataArray s in
  keepsTurn s s'
  /\ chunksRef s' = chunksRef s
  /\ currentRecordingSessionRef s' = currentRecordingSessionRef s
  /\ isPlayingTTSRef s' = isPlayingTTSRef s.
Proof. unfold keepsTurn. state_cases s. Qed.

Lemma onPlaybackOver_spec (s : State) :
  let s' := onPlaybackOver s in
  keepsTurn s s'
  /\ freshSession s s'
  /\ isPlayingTTSRef s' = false /\ isPlayingTTS s' = false
  /\ currentAudioRef s' = None
  /\ isActive s' = isActive s.
Proof. unfold keepsTurn, freshSession. state_cases s; state_done. Qed.

Lemma toggleRecording_tasks (u : UsageCheck) (m : bool) (now : N) (s : State) :
  let s' := toggleRecording u m now s in
  tasks s' = tasks s /\ fetchLog s' = fetchLog s
  /\ (chunksRef s' = chunksRef s \/ chunksRef s' = [])
  /\ (silenceTimerRef s' = silenceTimerRef s \/ silenceTimerRef s' = None).
Proof. state_cases s. Qed.


Lemma finallyBlock_spec (s : State) :
  let s' := finallyBlock s in
  isProcessingRef s' = false /\ isProcessing s' = false
  /\ tasks s' = tasks s /\ fetchLog s' = fetchLog s
  /\ chunksRef s' = chunksRef s
  /\ silenceTimerRef s' = silenceTimerRef s
  /\ currentRecordingSessionRef s' = currentRecordingSessionRef s
  /\ isPlayingTTSRef s' = isPlayingTTSRef s
  /\ isActive s' = isActive s
  /\ conversationHistory s' = conversationHistory s
  /\ interviewPhase s' = interviewPhase s
  /\ candidateInfo s' = candidateInfo s.
Proof. unfold finallyBlock. cbn. auto 15. Qed.

(** The two ways [afterSaveTranscript] ends: with the audio element created
    and the activation suspended on [audio.play()], or with a new recording
    session and the processing flag cleared. *)
Lemma afterSaveTranscript_cases (r : Render) (data : ApiData) (now : N)
    (s : State) :
  let s' := afterSaveTranscript r data now s in
  (truthy (d_audio data) && truthy (d_mimeType data) = true
   /\ tasks s' = tasks s ++ [AwaitPlay]
   /\ isProcessingRef s' = isProcessingRef s
   /\ isProcessing s' = isProcessing s
   /\ isPlayingTTSRef s' = true /\ isPlayingTTS s' = true
   /\ currentAudioRef s'
      = Some (js "data:" ++ option_default (d_mimeType data) ++ js ";base64,"
                 ++ option_default (d_audio data))
   /\ chunksRef s' = []
   /\ silenceTimerRef s' = silenceTimerRef s
   /\ mediaRecorderRef s' = mediaRecorderRef s
   /\ currentRecordingSessionRef s' = currentRecordingSessionRef s)
  \/ (truthy (d_audio data) && truthy (d_mimeType data) = false
      /\ tasks s' = tasks s
      /\ isProcessingRef s' = false /\ isProcessing s' = false
      /\ isPlayingTTSRef s' = isPlayingTTSRef s
      /\ isPlayingTTS s' = isPlayingTTS s
      /\ currentAudioRef s' = currentAudioRef s
      /\ freshSession s s').
Proof.
  unfold freshSession.
  destruct (truthy (d_audio data) && truthy (d_mimeType data)) eqn:Hplay;
    [left|right]; split; try reflexivity;
    unfold afterSaveTranscript; rewrite Hplay;
    state_cases s; state_done.
Qed.

Lemma afterSaveTranscript_keeps (r : Render) (data : ApiData) (now : N)
    (s : State) :
  let s' := afterSaveTranscript r data now s in
  fetchLog s' = fetchLog s /\ isActive s' = isActive s
  /\ chunksRef s' = [] /\ error s' = error s.
Proof. state_cases s. Qed.

Lemma beginProcessing_spec (s : State) :
  let s' := beginProcessing s in
  chunksRef s' = []
  /\ hasSpokenInCurrentSessionRef s' = false
  /\ hasSpokenInCurrentSession s' = false
  /\ previousSpeakingStateRef s' = false
  /\ silenceTimerRef s' = None /\ silenceTimer s' = 0%N
  /\ isProcessingRef s' = true /\ isProcessing s' = true
  /\ error s' = []
  /\ tasks s' = tasks s /\ fetchLog s' = fetchLog s
  /\ conversationHistory s' = conversationHistory s
  /\ interviewPhase s' = interviewPhase s
  /\ candidateInfo s' = candidateInfo s
  /\ currentRecordingSessionRef s' = currentRecordingSessionRef s
  /\ isPlayingTTSRef s' = isPlayingTTSRef s
  /\ isActive s' = isActive s.
Proof. cbn. auto 20. Qed.

(** The dispatch of a payload of at least 1000 bytes ends at [await fetch]. *)
Lemma sendCurrentAudio_sent (r : Render) (s : State) :
  chunksRef s <> [] ->
  isProcessingRef s = false ->
  (1000 <= blobSize (chunksRef s))%N ->
  sendCurrentAudio r s
  = set_tasks (tasks s ++ [AwaitFetch r (buildRequest r (chunksRef s))])
      (set_fetchLog (fetchLog s ++ [buildRequest r (chunksRef s)])
         (beginProcessing s)).
Proof.
  intros Hc Hp Hsz. unfold sendCurrentAudio.
  rewrite Hp. destruct (chunksRef s) as [|b l] eqn:Hch; [congruence|].
  cbn [nonEmpty negb orb].
  destruct (N.eqb_spec (blobSize (b :: l)) 0); [lia|].
  destruct (N.ltb_spec (blobSize (b :: l)) 1000); [lia|reflexivity].
Qed.

Lemma sendCurrentAudio_cases (r : Render) (s : State) :
  sendCurrentAudio r s = s
  \/ (chunksRef s <> [] /\ isProcessingRef s = false
      /\ (((blobSize (chunksRef s) < 1000)%N
           /\ sendCurrentAudio r s
              = catchBlock
                  (ErrorObject (payloadMessage (blobSize (chunksRef s))))
                  (beginProcessing s))
          \/ ((1000 <= blobSize (chunksRef s))%N
              /\ sendCurrentAudio r s
                 = set_tasks
                     (tasks s ++ [AwaitFetch r (buildRequest r (chunksRef s))])
                     (set_fetchLog
                        (fetchLog s ++ [buildRequest r (chunksRef s)])
                        (beginProcessing s))))).
Proof.
  destruct (chunksRef s) as [|b l] eqn:Hch.
  - left. apply sendCurrentAudio_guard. auto.
  - destruct (isProcessingRef s) eqn:Hp.
    + left. apply sendCurrentAudio_guard. auto.
    + right. rewrite <- Hch.
      assert (Hne : chunksRef s <> []) by (rewrite Hch; discriminate).
      split; [exact Hne|]. split; [reflexivity|].
      destruct (N.lt_ge_cases (blobSize (chunksRef s)) 1000) as [Hlt|Hge].
      * left. split; [exact Hlt|]. apply sendCurrentAudio_small; assumption.
      * right. split; [exact Hge|]. apply sendCurrentAudio_sent; assumption.
Qed.

(** The ways [afterFetch] ends on a response with text. *)
Lemma afterFetch_text (r : Render) (data : ApiData) (now : N) (s : State) :
  truthy (d_text data) = true ->
  afterFetch r (Json data) now s
  = if truthy (d_transcript data)
    then set_tasks (tasks s ++ [AwaitSaveTranscript r data])
           (set_savedTranscripts
              (savedTranscripts s ++ [option_default (d_transcript data)])
              (setResponse (option_default (d_text data)) s))
    else afterSaveTranscript r data now
           (setResponse (option_default (d_text data)) s).
Proof. intros H. unfold afterFetch. rewrite H. reflexivity. Qed.

Lemma failedOutcome_false (o : FetchOutcome) :
  failedOutcome o = false ->
  exists data, o = Json data /\ truthy (d_text data) = true.
Proof.
  destruct o as [e|st tx|e|data]; cbn; try discriminate.
  intros H. exists data. split; [reflexivity|].
  destruct (truthy (d_text data)); [reflexivity|discriminate].
Qed.

(** ** Invariants of the event loop *)

Lemma oneTurn_keepsTurn (s s' : State) :
  keepsTurn s s' -> oneTurn s -> oneTurn s'.
Proof.
  unfold keepsTurn, oneTurn. intros (Ht & _ & Hp & Hq).
  rewrite Ht, Hp, Hq. auto.
Qed.

Lemma oneTurn_idle (s : State) : tasks s = [] -> oneTurn s.
Proof. unfold oneTurn. auto. Qed.

Lemma oneTurn_afterSaveTranscript (r : Render) (data : ApiData) (now : N)
    (s : State) :
  tasks s = [] -> isProcessingRef s = true -> isProcessing s = true ->
  oneTurn (afterSaveTranscript r data now s).
Proof.
  intros Ht Hp Hq.
  destruct (afterSaveTranscript_cases r data now s)
    as [(_ & Ht' & Hp' & Hq' & _)|(_ & Ht' & _)].
  - right. exists AwaitPlay. rewrite Ht', Hp', Hq', Ht. auto.
  - left. rewrite Ht'. exact Ht.
Qed.

Lemma oneTurn_catchBlock (e : Thrown) (s : State) :
  tasks s = [] -> oneTurn (catchBlock e s).
Proof.
  intros Ht. left.
  destruct (catchBlock_spec e s) as (_ & _ & _ & _ & _ & _ & Ht' & _).
  rewrite Ht'. exact Ht.
Qed.

Lemma oneTurn_resume (t : Task) (o : Settlement) (now : N) (s s' : State) :
  tasks s = [] -> isProcessingRef s = true -> isProcessing s = true ->
  resume t o now s = Some s' -> oneTurn s'.
Proof.
  intros Ht Hp Hq.
  destruct t as [r req|r data|], o as [fo| |e]; cbn; intros H;
    inversion H; subst; clear H.
  - destruct (failedOutcome fo) eqn:Hf.
    + rewrite (afterFetch_failed r fo now s Hf). apply oneTurn_catchBlock, Ht.
    + destruct (failedOutcome_false fo Hf) as (data & -> & Htext).
      rewrite (afterFetch_text r data now s Htext).
      destruct (truthy (d_transcript data)).
      * right. exists (AwaitSaveTranscript r data). cbn. rewrite Ht. auto.
      * apply oneTurn_afterSaveTranscript; assumption.
  - apply oneTurn_afterSaveTranscript; assumption.
  - apply oneTurn_catchBlock, Ht.
  - left. exact Ht.
  - apply oneTurn_catchBlock, Ht.
Qed.

Lemma oneTurn_step (closure : State -> Render) (s : State) (e : Event) :
  oneTurn s -> oneTurn (step closure s e).
Proof.
  intros Hinv. destruct e as [u m now|d|tag size| | |el|i o now| |]; cbn [step].
  - destruct (isProcessing s) eqn:Hq; [exact Hinv|].
    apply oneTurn_idle.
    destruct (toggleRecording_tasks u m now s) as (Ht & _). rewrite Ht.
    destruct Hinv as [H|(t & _ & _ & H)]; [exact H|congruence].
  - destruct (analysisIntervalRef s); [|exact Hinv].
    eapply oneTurn_keepsTurn; [|exact Hinv]. apply analyzeAudio_keeps.
  - destruct (ondataavailable_cases tag size s) as [(_ & _ & _ & _ & ->)|(_ & ->)];
      [|exact Hinv].
    eapply oneTurn_keepsTurn; [|exact Hinv]. unfold keepsTurn. cbn. auto.
  - eapply oneTurn_keepsTurn; [|exact Hinv]. unfold keepsTurn. cbn. auto.
  - destruct (silenceTimerRef s) as [[|]|]; try exact Hinv.
    assert (Hinv0 : oneTurn (set_silenceTimerRef (Some Fired) s))
      by (eapply oneTurn_keepsTurn; [|exact Hinv]; unfold keepsTurn; cbn; auto).
    destruct (sendCurrentAudio_cases (closure s)
                (set_silenceTimerRef (Some Fired) s))
      as [->|(_ & Hp & [(_ & ->)|(_ & ->)])]; [exact Hinv0| |];
      cbn in Hp;
      (destruct Hinv as [Ht|(t & _ & H & _)]; [|congruence]).
    + apply oneTurn_catchBlock. exact Ht.
    + right. eexists. cbn. rewrite Ht. cbn. auto.
  - eapply oneTurn_keepsTurn; [|exact Hinv]. unfold keepsTurn. cbn. auto.
  - destruct (nth_error (tasks s) i) as [t|] eqn:Hn; [|exact Hinv].
    destruct (resume t o now (set_tasks (remove_nth i (tasks s)) s))
      as [s'|] eqn:Hr; [|exact Hinv].
    destruct Hinv as [H|(t0 & Ht & Hp & Hq)].
    + rewrite H in Hn. destruct i; discriminate.
    + rewrite Ht in Hn, Hr.
      destruct i as [|i]; [|destruct i; discriminate].
      eapply oneTurn_resume; [| | |exact Hr]; cbn; auto.
  - destruct (currentAudioRef s); [|exact Hinv].
    eapply oneTurn_keepsTurn; [|exact Hinv]. apply onPlaybackOver_spec.
  - destruct (currentAudioRef s); [|exact Hinv].
    eapply oneTurn_keepsTurn; [|exact Hinv]. apply onPlaybackOver_spec.
Qed.

Lemma oneTurn_run (closure : State -> Render) (events : list Event) (s : State) :
  oneTurn s -> oneTurn (run closure s events).
Proof.
  revert s. induction events as [|e events IH]; intros s H; [exact H|].
  cbn. apply IH, oneTurn_step, H.
Qed.

Lemma oneTurn_inFlight (s : State) : oneTurn s -> inFlight s <= 1.
Proof.
  unfold inFlight. intros [->|(t & -> & _)]; cbn; [lia|].
  destruct (isAwaitFetch t); cbn; lia.
Qed.

(** ** The silence countdown *)

Lemma analyzeAudio_arms (dataArray : list N) (s : State) :
  arms s (analyzeAudio dataArray s)
  <-> analyserRef s = true /\ armingConditions dataArray s.
Proof.
  unfold arms, armingConditions, analyzeAudio.
  destruct (analyserRef s) eqn:Han, (isProcessingRef s) eqn:Hp,
    (isPlayingTTSRef s) eqn:Hq;
    cbn [negb orb];
    try (split; [intros (H1 & H2); congruence
                |intros (H1 & H2 & H3 & H4 & H5 & H6 & H7 & H8); discriminate]).
  destruct (aboveThreshold dataArray) eqn:Hsp,
    (hasSpokenInCurrentSessionRef s) eqn:Hs,
    (previousSpeakingStateRef s) eqn:Hprev,
    (chunksRef s) as [|b l] eqn:Hc,
    (silenceTimerRef s) as [t|] eqn:Ht;
    cbn; rewrite ?Hs, ?Hc, ?Ht, ?Hp, ?Hq; cbn;
    (split; [intros (H1 & H2) | intros (H1 & H2 & H3 & H4 & H5 & H6 & H7 & H8)]);
    try discriminate; try congruence;
    repeat split; try congruence; try discriminate.
Qed.

Lemma analyzeAudio_blocked (dataArray : list N) (s : State) :
  isProcessingRef s = true \/ isPlayingTTSRef s = true ->
  analyzeAudio dataArray s = s.
Proof.
  unfold analyzeAudio.
  intros [->| ->]; rewrite ?orb_true_r; reflexivity.
Qed.

Lemma timerKept_not_arms (s s' : State) : timerKept s s' -> ~ arms s s'.
Proof. unfold timerKept, arms. intros [H|H] (H1 & H2); congruence. Qed.

Lemma catchBlock_timer (e : Thrown) (s0 s : State) :
  timerKept s0 (catchBlock e s).
Proof.
  right. destruct (catchBlock_spec e s) as (_ & Hf & _). apply Hf.
Qed.

Lemma afterSaveTranscript_timer (r : Render) (data : ApiData) (now : N)
    (s : State) :
  timerKept s (afterSaveTranscript r data now s).
Proof.
  destruct (afterSaveTranscript_cases r data now s) as [H|H].
  - left. apply H.
  - right. destruct H as (_ & _ & _ & _ & _ & _ & _ & Hf). apply Hf.
Qed.

Lemma resume_timer (t : Task) (o : Settlement) (now : N) (s s' : State) :
  resume t o now s = Some s' -> timerKept s s'.
Proof.
  destruct t as [r req|r data|], o as [fo| |e]; cbn; intros H;
    inversion H; subst; clear H;
    try apply catchBlock_timer; try apply afterSaveTranscript_timer;
    try (left; reflexivity).
  destruct (failedOutcome fo) eqn:Hf.
  - rewrite (afterFetch_failed r fo now s Hf). apply catchBlock_timer.
  - destruct (failedOutcome_false fo Hf) as (data & -> & Htext).
    rewrite (afterFetch_text r data now s Htext).
    destruct (truthy (d_transcript data)); [left; reflexivity|].
    destruct (afterSaveTranscript_timer r data now
                (setResponse (option_default (d_text data)) s)) as [H|H];
      [left|right]; exact H.
Qed.

(** Only a sample of the analyser can start a countdown. *)
Lemma step_arms (closure : State -> Render) (s : State) (e : Event) :
  arms s (step closure s e) ->
  exists dataArray,
    e = Tick dataArray /\ analysisIntervalRef s = true /\ analyserRef s = true
    /\ armingConditions dataArray s.
Proof.
  destruct e as [u m now|d|tag size| | |el|i o now| |]; cbn [step]; intros H.
  - exfalso. revert H. apply timerKept_not_arms.
    destruct (isProcessing s); [left; reflexivity|].
    apply toggleRecording_tasks.
  - exists d. destruct (analysisIntervalRef s).
    + apply analyzeAudio_arms in H. destruct H as (H1 & H2). auto.
    + exfalso. destruct H as (H1 & H2). exact (H2 H1).
  - exfalso. revert H. apply timerKept_not_arms.
    destruct (ondataavailable_cases tag size s) as [(_ & _ & _ & _ & ->)|(_ & ->)];
      left; reflexivity.
  - exfalso. revert H. apply timerKept_not_arms. left. reflexivity.
  - exfalso. destruct H as (H1 & H2).
    destruct (silenceTimerRef s) as [[|]|] eqn:E; try congruence.
  - exfalso. revert H. apply timerKept_not_arms. left. reflexivity.
  - exfalso. revert H. apply timerKept_not_arms.
    destruct (nth_error (tasks s) i) as [t|]; [|left; reflexivity].
    destruct (resume t o now (set_tasks (remove_nth i (tasks s)) s))
      as [s'|] eqn:Hr; [|left; reflexivity].
    apply resume_timer in Hr. exact Hr.
  - exfalso. revert H. apply timerKept_not_arms.
    destruct (currentAudioRef s); [|left; reflexivity].
    right. apply onPlaybackOver_spec.
  - exfalso. revert H. apply timerKept_not_arms.
    destruct (currentAudioRef s); [|left; reflexivity].
    right. apply onPlaybackOver_spec.
Qed.

Lemma oneTurn_init : oneTurn init.
Proof. left. reflexivity. Qed.

(** C2: a step of the event loop starts a silence countdown only if it is a
    sample of the analyser taken when speech has occurred in the session, the
    previous sample was speaking, this one is silent, the buffer is not empty,
    no countdown is pending and no turn is processed or played, and under
    these conditions it does start one; a silent sample after a silent sample
    starts none; while a turn is processed or played a sample and a chunk
    change nothing and no countdown starts; and on every run of the
    component at most one request is in flight. *)
Theorem C2_silence_countdown_guards :
  (forall (closure : State -> Render) (s : State) (e : Event),
      arms s (step closure s e) ->
      exists dataArray, e = Tick dataArray /\ armingConditions dataArray s)
  /\ (forall (closure : State -> Render) (s : State) (dataArray : list N),
         analysisIntervalRef s = true -> analyserRef s = true ->
         armingConditions dataArray s ->
         arms s (step closure s (Tick dataArray)))
  /\ (forall (closure : State -> Render) (s : State) (dataArray : list N),
         previousSpeakingStateRef s = false ->
         aboveThreshold dataArray = false ->
         ~ arms s (step closure s (Tick dataArray)))
  /\ (forall (closure : State -> Render) (s : State) (e : Event),
         isProcessingRef s = true \/ isPlayingTTSRef s = true ->
         ~ arms s (step closure s e)
         /\ (forall dataArray, step closure s (Tick dataArray) = s)
         /\ (forall sessionId size,
                step closure s (DataAvailable sessionId size) = s))
  /\ (forall (closure : State -> Render) (events : list Event),
         inFlight (run closure init events) <= 1).
Proof.
  split; [|split; [|split; [|split]]].
  - intros closure s e H.
    destruct (step_arms closure s e H) as (d & He & _ & _ & Hc).
    exists d. auto.
  - intros closure s d Hi Ha Hc. cbn [step]. rewrite Hi.
    apply analyzeAudio_arms. auto.
  - intros closure s d Hprev Hsil H.
    destruct (step_arms closure s _ H) as (d' & He & _ & _ & Hc).
    destruct Hc as (_ & Hp & _). congruence.
  - intros closure s e Hbusy. split; [|split].
    + intros H. destruct (step_arms closure s e H) as (d & _ & _ & _ & Hc).
      destruct Hc as (_ & _ & _ & _ & _ & Hp & Hq).
      destruct Hbusy; congruence.
    + intros d. cbn [step]. destruct (analysisIntervalRef s); [|reflexivity].
      apply analyzeAudio_blocked, Hbusy.
    + intros tag size. cbn [step].
      destruct (ondataavailable_cases tag size s)
        as [(_ & _ & Hp & Hq & _)|(_ & H)]; [|exact H].
      destruct Hbusy; congruence.
  - intros closure events.
    apply oneTurn_inFlight, oneTurn_run, oneTurn_init.
Qed.

(** The silent sample after the speaking one starts the countdown; a second
    silent sample starts none; nothing moves while the request is in flight. *)
Lemma C2_silence_countdown_witness :
  (armingConditions quiet speaking_state
   /\ arms speaking_state (step mount_closure speaking_state (Tick quiet)))
  /\ (previousSpeakingStateRef (step mount_closure init (start_ok 1000)) = false
      /\ aboveThreshold quiet = false
      /\ ~ arms (step mount_closure init (start_ok 1000))
                (step mount_closure (step mount_closure init (start_ok 1000))
                      (Tick quiet)))
  /\ (isProcessingRef processing_state = true
      /\ step mount_closure processing_state (DataAvailable 1 4000)
         = processing_state)
  /\ (exists dataArray,
         Tick quiet = Tick dataArray
         /\ armingConditions dataArray speaking_state).
Proof.
  assert (Hc : armingConditions quiet speaking_state)
    by (unfold armingConditions; concrete).
  assert (Ha : arms speaking_state
                    (step mount_closure speaking_state (Tick quiet))).
  { apply (proj1 (proj2 C2_silence_countdown_guards)
                 mount_closure speaking_state quiet);
      [reflexivity|reflexivity|exact Hc]. }
  split; [split; [exact Hc|exact Ha]|].
  split.
  - split; [reflexivity|]. split; [reflexivity|].
    apply (proj1 (proj2 (proj2 C2_silence_countdown_guards))
                 mount_closure (step mount_closure init (start_ok 1000)) quiet);
      reflexivity.
  - split.
    + split; [reflexivity|].
      apply (proj2 (proj2 (proj1 (proj2 (proj2 (proj2
               C2_silence_countdown_guards)))
               mount_closure processing_state (Tick quiet)
               (or_introl eq_refl)))).
    + exact (proj1 C2_silence_countdown_guards
                   mount_closure speaking_state (Tick quiet) Ha).
Defined.

(** ** The session identifier and the buffer *)

Lemma catchBlock_kept (e : Thrown) (s : State) :
  sessionKept s (catchBlock e s) /\ bufferKept s (catchBlock e s).
Proof.
  destruct (catchBlock_spec e s)
    as (_ & (Hid & Hc & _) & _ & _ & _ & _ & _ & Hf & _).
  unfold sessionKept, bufferKept. auto.
Qed.

Lemma afterSaveTranscript_kept (r : Render) (data : ApiData) (now : N)
    (s : State) :
  sessionKept s (afterSaveTranscript r data now s)
  /\ bufferKept s (afterSaveTranscript r data now s).
Proof.
  destruct (afterSaveTranscript_keeps r data now s) as (Hf & _ & Hc & _).
  unfold sessionKept, bufferKept. split; [|auto].
  destruct (afterSaveTranscript_cases r data now s) as [H|H].
  - left. apply H.
  - right. destruct H as (_ & _ & _ & _ & _ & _ & _ & Hfresh). apply Hfresh.
Qed.

Lemma resume_kept (t : Task) (o : Settlement) (now : N) (s s' : State) :
  resume t o now s = Some s' -> sessionKept s s' /\ bufferKept s s'.
Proof.
  destruct t as [r req|r data|], o as [fo| |e]; cbn; intros H;
    inversion H; subst; clear H;
    try apply catchBlock_kept; try apply afterSaveTranscript_kept.
  - destruct (failedOutcome fo) eqn:Hf.
    + rewrite (afterFetch_failed r fo now s Hf). apply catchBlock_kept.
    + destruct (failedOutcome_false fo Hf) as (data & -> & Htext).
      rewrite (afterFetch_text r data now s Htext).
      destruct (truthy (d_transcript data)).
      * unfold sessionKept, bufferKept. cbn. auto.
      * apply (afterSaveTranscript_kept r data now
                 (setResponse (option_default (d_text data)) s)).
  - unfold sessionKept, bufferKept. cbn. auto.
Qed.


(** The buffer grows only by a chunk the data handler accepts, and the log of
    requests only by the dispatch of the whole buffer. *)
Lemma step_buffer (closure : State -> Render) (s : State) (e : Event) :
  let s' := step closure s e in
  (chunksRef s' = chunksRef s \/ chunksRef s' = []
   \/ exists sessionId size,
        e = DataAvailable sessionId size
        /\ (0 < size)%N /\ sessionId = currentRecordingSessionRef s
        /\ isProcessingRef s = false /\ isPlayingTTSRef s = false
        /\ chunksRef s' = chunksRef s ++ [size])
  /\ (fetchLog s' = fetchLog s
      \/ exists r,
           e = SilenceTimeout /\ chunksRef s <> []
           /\ (1000 <= blobSize (chunksRef s))%N
           /\ fetchLog s' = fetchLog s ++ [buildRequest r (chunksRef s)]).
Proof.
  destruct e as [u m now|d|tag size| | |el|i o now| |]; cbn [step].
  - destruct (isProcessing s); [auto|].
    destruct (toggleRecording_tasks u m now s) as (_ & Hf & [Hc|Hc] & _); auto.
  - destruct (analysisIntervalRef s); [|auto].
    destruct (analyzeAudio_keeps d s) as ((_ & Hf & _) & Hc & _). auto.
  - destruct (ondataavailable_cases tag size s)
      as [(H1 & H2 & H3 & H4 & ->)|(_ & ->)]; [|auto].
    split; [|left; reflexivity].
    right. right. exists tag, size. cbn. auto 10.
  - cbn. auto.
  - destruct (silenceTimerRef s) as [[|]|]; auto.
    destruct (sendCurrentAudio_cases (closure s)
                (set_silenceTimerRef (Some Fired) s))
      as [->|(Hne & _ & [(_ & ->)|(Hsz & ->)])]; [cbn; auto| |].
    + destruct (catchBlock_kept
                  (ErrorObject
                     (payloadMessage
                        (blobSize
                           (chunksRef (set_silenceTimerRef (Some Fired) s)))))
                  (beginProcessing (set_silenceTimerRef (Some Fired) s)))
        as (_ & Hc & Hf).
      cbn in Hc, Hf. split; [|left; exact Hf].
      right. left. destruct Hc as [Hc|Hc]; exact Hc.
    + cbn in Hne, Hsz. cbn. split; [auto|].
      right. exists (closure s). auto.
  - cbn. auto.
  - destruct (nth_error (tasks s) i) as [t|]; [|auto].
    destruct (resume t o now (set_tasks (remove_nth i (tasks s)) s))
      as [s'|] eqn:Hr; [|auto].
    apply resume_kept in Hr. destruct Hr as (_ & Hc & Hf).
    cbn in Hc, Hf. split; [|left; exact Hf].
    destruct Hc as [Hc|Hc]; auto.
  - destruct (currentAudioRef s); [|auto].
    destruct (onPlaybackOver_spec s) as ((_ & Hf & _) & (_ & Hc & _) & _).
    auto.
  - destruct (currentAudioRef s); [|auto].
    destruct (onPlaybackOver_spec s) as ((_ & Hf & _) & (_ & Hc & _) & _).
    auto.
Qed.

Lemma delivered_cons (e : Event) (events : list Event) :
  delivered (e :: events) = delivered [e] ++ delivered events.
Proof. unfold delivered. cbn. rewrite app_nil_r. reflexivity. Qed.

(** Whatever is in the buffer or in a request made during a run was in the
    buffer at its start or was delivered during it. *)
Lemma run_buffer (closure : State -> Render) (events : list Event) (s : State) :
  incl (chunksRef (run closure s events)) (chunksRef s ++ delivered events)
  /\ forall req,
       In req (fetchLog (run closure s events)) ->
       In req (fetchLog s)
       \/ incl (req_audio req) (chunksRef s ++ delivered events).
Proof.
  revert s. induction events as [|e events IH]; intros s.
  - cbn. rewrite app_nil_r. split; [apply incl_refl|auto].
  - change (run closure s (e :: events))
      with (run closure (step closure s e) events).
    rewrite (delivered_cons e events).
    destruct (IH (step closure s e)) as (IHc & IHf).
    destruct (step_buffer closure s e) as (Hc & Hf).
    assert (Hstep : incl (chunksRef (step closure s e))
                         (chunksRef s ++ delivered [e])).
    { destruct Hc as [Hc|[Hc|(tag & size & -> & _ & _ & _ & _ & Hc)]];
        rewrite Hc.
      - apply incl_appl, incl_refl.
      - apply incl_nil_l.
      - cbn. apply incl_refl. }
    assert (Hmono : incl (chunksRef (step closure s e) ++ delivered events)
                         (chunksRef s ++ delivered [e] ++ delivered events)).
    { rewrite app_assoc. apply incl_app.
      - apply incl_appl. exact Hstep.
      - apply incl_appr, incl_refl. }
    split.
    + eapply incl_tran; [exact IHc|exact Hmono].
    + intros req Hin. destruct (IHf req Hin) as [H|H].
      * destruct Hf as [Hf|(r & _ & _ & _ & Hf)]; rewrite Hf in H; [auto|].
        apply in_app_or in H. destruct H as [H|[<-|[]]]; [auto|].
        right. cbn [buildRequest req_audio]. apply incl_appl, incl_refl.
      * right. eapply incl_tran; [exact H|exact Hmono].
Qed.


(** ** The first round trip *)

(** C1 (the code diverges): the greeting is put in the history without a
    request, but [startRealTimeRecording] then resets the history, so that
    after the first round trip with a transcript and no audio the history
    holds the user turn and the reply only, two turns and not three; the
    component is recording in session 2 and was never playing.  The same
    count results if the timer called the [sendCurrentAudio] of the current
    render. *)
Theorem C1_first_round_trip_history :
  conversationHistory (handleInitialAIGreeting 1000 init)
  = [mkTurn assistant initialMessage 1000]
  /\ fetchLog (handleInitialAIGreeting 1000 init) = []
  /\ conversationHistory (step mount_closure init (start_ok 1000)) = []
  /\ mode (step mount_closure init (start_ok 1000)) = Recording
  /\ (let s := run mount_closure init (round_trip reply_text_only) in
      conversationHistory s
      = [mkTurn user (js "I am Taro") 5001; mkTurn assistant (js "Q2") 5001]
      /\ List.length (conversationHistory s) = 2
      /\ List.length (fetchLog s) = 1
      /\ mode s = Recording
      /\ currentRecordingSessionRef s = 2)
  /\ forallb (fun s => negb (isPlayingTTSRef s))
             (trace mount_closure init (round_trip reply_text_only)) = true
  /\ List.length (conversationHistory
                    (run current_render init (round_trip reply_text_only))) = 2.
Proof. vm_compute. repeat split. Qed.







(** Outside the two cases above: when [audio.play()] is rejected and no
    playback event follows, the [catch] block starts session 2 with the
    playing flag still raised, and chunks and samples are ignored. *)
Lemma play_rejected_keeps_playing_flag :
  let s := step mount_closure
                (run mount_closure init (round_trip reply_with_audio))
                (Settle 0 (Rejected (ErrorObject (js "NotAllowedError"))) 6000) in
  isPlayingTTSRef s = true
  /\ isProcessingRef s = false
  /\ currentRecordingSessionRef s = 2
  /\ step mount_closure s (DataAvailable 2 4000) = s
  /\ step mount_closure s (Tick loud) = s.
Proof. vm_compute. repeat split. Qed.

(** C10: the dispatch of a payload of at least 1000 bytes leaves, at the
    await of the request, an empty buffer, cleared speech flags and no
    countdown, with the former buffer in the one request now in flight;
    a failed outcome of the request leaves the history, the phase and the
    fact sheet as they were, the buffer empty and makes no further request;
    and a request made later on, from an empty buffer, holds only chunks
    delivered since. *)
Theorem C10_dispatch_empties_buffer :
  (forall (r : Render) (s : State),
      chunksRef s <> [] -> isProcessingRef s = false ->
      (1000 <= blobSize (chunksRef s))%N ->
      let s' := sendCurrentAudio r s in
      chunksRef s' = []
      /\ hasSpokenInCurrentSessionRef s' = false
      /\ hasSpokenInCurrentSession s' = false
      /\ previousSpeakingStateRef s' = false
      /\ silenceTimerRef s' = None /\ silenceTimer s' = 0%N
      /\ isProcessingRef s' = true
      /\ tasks s' = tasks s ++ [AwaitFetch r (buildRequest r (chunksRef s))]
      /\ fetchLog s' = fetchLog s ++ [buildRequest r (chunksRef s)]
      /\ req_audio (buildRequest r (chunksRef s)) = chunksRef s
      /\ conversationHistory s' = conversationHistory s
      /\ interviewPhase s' = interviewPhase s
      /\ candidateInfo s' = candidateInfo s)
  /\ (forall (r : Render) (o : FetchOutcome) (now : N) (s : State),
         failedOutcome o = true ->
         let s' := afterFetch r o now s in
         conversationHistory s' = conversationHistory s
         /\ interviewPhase s' = interviewPhase s
         /\ candidateInfo s' = candidateInfo s
         /\ chunksRef s' = []
         /\ fetchLog s' = fetchLog s
         /\ tasks s' = tasks s)
  /\ (forall (closure : State -> Render) (s : State) (events : list Event)
             (req : Request),
         chunksRef s = [] ->
         In req (fetchLog (run closure s events)) ->
         In req (fetchLog s) \/ incl (req_audio req) (delivered events)).
Proof.
  split; [|split].
  - intros r s Hc Hp Hsz s'. subst s'.
    rewrite (sendCurrentAudio_sent r s Hc Hp Hsz). cbn. auto 15.
  - intros r o now s Hf s'. subst s'. rewrite (afterFetch_failed r o now s Hf).
    destruct (catchBlock_spec (failureThrown o) s)
      as (_ & (_ & Hc & _) & _ & _ & _ & _ & Ht & Hl & Hh & Hph & Hci).
    auto 10.
  - intros closure s events req Hc Hin.
    destruct (run_buffer closure events s) as (_ & H).
    destruct (H req Hin) as [H1|H1]; [auto|].
    right. rewrite Hc in H1. exact H1.
Qed.

(** The first utterance, its failure, and the next request. *)
Lemma C10_dispatch_witness :
  let s := run mount_closure init
               [start_ok 1000; DataAvailable 1 4000; Tick loud; Tick quiet] in
  (chunksRef s <> [] /\ isProcessingRef s = false
   /\ (1000 <= blobSize (chunksRef s))%N
   /\ chunksRef (sendCurrentAudio mount_render s) = [])
  /\ (failedOutcome (NotOk 500 (js "busy")) = true
      /\ conversationHistory
           (afterFetch mount_render (NotOk 500 (js "busy")) 5000
                       (sendCurrentAudio mount_render s))
         = conversationHistory (sendCurrentAudio mount_render s)).
Proof.
  cbv zeta. split.
  - split; [vm_compute; discriminate|]. split; [reflexivity|].
    split; [vm_compute; discriminate|].
    refine (proj1 (proj1 C10_dispatch_empties_buffer mount_render
                         (run mount_closure init
                              [start_ok 1000; DataAvailable 1 4000; Tick loud;
                               Tick quiet]) _ _ _));
      vm_compute; try reflexivity; discriminate.
  - split; [reflexivity|].
    refine (proj1 (proj1 (proj2 C10_dispatch_empties_buffer)
                         mount_render (NotOk 500 (js "busy")) 5000%N _ _)).
    reflexivity.
Defined.

(** ** Fact extraction *)

Lemma first_capture_Some (min : nat) (patterns : list pattern)
    (t v : jsstring) :
  first_capture min patterns t = Some v <-> firstAccepted min patterns t v.
Proof.
  unfold firstAccepted. induction patterns as [|p rest IH]; cbn [first_capture].
  - split; [discriminate|]. intros (b & q & a & H & _).
    destruct b; discriminate.
  - destruct (regex_match p t) as [c|] eqn:Hm.
    + destruct (Nat.ltb_spec min (List.length (trim c))) as [Hlt|Hge].
      * split.
        -- intros H. inversion H; subst. exists [], p, rest.
           split; [reflexivity|]. split; [constructor|].
           exists c. auto.
        -- intros (b & q & a & Heq & Hrej & (c' & Hm' & -> & Hlen)).
           destruct b as [|p0 b]; cbn in Heq; inversion Heq; subst.
           ++ rewrite Hm in Hm'. inversion Hm'. reflexivity.
           ++ inversion Hrej as [|? ? Hr _]; subst.
              unfold rejects in Hr. rewrite Hm in Hr. lia.
      * rewrite IH. split.
        -- intros (b & q & a & -> & Hrej & Hacc). exists (p :: b), q, a.
           split; [reflexivity|]. split; [|exact Hacc].
           constructor; [|exact Hrej]. unfold rejects. rewrite Hm. exact Hge.
        -- intros (b & q & a & Heq & Hrej & Hacc).
           destruct b as [|p0 b]; cbn in Heq; inversion Heq; subst.
           ++ destruct Hacc as (c' & Hm' & -> & Hlen).
              rewrite Hm in Hm'. inversion Hm'; subst. lia.
           ++ exists b, q, a. inversion Hrej; subst. auto.
    + rewrite IH. split.
      * intros (b & q & a & -> & Hrej & Hacc). exists (p :: b), q, a.
        split; [reflexivity|]. split; [|exact Hacc].
        constructor; [|exact Hrej]. unfold rejects. rewrite Hm. exact I.
      * intros (b & q & a & Heq & Hrej & Hacc).
        destruct b as [|p0 b]; cbn in Heq; inversion Heq; subst.
        -- destruct Hacc as (c' & Hm' & _). congruence.
        -- exists b, q, a. inversion Hrej; subst. auto.
Qed.

Lemma first_capture_None (min : nat) (patterns : list pattern) (t : jsstring) :
  first_capture min patterns t = None <-> Forall (rejects min t) patterns.
Proof.
  induction patterns as [|p rest IH]; cbn [first_capture].
  - split; [constructor|reflexivity].
  - unfold rejects at 1.
    destruct (regex_match p t) as [c|] eqn:Hm.
    + destruct (Nat.ltb_spec min (List.length (trim c))) as [Hlt|Hge].
      * split; [discriminate|]. intros H. inversion H as [|? ? Hr _]; subst.
        unfold rejects in Hr. rewrite Hm in Hr. lia.
      * rewrite IH. split.
        -- intros H. constructor; [|exact H]. unfold rejects. rewrite Hm. exact Hge.
        -- intros H. inversion H; subst. assumption.
    + rewrite IH. split.
      * intros H. constructor; [|exact H]. unfold rejects. rewrite Hm. exact I.
      * intros H. inversion H; subst. assumption.
Qed.

Lemma first_capture_nonempty (min : nat) (patterns : list pattern)
    (t v : jsstring) :
  first_capture min patterns t = Some v -> truthy (Some v) = true.
Proof.
  intros H. apply first_capture_Some in H.
  destruct H as (_ & _ & _ & _ & _ & (c & _ & _ & Hlen)).
  destruct v; [cbn in Hlen; lia|reflexivity].
Qed.

(** What [updateCandidateInfo] does to one kind. *)
Lemma updateCandidateInfo_kind (k : Kind) (a t : jsstring) (c : CandidateInfo) :
  fact k (updateCandidateInfo a t c)
  = if populated k c then fact k c
    else or_keep (option_map (fun v => [v])
                    (first_capture (kindMin k) (kindPatterns k) t))
                 (fact k c).
Proof.
  destruct k; unfold updateCandidateInfo; cbn [fact populated kindMin kindPatterns
    ci_name ci_university ci_experience ci_company ci_skills];
    match goal with
    | |- context [negb ?b] => destruct b; cbn [negb]
    | |- context [skills_missing ?o] => destruct (skills_missing o); cbn [negb]
    end; try reflexivity;
    match goal with
    | |- context [first_capture ?m ?p t] => destruct (first_capture m p t)
    end; reflexivity.
Qed.

Lemma populated_after_fill (k : Kind) (v : jsstring) (c : CandidateInfo) :
  truthy (Some v) = true -> fact k c = Some [v] -> populated k c = true.
Proof.
  intros Hv. destruct k; cbn [fact populated]; intros H;
    try (rewrite H; reflexivity).
  - destruct (ci_name c); inversion H; subst; exact Hv.
  - destruct (ci_university c); inversion H; subst; exact Hv.
  - destruct (ci_experience c); inversion H; subst; exact Hv.
  - destruct (ci_company c); inversion H; subst; exact Hv.
Qed.

Lemma populated_kept (k : Kind) (a t : jsstring) (c : CandidateInfo) :
  populated k c = true ->
  populated k (updateCandidateInfo a t c) = true
  /\ fact k (updateCandidateInfo a t c) = fact k c.
Proof.
  intros H. pose proof (updateCandidateInfo_kind k a t c) as Hk.
  rewrite H in Hk. split; [|exact Hk].
  destruct k; cbn in *;
    try (destruct (ci_name c) as [[|]|]; try discriminate;
         destruct (ci_name (updateCandidateInfo a t c)) as [[|]|];
         inversion Hk; reflexivity);
    try (destruct (ci_university c) as [[|]|]; try discriminate;
         destruct (ci_university (updateCandidateInfo a t c)) as [[|]|];
         inversion Hk; reflexivity);
    try (destruct (ci_experience c) as [[|]|]; try discriminate;
         destruct (ci_experience (updateCandidateInfo a t c)) as [[|]|];
         inversion Hk; reflexivity);
    try (destruct (ci_company c) as [[|]|]; try discriminate;
         destruct (ci_company (updateCandidateInfo a t c)) as [[|]|];
         inversion Hk; reflexivity).
  rewrite Hk. exact H.
Qed.

Lemma feed_kept (k : Kind) (turns : list (jsstring * jsstring))
    (c : CandidateInfo) :
  populated k c = true -> fact k (feed c turns) = fact k c.
Proof.
  revert c. induction turns as [|[a t] turns IH]; intros c H; [reflexivity|].
  cbn. destruct (populated_kept k a t c H) as (Hp & Hf).
  unfold feed in IH. rewrite (IH _ Hp). exact Hf.
Qed.

(** C7 (as stated, refuted): the first pattern of the list that matches is
    not always the one whose capture is stored.  The first name pattern
    matches [blank_then_name] and captures a blank, and the name stored is the
    capture of the second pattern; the first experience pattern matches
    [short_then_long] and captures five code units, and the experience stored
    is the capture of the second pattern. *)
Lemma C7_first_matching_pattern_skipped :
  (regex_match (nth 0 namePatterns []) blank_then_name = Some (js " ")
   /\ regex_match (nth 1 namePatterns []) blank_then_name = Some (js "太郎")
   /\ ci_name (updateCandidateInfo (js "Q2") blank_then_name emptyCandidateInfo)
      = Some (js "太郎"))
  /\ (regex_match (nth 0 experiencePatterns []) short_then_long
      = Some (js "営業経験あ")
      /\ regex_match (nth 1 experiencePatterns []) short_then_long
         = Some (js "営業経験あり。3年間の職歴が")
      /\ ci_experience
           (updateCandidateInfo (js "Q2") short_then_long emptyCandidateInfo)
         = Some (js "営業経験あり。3年間の職歴が")).
Proof. vm_compute. repeat split. Qed.

(** C7 (amended): a kind that is populated is left as it is by any response
    and by any list of later responses; a kind that is not is filled with
    the trimmed capture of the first pattern, in the order of its list, that
    matches the transcript with a trimmed capture longer than the minimum of
    the kind (0 for the name, 2 for university and company, 5 for experience,
    3 for skills), is populated from then on, and is left as it is when no
    pattern does; so of two transcripts whose name is accepted the first one
    gives the name. *)
Theorem C7_facts_written_once :
  (forall (k : Kind) (a t : jsstring) (c : CandidateInfo),
      populated k c = true -> fact k (updateCandidateInfo a t c) = fact k c)
  /\ (forall (k : Kind) (turns : list (jsstring * jsstring))
             (c : CandidateInfo),
         populated k c = true -> fact k (feed c turns) = fact k c)
  /\ (forall (k : Kind) (a t v : jsstring) (c : CandidateInfo),
         populated k c = false ->
         firstAccepted (kindMin k) (kindPatterns k) t v ->
         fact k (updateCandidateInfo a t c) = Some [v]
         /\ populated k (updateCandidateInfo a t c) = true)
  /\ (forall (k : Kind) (a t : jsstring) (c : CandidateInfo),
         populated k c = false ->
         Forall (rejects (kindMin k) t) (kindPatterns k) ->
         fact k (updateCandidateInfo a t c) = fact k c)
  /\ (forall (a1 t1 a2 t2 v : jsstring) (c : CandidateInfo),
         populated KName c = false ->
         firstAccepted 0 namePatterns t1 v ->
         ci_name (updateCandidateInfo a2 t2 (updateCandidateInfo a1 t1 c))
         = Some v).
Proof.
  assert (Hfill : forall (k : Kind) (a t v : jsstring) (c : CandidateInfo),
             populated k c = false ->
             firstAccepted (kindMin k) (kindPatterns k) t v ->
             fact k (updateCandidateInfo a t c) = Some [v]
             /\ populated k (updateCandidateInfo a t c) = true).
  { intros k a t v c Hp Hacc. apply first_capture_Some in Hacc.
    pose proof (updateCandidateInfo_kind k a t c) as Hk.
    rewrite Hp, Hacc in Hk. cbn [option_map or_keep] in Hk.
    split; [exact Hk|].
    apply (populated_after_fill k v); [|exact Hk].
    apply (first_capture_nonempty _ _ _ _ Hacc). }
  split; [|split; [|split; [|split]]].
  - intros k a t c H. apply populated_kept, H.
  - intros k turns c H. apply feed_kept, H.
  - exact Hfill.
  - intros k a t c Hp Hrej. apply first_capture_None in Hrej.
    pose proof (updateCandidateInfo_kind k a t c) as Hk.
    rewrite Hp, Hrej in Hk. exact Hk.
  - intros a1 t1 a2 t2 v c Hp Hacc.
    destruct (Hfill KName a1 t1 v c Hp Hacc) as (Hf & Hp').
    destruct (populated_kept KName a2 t2 _ Hp') as (_ & Hk).
    rewrite Hf in Hk. cbn [fact] in Hk.
    destruct (ci_name (updateCandidateInfo a2 t2 (updateCandidateInfo a1 t1 c)));
      inversion Hk. reflexivity.
Qed.

(** Two transcripts with a name: the name of the first one is kept. *)
Lemma C7_facts_written_once_witness :
  populated KName emptyCandidateInfo = false
  /\ firstAccepted 0 namePatterns (js "私は太郎です") (js "太郎")
  /\ ci_name (updateCandidateInfo (js "Q3") (js "私は花子です")
                (updateCandidateInfo (js "Q2") (js "私は太郎です")
                                     emptyCandidateInfo))
     = Some (js "太郎").
Proof.
  assert (H : firstAccepted 0 namePatterns (js "私は太郎です") (js "太郎")).
  { apply first_capture_Some. vm_compute. reflexivity. }
  split; [reflexivity|]. split; [exact H|].
  exact (proj2 (proj2 (proj2 (proj2 C7_facts_written_once)))
               (js "Q2") (js "私は太郎です") (js "Q3") (js "私は花子です")
               (js "太郎") emptyCandidateInfo eq_refl H).
Defined.

(** ** The prompt composer *)

Lemma formatTurn_shape (msg : Turn) (index : nat) :
  formatTurn msg index
  = turnHeader (role msg) index ++ speakerLabel (role msg) ++ content msg ++ nl.
Proof.
  unfold formatTurn, turnHeader, speakerLabel.
  destruct (role msg); [|reflexivity].
  repeat rewrite <- app_assoc. reflexivity.
Qed.

Lemma formatTurn_spoken (m1 m2 : Turn) (index : nat) :
  spoken m1 = spoken m2 -> formatTurn m1 index = formatTurn m2 index.
Proof.
  unfold spoken, formatTurn. intros H. inversion H as [[Hr Hc]].
  rewrite Hr, Hc. reflexivity.
Qed.

Lemma mapi_spoken (h1 h2 : list Turn) (index : nat) :
  map spoken h1 = map spoken h2 ->
  mapi formatTurn index h1 = mapi formatTurn index h2.
Proof.
  revert h2 index. induction h1 as [|m1 h1 IH]; intros [|m2 h2] index H;
    try discriminate; [reflexivity|].
  cbn [map] in H.
  assert (Hm : spoken m1 = spoken m2) by congruence.
  assert (Hrest : map spoken h1 = map spoken h2) by congruence.
  cbn [mapi]. rewrite (formatTurn_spoken m1 m2 index Hm), (IH h2 _ Hrest).
  reflexivity.
Qed.

Lemma formatConversationHistory_spoken (h1 h2 : list Turn) :
  map spoken h1 = map spoken h2 ->
  formatConversationHistory h1 = formatConversationHistory h2.
Proof.
  intros H. unfold formatConversationHistory.
  destruct h1 as [|m1 h1], h2 as [|m2 h2]; try discriminate; [reflexivity|].
  rewrite (mapi_spoken (m1 :: h1) (m2 :: h2) 0 H). reflexivity.
Qed.

Lemma candidateInfoText_sameFacts (c1 c2 : CandidateInfo) :
  sameFacts c1 c2 -> candidateInfoText c1 = candidateInfoText c2.
Proof.
  unfold sameFacts, candidateInfoText. intros (H1 & H2 & H3 & H4 & H5).
  rewrite H1, H2, H3, H4, H5. reflexivity.
Qed.

Lemma mapi_length {A B : Type} (f : A -> nat -> B) (index : nat) (l : list A) :
  List.length (mapi f index l) = List.length l.
Proof.
  revert index. induction l as [|x l IH]; intros index; [reflexivity|].
  cbn. rewrite IH. reflexivity.
Qed.

Lemma mapi_nth_error {A B : Type} (f : A -> nat -> B) (l : list A)
    (index n : nat) (x : A) :
  nth_error l n = Some x ->
  nth_error (mapi f index l) n = Some (f x (index + n)).
Proof.
  revert index n. induction l as [|y l IH]; intros index [|n] H;
    try discriminate.
  - inversion H; subst. cbn. rewrite Nat.add_0_r. reflexivity.
  - cbn in H. cbn [mapi nth_error]. rewrite (IH (S index) n H).
    f_equal. f_equal. lia.
Qed.

Lemma flat_map_optFact (label : jsstring) (o : option jsstring) :
  flat_map renderFact (optFact label o) = factLine label o.
Proof.
  unfold optFact, factLine, renderFact.
  destruct o as [[|ch v]|]; cbn [flat_map fst snd]; try reflexivity.
  rewrite app_nil_r. reflexivity.
Qed.

Lemma candidateInfoText_shown (c : CandidateInfo) :
  candidateInfoText c
  = match shownFacts c with
    | [] => []
    | _ :: _ => nl ++ js "候補者情報:"
    end ++ flat_map renderFact (shownFacts c).
Proof.
  unfold candidateInfoText, shownFacts.
  destruct (ci_name c) as [[|ch v]|]; try reflexivity.
  cbn [flat_map]. repeat rewrite flat_map_app.
  repeat rewrite flat_map_optFact.
  unfold renderFact at 1. cbn [fst snd].
  assert (Hs : flat_map renderFact
                 match ci_skills c with
                 | Some l => [(js "- スキル: ", join (js ", ") l)]
                 | None => []
                 end
               = skillsLine (ci_skills c)).
  { unfold skillsLine, renderFact. destruct (ci_skills c);
      cbn [flat_map fst snd]; [rewrite app_nil_r|]; reflexivity. }
  rewrite Hs. repeat rewrite <- app_assoc. reflexivity.
Qed.

Lemma extracted_skills (c : CandidateInfo) :
  extracted c ->
  ci_skills c = None
  \/ exists v, ci_skills c = Some [v] /\ v <> [].
Proof.
  induction 1 as [|a t c Hc IH]; [left; reflexivity|].
  pose proof (updateCandidateInfo_kind KSkills a t c) as Hk.
  cbn [fact populated kindMin kindPatterns] in Hk. rewrite Hk.
  destruct IH as [IH|(v & IH & Hv)]; rewrite IH; cbn [skills_missing negb].
  - destruct (first_capture 3 skillsPatterns t) as [v|] eqn:Hf;
      cbn [option_map or_keep]; [|left; reflexivity].
    right. exists v. split; [reflexivity|].
    apply first_capture_nonempty in Hf. destruct v; discriminate.
  - right. exists v. auto.
Qed.

Lemma optFact_known (label : jsstring) (o : option jsstring)
    (f : jsstring * jsstring) :
  In f (optFact label o) -> fst f = label /\ o = Some (snd f) /\ snd f <> [].
Proof.
  unfold optFact. destruct o as [[|ch v]|]; cbn; try tauto.
  intros [<-|[]]. cbn. repeat split. discriminate.
Qed.

Lemma shownFacts_known (c : CandidateInfo) (f : jsstring * jsstring) :
  extracted c -> In f (shownFacts c) -> snd f <> [] /\ knownFact c f.
Proof.
  intros Hex. unfold shownFacts, knownFact.
  destruct (ci_name c) as [[|ch v]|]; cbn [In]; try tauto.
  intros [<-|Hin].
  - cbn [fst snd]. split; [discriminate|]. left. auto.
  - repeat (apply in_app_or in Hin; destruct Hin as [Hin|Hin]);
      try (apply optFact_known in Hin; destruct Hin as (H1 & H2 & H3);
           split; [exact H3|]; tauto).
    destruct (extracted_skills c Hex) as [Hs|(w & Hs & Hw)];
      rewrite Hs in Hin; cbn in Hin; [tauto|].
    destruct Hin as [<-|[]]. cbn [fst snd join].
    split; [exact Hw|]. do 4 right. split; [reflexivity|].
    exists w. auto.
Qed.

Lemma join_cons (sep x : jsstring) (l : list jsstring) :
  join sep (x :: l) = x ++ flat_map (fun y => sep ++ y) l.
Proof.
  revert x. induction l as [|y l IH]; intros x.
  - cbn. rewrite app_nil_r. reflexivity.
  - change (join sep (x :: y :: l)) with (x ++ sep ++ join sep (y :: l)).
    rewrite IH. cbn [flat_map]. rewrite <- app_assoc. reflexivity.
Qed.

Lemma flat_map_shift (sep : jsstring) (l : list jsstring) :
  flat_map (fun y => sep ++ y) l ++ sep
  = sep ++ flat_map (fun y => y ++ sep) l.
Proof.
  induction l as [|b l IH]; cbn [flat_map].
  - rewrite app_nil_r. reflexivity.
  - repeat rewrite <- app_assoc. rewrite IH. reflexivity.
Qed.

Lemma join_split (sep x : jsstring) (l1 l2 : list jsstring) :
  join sep (l1 ++ x :: l2)
  = flat_map (fun y => y ++ sep) l1 ++ x ++ flat_map (fun y => sep ++ y) l2.
Proof.
  destruct l1 as [|a l1]; [apply join_cons|].
  cbn [app flat_map]. rewrite join_cons, flat_map_app. cbn [flat_map].
  repeat rewrite <- app_assoc. f_equal.
  rewrite (app_assoc (flat_map (fun y => sep ++ y) l1) sep).
  rewrite flat_map_shift. repeat rewrite <- app_assoc. reflexivity.
Qed.

Lemma mapi_app {A B : Type} (f : A -> nat -> B) (index : nat) (l1 l2 : list A) :
  mapi f index (l1 ++ l2)
  = mapi f index l1 ++ mapi f (index + List.length l1) l2.
Proof.
  revert index. induction l1 as [|x l1 IH]; intros index; cbn.
  - rewrite Nat.add_0_r. reflexivity.
  - rewrite IH. do 3 f_equal. lia.
Qed.

(** C9: the prompt is a function of the roles and contents of the history,
    the phase and the rendered fields of the sheet alone (two renders that
    agree on them give the same code units); it contains the rendered
    history followed by the rendered facts; the rendered history is the
    lines of the turns in the order of the history, every line made of the
    header of an exchange (for a user turn), the label of the speaker and the
    content; and on a sheet the component can hold, every fact rendered is
    the non-empty value the sheet holds for its kind. *)
Theorem C9_prompt_composer :
  (forall r1 r2 : Render,
      map spoken (r_conversationHistory r1)
      = map spoken (r_conversationHistory r2) ->
      r_interviewPhase r1 = r_interviewPhase r2 ->
      sameFacts (r_candidateInfo r1) (r_candidateInfo r2) ->
      createSystemPrompt r1 = createSystemPrompt r2)
  /\ (forall r : Render,
         exists before,
           createSystemPrompt r
           = before ++ formatConversationHistory (r_conversationHistory r)
               ++ candidateInfoText (r_candidateInfo r) ++ prompt_tail)
  /\ (forall (h1 h2 : list Turn) (msg : Turn),
         formatConversationHistory (h1 ++ msg :: h2)
         = flat_map (fun line => line ++ nl) (mapi formatTurn 0 h1)
             ++ (turnHeader (role msg) (List.length h1)
                   ++ speakerLabel (role msg) ++ content msg ++ nl)
             ++ flat_map (fun line => nl ++ line)
                         (mapi formatTurn (S (List.length h1)) h2))
  /\ (forall c : CandidateInfo,
         extracted c ->
         candidateInfoText c
         = match shownFacts c with
           | [] => []
           | _ :: _ => nl ++ js "候補者情報:"
           end ++ flat_map renderFact (shownFacts c)
         /\ forall f, In f (shownFacts c) -> snd f <> [] /\ knownFact c f).
Proof.
  split; [|split; [|split]].
  - intros r1 r2 Hh Hp Hc. unfold createSystemPrompt.
    rewrite (formatConversationHistory_spoken _ _ Hh), Hp,
      (candidateInfoText_sameFacts _ _ Hc).
    reflexivity.
  - intros r. unfold createSystemPrompt.
    exists (prompt_head ++ introPhaseBlock (r_interviewPhase r)
              ++ progressionBlock ++ prompt_guidelines
              ++ phaseLabel (r_interviewPhase r) ++ prompt_history_header).
    repeat rewrite <- app_assoc. reflexivity.
  - intros h1 h2 msg. unfold formatConversationHistory.
    destruct (h1 ++ msg :: h2) eqn:E; [destruct h1; discriminate|].
    rewrite <- E. rewrite mapi_app. cbn [mapi].
    rewrite join_split. rewrite formatTurn_shape.
    cbn [Nat.add]. reflexivity.
  - intros c Hex. split; [apply candidateInfoText_shown|].
    intros f. apply shownFacts_known, Hex.
Qed.

(** Two renders on the same turns at different times give the same prompt,
    and the name of [taro_sheet] is rendered as a known fact. *)
Lemma C9_prompt_composer_witness :
  createSystemPrompt
    (mkRender [mkTurn user (js "私は太郎です") 1000] introduction taro_sheet)
  = createSystemPrompt
      (mkRender [mkTurn user (js "私は太郎です") 2000] introduction taro_sheet)
  /\ (extracted taro_sheet
      /\ (In (js "- 名前: ", js "太郎") (shownFacts taro_sheet) ->
          snd (js "- 名前: ", js "太郎") <> []
          /\ knownFact taro_sheet (js "- 名前: ", js "太郎"))).
Proof.
  assert (Hex : extracted taro_sheet)
    by (apply extracted_update, extracted_empty).
  split.
  - apply (proj1 C9_prompt_composer); cbn; unfold sameFacts; auto.
  - split; [exact Hex|].
    apply (proj2 (proj2 (proj2 (proj2 C9_prompt_composer)) taro_sheet Hex)).
Defined.

(** * Further properties *)

(** ** The callbacks as updates of single fields *)

Lemma stopRecorder_eq (s : State) :
  stopRecorder s = set_mediaRecorderRef (option_map stopped (mediaRecorderRef s)) s.
Proof.
  unfold stopRecorder, stopped. destruct s. cbn.
  destruct mediaRecorderRef0 as [[id [|]]|]; reflexivity.
Qed.

Lemma startNewRecordingSession_eq (s : State) :
  startNewRecordingSession s
  = set_mediaRecorderRef (recorderAfterStart s)
      (setSilenceTimer 0
         (set_silenceTimerRef None
            (set_previousSpeakingStateRef false
               (setHasSpokenInCurrentSession false
                  (set_hasSpokenInCurrentSessionRef false
                     (set_chunksRef []
                        (set_currentRecordingSessionRef
                           (currentRecordingSessionRef s + 1) s))))))).
Proof.
  unfold startNewRecordingSession, recorderAfterStart. rewrite stopRecorder_eq.
  cbn. destruct (streamRef s && audioContextRef s); reflexivity.
Qed.

Lemma cleanup_eq (s : State) :
  cleanup s
  = set_isPlayingTTSRef false
      (set_isProcessingRef false
         (set_hasSpokenInCurrentSessionRef false
            (set_previousSpeakingStateRef false
               (set_currentAudioRef None
                  (set_analysisIntervalRef false
                     (set_silenceTimerRef None
                        (set_chunksRef []
                           (set_mediaRecorderRef
                              (option_map stopped (mediaRecorderRef s)) s)))))))).
Proof. unfold cleanup. rewrite stopRecorder_eq. reflexivity. Qed.

Lemma catchBlock_eq (e : Thrown) (s : State) :
  catchBlock e s
  = setIsProcessing false
      (set_isProcessingRef false
         (startNewRecordingSession
            (setError (js "エラーが発生しました: " ++ errorMessage e) s))).
Proof. reflexivity. Qed.

Lemma onPlaybackOver_eq (s : State) :
  onPlaybackOver s
  = startNewRecordingSession
      (setIsPlayingTTS false (set_isPlayingTTSRef false (set_currentAudioRef None s))).
Proof. reflexivity. Qed.

Lemma js_cons_nonempty (m : jsstring) :
  js "月間利用制限に達しました (" ++ m <> [].
Proof. discriminate. Qed.

(** X1: a start that is refused (the usage check fails or denies, or the
    microphone is not granted) leaves the component idle with an error
    message: no session, recorder, interval or request is started.  The
    greeting has already replaced the history and the response. *)
Theorem X1_refused_start_stays_idle (usageCheck : UsageCheck)
    (micGranted : bool) (now : N) (s : State) :
  isActive s = false ->
  refused usageCheck micGranted = true ->
  let s' := toggleRecording usageCheck micGranted now s in
  mode s' = Idle
  /\ error s' <> []
  /\ currentRecordingSessionRef s' = currentRecordingSessionRef s
  /\ mediaRecorderRef s' = mediaRecorderRef s
  /\ analysisIntervalRef s' = analysisIntervalRef s
  /\ sessionStartTime s' = sessionStartTime s
  /\ chunksRef s' = chunksRef s
  /\ fetchLog s' = fetchLog s
  /\ usageLog s' = usageLog s
  /\ conversationHistory s' = [mkTurn assistant initialMessage now]
  /\ response s' = initialMessage
  /\ candidateInfo s' = candidateInfo s
  /\ interviewPhase s' = interviewPhase s.
Proof.
  intros Ha Hr s'. subst s'. unfold toggleRecording. rewrite Ha.
  unfold mode, startRealTimeRecording, handleInitialAIGreeting.
  destruct usageCheck as [|cu pl|]; cbn in Hr.
  - cbn. rewrite Ha. cbn. repeat (split; [try reflexivity|]); try reflexivity.
    discriminate.
  - cbn. rewrite Ha. cbn. repeat (split; [try reflexivity|]); try reflexivity.
    apply js_cons_nonempty.
  - destruct micGranted; [discriminate|].
    cbn. rewrite Ha. cbn. repeat (split; [try reflexivity|]); try reflexivity.
    discriminate.
Qed.

(** A denied usage check on the idle component. *)
Lemma X1_refused_start_witness :
  mode (toggleRecording (Denied 30 30) true 1000 init) = Idle
  /\ error (toggleRecording (Denied 30 30) true 1000 init) <> [].
Proof.
  pose proof (X1_refused_start_stays_idle (Denied 30 30) true 1000 init
                eq_refl eq_refl) as H.
  exact (conj (proj1 H) (proj1 (proj2 H))).
Defined.

(** ** Stopping *)

Lemma stopRealTimeRecording_fields (now : N) (s : State) :
  let s' := stopRealTimeRecording now s in
  isActive s' = false
  /\ isProcessing s' = false /\ isPlayingTTS s' = false
  /\ isProcessingRef s' = false /\ isPlayingTTSRef s' = false
  /\ chunksRef s' = [] /\ silenceTimerRef s' = None /\ silenceTimer s' = 0%N
  /\ analysisIntervalRef s' = false /\ currentAudioRef s' = None
  /\ currentRecordingSessionRef s' = 0
  /\ mediaRecorderRef s' = option_map stopped (mediaRecorderRef s)
  /\ sessionStartTime s' = None
  /\ tasks s' = tasks s /\ fetchLog s' = fetchLog s
  /\ conversationHistory s' = conversationHistory s
  /\ interviewPhase s' = interviewPhase s
  /\ candidateInfo s' = candidateInfo s
  /\ response s' = response s.
Proof.
  unfold stopRealTimeRecording. rewrite cleanup_eq. cbn.
  destruct (sessionStartTime s) as [t|] eqn:Ht; cbn.
  - destruct (0 <? sessionMinutes t now)%N; cbn; rewrite ?Ht; auto 25.
  - rewrite Ht. auto 25.
Qed.

(** X2: the stop leaves the component idle with every timer, recorder and
    playback released and the session identifier at 0; the history, the fact
    sheet and the response stay on display.  After it the analyser interval,
    the silence timer and the playback do nothing, and a chunk of any
    recorder ever created (their tags start at 1) is discarded. *)
Theorem X2_stop_releases_everything (closure : State -> Render) (now : N)
    (s : State) :
  let s' := stopRealTimeRecording now s in
  mode s' = Idle
  /\ chunksRef s' = []
  /\ silenceTimerRef s' = None
  /\ analysisIntervalRef s' = false
  /\ currentAudioRef s' = None
  /\ isProcessingRef s' = false /\ isPlayingTTSRef s' = false
  /\ currentRecordingSessionRef s' = 0
  /\ (forall rc, mediaRecorderRef s' = Some rc -> rec_recording rc = false)
  /\ conversationHistory s' = conversationHistory s
  /\ candidateInfo s' = candidateInfo s
  /\ response s' = response s
  /\ (forall e, isTimerOrPlayback e = true -> step closure s' e = s')
  /\ (forall sessionId size,
         sessionId <> 0 -> step closure s' (DataAvailable sessionId size) = s').
Proof.
  intros s'.
  destruct (stopRealTimeRecording_fields now s)
    as (Ha & Hp & Hq & Hpr & Hqr & Hc & Ht & _ & Hi & Hau & Hid & Hrec & _ & _
        & _ & Hh & _ & Hci & Hre).
  fold s' in Ha, Hp, Hq, Hpr, Hqr, Hc, Ht, Hi, Hau, Hid, Hrec, Hh, Hci, Hre.
  split; [unfold mode; rewrite Ha; reflexivity|].
  repeat (split; [assumption|]).
  split.
  { intros rc H. rewrite Hrec in H. destruct (mediaRecorderRef s); inversion H.
    reflexivity. }
  repeat (split; [assumption|]).
  split.
  - intros e He. destruct e; try discriminate; cbn [step].
    + rewrite Hi. reflexivity.
    + rewrite Ht. reflexivity.
    + rewrite Hau. reflexivity.
    + rewrite Hau. reflexivity.
  - intros tag size Htag. cbn [step].
    destruct (ondataavailable_cases tag size s')
      as [(_ & H & _)|(_ & H)]; [|exact H].
    rewrite Hid in H. contradiction.
Qed.

(** The stop with a chunk buffered: the recorder of session 1 is stopped and
    a late sample does nothing. *)
Lemma X2_stop_witness :
  mediaRecorderRef (stopRealTimeRecording 9000 buffered_state)
  = Some (mkRecorder 1 false)
  /\ rec_recording (mkRecorder 1 false) = false
  /\ step mount_closure (stopRealTimeRecording 9000 buffered_state) (Tick loud)
     = stopRealTimeRecording 9000 buffered_state.
Proof.
  destruct (X2_stop_releases_everything mount_closure 9000 buffered_state)
    as (_ & _ & _ & _ & _ & _ & _ & _ & Hrc & _ & _ & _ & Hev & _).
  split; [reflexivity|]. split.
  - exact (Hrc (mkRecorder 1 false) eq_refl).
  - exact (Hev (Tick loud) eq_refl).
Defined.

(** ** Usage accounting *)

Lemma sessionMinutes_bounds (startTime endTime : N) :
  (startTime < endTime)%N ->
  (0 < sessionMinutes startTime endTime
   /\ 60000 * (sessionMinutes startTime endTime - 1) < endTime - startTime
   /\ endTime - startTime <= 60000 * sessionMinutes startTime endTime)%N.
Proof.
  intros H. unfold sessionMinutes.
  set (d := (endTime - startTime)%N). assert (0 < d)%N by (subst d; lia).
  pose proof (N.div_mod (d + 59999) 60000) as Hdm.
  pose proof (N.mod_lt (d + 59999) 60000) as Hlt.
  set (q := ((d + 59999) / 60000)%N) in *.
  set (r := ((d + 59999) mod 60000)%N) in *.
  lia.
Qed.

Lemma sessionMinutes_zero (startTime endTime : N) :
  (endTime <= startTime)%N -> sessionMinutes startTime endTime = 0%N.
Proof.
  intros H. unfold sessionMinutes.
  replace (endTime - startTime)%N with 0%N by lia. reflexivity.
Qed.

Lemma stopRealTimeRecording_usage (now : N) (s : State) :
  usageLog (stopRealTimeRecording now s)
  = match sessionStartTime s with
    | Some t =>
      if (0 <? sessionMinutes t now)%N
      then usageLog s ++ [sessionMinutes t now]
      else usageLog s
    | None => usageLog s
    end.
Proof.
  unfold stopRealTimeRecording. rewrite cleanup_eq. cbn.
  destruct (sessionStartTime s) as [t|]; cbn; [|reflexivity].
  destruct (0 <? sessionMinutes t now)%N; reflexivity.
Qed.

Lemma step_usage (closure : State -> Render) (s : State) (e : Event) :
  isStop s e = false -> usageLog (step closure s e) = usageLog s.
Proof.
  destruct e as [u m now|d|tag size| | |el|i o now| |]; cbn [step isStop];
    intros Hstop.
  - destruct (isProcessing s); [reflexivity|]. cbn in Hstop.
    unfold toggleRecording. rewrite Hstop.
    unfold startRealTimeRecording, handleInitialAIGreeting.
    destruct u; [reflexivity|reflexivity|]. destruct m; [|reflexivity].
    rewrite startNewRecordingSession_eq. reflexivity.
  - destruct (analysisIntervalRef s); [|reflexivity].
    unfold analyzeAudio. repeat (break_test; cbn); reflexivity.
  - destruct (ondataavailable_cases tag size s) as [(_ & _ & _ & _ & ->)|(_ & ->)];
      reflexivity.
  - reflexivity.
  - destruct (silenceTimerRef s) as [[|]|]; try reflexivity.
    destruct (sendCurrentAudio_cases (closure s)
                (set_silenceTimerRef (Some Fired) s))
      as [->|(_ & _ & [(_ & ->)|(_ & ->)])]; try reflexivity.
    rewrite catchBlock_eq, startNewRecordingSession_eq. reflexivity.
  - reflexivity.
  - destruct (nth_error (tasks s) i) as [t|]; [|reflexivity].
    destruct t as [r req|r data|], o as [fo| |e]; cbn [resume];
      try reflexivity;
      try (rewrite catchBlock_eq, startNewRecordingSession_eq; reflexivity).
    + unfold afterFetch. destruct fo as [e|st tx|e|data];
        try (rewrite catchBlock_eq, startNewRecordingSession_eq; reflexivity).
      destruct (truthy (d_text data)); cbn [negb];
        [|rewrite catchBlock_eq, startNewRecordingSession_eq; reflexivity].
      destruct (truthy (d_transcript data)); [reflexivity|].
      unfold afterSaveTranscript.
      destruct (truthy (d_transcript data)),
        (truthy (d_audio data) && truthy (d_mimeType data));
        try reflexivity; unfold finallyBlock;
        rewrite startNewRecordingSession_eq; reflexivity.
    + unfold afterSaveTranscript.
      destruct (truthy (d_transcript data)),
        (truthy (d_audio data) && truthy (d_mimeType data));
        try reflexivity; unfold finallyBlock;
        rewrite startNewRecordingSession_eq; reflexivity.
  - destruct (currentAudioRef s); [|reflexivity].
    rewrite onPlaybackOver_eq, startNewRecordingSession_eq. reflexivity.
  - destruct (currentAudioRef s); [|reflexivity].
    rewrite onPlaybackOver_eq, startNewRecordingSession_eq. reflexivity.
Qed.

(** X3: the stop of a session that began at [startTime] reports to the usage
    accounting the elapsed time rounded up to whole minutes, once, and
    nothing when no time has elapsed or no session began; no other event
    reports usage. *)
Theorem X3_usage_reported_at_stop :
  (forall (now startTime : N) (s : State),
      sessionStartTime s = Some startTime ->
      (startTime < now)%N ->
      exists minutes,
        usageLog (stopRealTimeRecording now s) = usageLog s ++ [minutes]
        /\ (0 < minutes)%N
        /\ (60000 * (minutes - 1) < now - startTime)%N
        /\ (now - startTime <= 60000 * minutes)%N)
  /\ (forall (now startTime : N) (s : State),
         sessionStartTime s = Some startTime ->
         (now <= startTime)%N ->
         usageLog (stopRealTimeRecording now s) = usageLog s)
  /\ (forall (now : N) (s : State),
         sessionStartTime s = None ->
         usageLog (stopRealTimeRecording now s) = usageLog s)
  /\ (forall (closure : State -> Render) (s : State) (e : Event),
         isStop s e = false -> usageLog (step closure s e) = usageLog s).
Proof.
  split; [|split; [|split]].
  - intros now t s Ht Hlt. rewrite stopRealTimeRecording_usage, Ht.
    destruct (sessionMinutes_bounds t now Hlt) as (H0 & H1 & H2).
    apply N.ltb_lt in H0. rewrite H0.
    exists (sessionMinutes t now). apply N.ltb_lt in H0. auto.
  - intros now t s Ht Hle. rewrite stopRealTimeRecording_usage, Ht.
    rewrite (sessionMinutes_zero t now Hle). reflexivity.
  - intros now s Ht. rewrite stopRealTimeRecording_usage, Ht. reflexivity.
  - apply step_usage.
Qed.

(** A session of 60.001 seconds is reported as two minutes. *)
Lemma X3_usage_witness :
  sessionStartTime buffered_state = Some 1000%N
  /\ exists minutes,
       usageLog (stopRealTimeRecording 61001 buffered_state)
       = usageLog buffered_state ++ [minutes]
       /\ (0 < minutes)%N
       /\ (60000 * (minutes - 1) < 61001 - 1000)%N
       /\ (61001 - 1000 <= 60000 * minutes)%N.
Proof.
  split; [reflexivity|].
  exact (proj1 X3_usage_reported_at_stop 61001%N 1000%N buffered_state
               eq_refl eq_refl).
Defined.

(** ** Sessions and the buffer *)

(** X4: a speaking sample taken while no turn is processed or played cancels
    the countdown, pending or not, and marks the session as spoken; the
    timeout of the cancelled countdown then does nothing and no request is
    made. *)
Theorem X4_speech_cancels_countdown (closure : State -> Render)
    (dataArray : list N) (s : State) :
  analysisIntervalRef s = true -> analyserRef s = true ->
  isProcessingRef s = false -> isPlayingTTSRef s = false ->
  aboveThreshold dataArray = true ->
  let s' := step closure s (Tick dataArray) in
  silenceTimerRef s' = None
  /\ silenceTimer s' = 0%N
  /\ hasSpokenInCurrentSessionRef s' = true
  /\ previousSpeakingStateRef s' = true
  /\ chunksRef s' = chunksRef s
  /\ step closure s' SilenceTimeout = s'
  /\ fetchLog (step closure s' SilenceTimeout) = fetchLog s.
Proof.
  intros Hi Ha Hp Hq Hsp s'. subst s'. cbn [step]. rewrite Hi.
  unfold analyzeAudio. rewrite Ha, Hp, Hq, Hsp. cbn. auto 10.
Qed.

(** A speaking sample while the countdown of [short_pending_state] runs. *)
Lemma X4_speech_cancels_witness :
  silenceTimerRef short_pending_state = Some Pending
  /\ silenceTimerRef (step mount_closure short_pending_state (Tick loud)) = None.
Proof.
  split; [reflexivity|].
  exact (proj1 (X4_speech_cancels_countdown mount_closure loud
                  short_pending_state eq_refl eq_refl eq_refl eq_refl eq_refl)).
Defined.

Lemma startNewRecordingSession_reset (s0 s : State) :
  sessionOrReset s0 (startNewRecordingSession s).
Proof. right. rewrite startNewRecordingSession_eq. cbn. auto. Qed.

Lemma catchBlock_reset (s0 : State) (e : Thrown) (s : State) :
  sessionOrReset s0 (catchBlock e s).
Proof.
  right. rewrite catchBlock_eq, startNewRecordingSession_eq. cbn. auto.
Qed.

Lemma afterSaveTranscript_reset (r : Render) (data : ApiData) (now : N)
    (s0 s : State) :
  currentRecordingSessionRef s = currentRecordingSessionRef s0 ->
  sessionOrReset s0 (afterSaveTranscript r data now s).
Proof.
  intros Hid. unfold afterSaveTranscript.
  destruct (truthy (d_audio data) && truthy (d_mimeType data)).
  - left. destruct (truthy (d_transcript data)); cbn; exact Hid.
  - right. unfold finallyBlock. rewrite startNewRecordingSession_eq.
    cbn. auto.
Qed.

Lemma step_sessionOrReset (closure : State -> Render) (s : State) (e : Event) :
  sessionOrReset s (step closure s e).
Proof.
  destruct e as [u m now|d|tag size| | |el|i o now| |]; cbn [step].
  - destruct (isProcessing s); [left; reflexivity|].
    unfold toggleRecording. destruct (isActive s).
    + right. destruct (stopRealTimeRecording_fields now s)
        as (_ & _ & _ & _ & _ & Hc & Ht & _).
      split; [exact Hc|]. split; [exact Ht|].
      unfold stopRealTimeRecording. rewrite cleanup_eq. cbn.
      destruct (sessionStartTime s) as [t|]; cbn; [|auto].
      destruct (0 <? sessionMinutes t now)%N; cbn; auto.
    + unfold startRealTimeRecording, handleInitialAIGreeting.
      destruct u; [left; reflexivity|left; reflexivity|].
      destruct m; [|left; reflexivity].
      right. rewrite startNewRecordingSession_eq. cbn. auto.
  - destruct (analysisIntervalRef s); [|left; reflexivity].
    left. apply analyzeAudio_keeps.
  - destruct (ondataavailable_cases tag size s) as [(_ & _ & _ & _ & ->)|(_ & ->)];
      left; reflexivity.
  - left. reflexivity.
  - destruct (silenceTimerRef s) as [[|]|]; try (left; reflexivity).
    destruct (sendCurrentAudio_cases (closure s)
                (set_silenceTimerRef (Some Fired) s))
      as [->|(_ & _ & [(_ & ->)|(_ & ->)])]; try (left; reflexivity).
    apply catchBlock_reset.
  - left. reflexivity.
  - destruct (nth_error (tasks s) i) as [t|]; [|left; reflexivity].
    destruct t as [r req|r data|], o as [fo| |e]; cbn [resume];
      try (left; reflexivity); try apply catchBlock_reset.
    + unfold afterFetch. destruct fo as [e|st tx|e|data];
        try apply catchBlock_reset.
      destruct (truthy (d_text data)); cbn [negb]; [|apply catchBlock_reset].
      destruct (truthy (d_transcript data)); [left; reflexivity|].
      apply afterSaveTranscript_reset. reflexivity.
    + apply afterSaveTranscript_reset. reflexivity.
  - destruct (currentAudioRef s); [|left; reflexivity].
    rewrite onPlaybackOver_eq. apply startNewRecordingSession_reset.
  - destruct (currentAudioRef s); [|left; reflexivity].
    rewrite onPlaybackOver_eq. apply startNewRecordingSession_reset.
Qed.

(** X5: whenever a step of the event loop changes the session identifier
    (a new session or the reset of the stop), it leaves the buffer empty, no
    countdown and the speech flags cleared: audio buffered under one
    identifier is never carried into another. *)
Theorem X5_session_change_empties_buffer (closure : State -> Render)
    (s : State) (e : Event) :
  currentRecordingSessionRef (step closure s e)
  <> currentRecordingSessionRef s ->
  chunksRef (step closure s e) = []
  /\ silenceTimerRef (step closure s e) = None
  /\ hasSpokenInCurrentSessionRef (step closure s e) = false
  /\ previousSpeakingStateRef (step closure s e) = false.
Proof.
  intros H. destruct (step_sessionOrReset closure s e) as [Hk|Hr];
    [contradiction|exact Hr].
Qed.

(** The failed dispatch of the short utterance moves to session 2. *)
Lemma X5_session_change_witness :
  currentRecordingSessionRef (step mount_closure short_pending_state SilenceTimeout)
  = 2
  /\ chunksRef (step mount_closure short_pending_state SilenceTimeout) = [].
Proof.
  split; [reflexivity|].
  refine (proj1 (X5_session_change_empties_buffer mount_closure
                   short_pending_state SilenceTimeout _)).
  vm_compute. discriminate.
Defined.

(** ** What holds in every reachable state *)

Lemma run_invariant (P : State -> Prop) (closure : State -> Render) :
  (forall s e, P s -> P (step closure s e)) ->
  forall events s, P s -> P (run closure s events).
Proof.
  intros Hstep events. induction events as [|e events IH]; intros s H;
    [exact H|].
  cbn. apply IH, Hstep, H.
Qed.

Lemma wellFormed_same (s s' : State) :
  core s' = core s -> wellFormed s -> wellFormed s'.
Proof. unfold wellFormed. intros ->. auto. Qed.

(** The state after a new session was started and the processing flags
    cleared, with no activation left. *)
Lemma wellFormedCore_reset (q qr : bool) :
  q = qr -> wellFormedCore ([], false, false, q, qr, None, [], 0%N).
Proof.
  intros H. cbn. repeat split; auto; discriminate.
Qed.

Lemma wellFormed_catchBlock (e : Thrown) (s : State) :
  tasks s = [] -> isPlayingTTS s = isPlayingTTSRef s ->
  wellFormed (catchBlock e s).
Proof.
  intros Ht Hq. unfold wellFormed, core.
  rewrite catchBlock_eq, startNewRecordingSession_eq. cbn [tasks isProcessing
    isProcessingRef isPlayingTTS isPlayingTTSRef silenceTimerRef chunksRef
    silenceTimer setIsProcessing set_isProcessingRef set_mediaRecorderRef
    setSilenceTimer set_silenceTimerRef set_previousSpeakingStateRef
    setHasSpokenInCurrentSession set_hasSpokenInCurrentSessionRef set_chunksRef
    set_currentRecordingSessionRef setError].
  rewrite Ht. apply wellFormedCore_reset, Hq.
Qed.

Lemma wellFormed_afterSaveTranscript (r : Render) (data : ApiData) (now : N)
    (s : State) :
  tasks s = [] -> isProcessing s = true -> isProcessingRef s = true ->
  isPlayingTTS s = isPlayingTTSRef s -> silenceTimerRef s = None ->
  (silenceTimer s <= SILENCE_DURATION)%N ->
  wellFormed (afterSaveTranscript r data now s).
Proof.
  intros Ht Hp Hpr Hq Htm Hst. unfold wellFormed, core, afterSaveTranscript.
  destruct (truthy (d_audio data) && truthy (d_mimeType data)).
  - destruct (truthy (d_transcript data)); cbn; rewrite Ht, Hp, Hpr, Htm;
      wf_core.
  - unfold finallyBlock. rewrite startNewRecordingSession_eq.
    destruct (truthy (d_transcript data)); cbn; rewrite Ht;
      apply wellFormedCore_reset, Hq.
Qed.

Lemma wellFormed_step (closure : State -> Render) (s : State) (e : Event) :
  wellFormed s -> wellFormed (step closure s e).
Proof.
  intros Hwf. pose proof Hwf as Hwf0.
  unfold wellFormed, core in Hwf. cbn in Hwf.
  destruct Hwf as (Hone & Hp & Hq & Hfired & Hpend & Hst & Hsav).
  destruct e as [u m now|d|tag size| | |el|i o now| |]; cbn [step].
  - (* the button *)
    destruct (isProcessing s) eqn:Eproc; [exact Hwf0|].
    assert (Ht : tasks s = []).
    { destruct Hone as [H|(t & _ & H)]; [exact H|congruence]. }
    unfold toggleRecording. destruct (isActive s).
    + unfold wellFormed, core, stopRealTimeRecording. rewrite cleanup_eq.
      destruct (sessionStartTime s) as [t|] eqn:Et; cbn; rewrite ?Et; cbn;
        [destruct (0 <? sessionMinutes t now)%N; cbn|];
        rewrite Ht; apply wellFormedCore_reset; reflexivity.
    + unfold startRealTimeRecording, handleInitialAIGreeting.
      destruct u; [exact Hwf0|exact Hwf0|]. destruct m; [|exact Hwf0].
      unfold wellFormed, core. rewrite startNewRecordingSession_eq. cbn.
      rewrite Ht, Eproc, <- Hp. apply wellFormedCore_reset, Hq.
  - (* a sample *)
    destruct (analysisIntervalRef s); [|exact Hwf0].
    unfold analyzeAudio.
    destruct (negb (analyserRef s) || isProcessingRef s || isPlayingTTSRef s)
      eqn:Eblock; [exact Hwf0|].
    apply orb_false_iff in Eblock. destruct Eblock as (Eblock & Eqr).
    apply orb_false_iff in Eblock. destruct Eblock as (_ & Epr).
    unfold wellFormed, core.
    destruct (aboveThreshold d); [wf_core|].
    cbn. rewrite Epr, Eqr.
    match goal with
    | |- context [if ?b then _ else _] => destruct b eqn:Earm
    end; [|wf_core].
    repeat (apply andb_true_iff in Earm; destruct Earm as (Earm & ?)).
    wf_core. intros _. repeat split; auto.
    destruct (chunksRef s); [discriminate|discriminate].
  - (* a chunk *)
    destruct (ondataavailable_cases tag size s)
      as [(_ & _ & Epr & Eqr & ->)|(_ & ->)]; [|exact Hwf0].
    unfold wellFormed, core. wf_core.
    intros _. repeat split; auto. destruct (chunksRef s); discriminate.
  - exact Hwf0.
  - (* the timeout *)
    destruct (silenceTimerRef s) as [[|]|] eqn:Etm; try exact Hwf0.
    destruct (Hpend eq_refl) as (Hc & Epr & Eqr).
    assert (Ht : tasks s = []).
    { destruct Hone as [H|(t & _ & H)]; [exact H|congruence]. }
    destruct (N.lt_ge_cases (blobSize (chunksRef s)) 1000) as [Hlt|Hge].
    + rewrite (sendCurrentAudio_small (closure s)
                 (set_silenceTimerRef (Some Fired) s) Hc Epr Hlt).
      apply wellFormed_catchBlock; cbn; [exact Ht|exact Hq].
    + rewrite (sendCurrentAudio_sent (closure s)
                 (set_silenceTimerRef (Some Fired) s) Hc Epr Hge).
      unfold wellFormed, core. cbn. rewrite Ht. wf_core.
  - (* a later call of updateTimer *)
    unfold wellFormed, core. wf_core.
  - (* a settlement *)
    destruct (nth_error (tasks s) i) as [t|] eqn:En; [|exact Hwf0].
    destruct Hone as [H|(t0 & Ht & Epr)];
      [rewrite H in En; destruct i; discriminate|].
    rewrite Ht in En. destruct i as [|i]; [|destruct i; discriminate].
    inversion En; subst t0. clear En.
    assert (Ep : isProcessing s = true) by congruence.
    assert (Etm : silenceTimerRef s = None).
    { destruct (silenceTimerRef s) as [[|]|]; [|congruence|reflexivity].
      destruct (Hpend eq_refl) as (_ & H & _). congruence. }
    rewrite Ht in Hsav. inversion Hsav as [|? ? Hsav1 _]; subst.
    rewrite Ht. cbn [remove_nth].
    destruct t as [r req|r data|], o as [fo| |e]; cbn [resume];
      try exact Hwf0;
      try (apply wellFormed_catchBlock; cbn; [reflexivity|exact Hq]);
      try (apply wellFormed_afterSaveTranscript; cbn; auto; fail).
    + unfold afterFetch. destruct fo as [e|st tx|e|data];
        try (apply wellFormed_catchBlock; cbn; [reflexivity|exact Hq]).
      destruct (truthy (d_text data)) eqn:Etext; cbn [negb];
        [|apply wellFormed_catchBlock; cbn; [reflexivity|exact Hq]].
      destruct (truthy (d_transcript data)) eqn:Etr.
      * unfold wellFormed, core. cbn. rewrite Ep, Epr, Etm. wf_core.
      * apply wellFormed_afterSaveTranscript; cbn; auto.
    + unfold wellFormed, core, finallyBlock. cbn. rewrite Etm. wf_core.
  - (* the end of the playback *)
    destruct (currentAudioRef s); [|exact Hwf0].
    unfold wellFormed, core. rewrite onPlaybackOver_eq,
      startNewRecordingSession_eq. wf_core.
  - destruct (currentAudioRef s); [|exact Hwf0].
    unfold wellFormed, core. rewrite onPlaybackOver_eq,
      startNewRecordingSession_eq. wf_core.
Qed.

Lemma wellFormed_init : wellFormed init.
Proof. unfold wellFormed, core. wf_core. Qed.

Lemma wellFormed_run (closure : State -> Render) (events : list Event) :
  wellFormed (run closure init events).
Proof.
  apply run_invariant; [apply wellFormed_step|apply wellFormed_init].
Qed.

(** X6: in every state the component reaches, the processing and playing
    flags it displays (and disables the button by) equal the refs its
    callbacks test. *)
Theorem X6_displayed_flags_mirror_refs (closure : State -> Render)
    (events : list Event) :
  isProcessing (run closure init events)
  = isProcessingRef (run closure init events)
  /\ isPlayingTTS (run closure init events)
     = isPlayingTTSRef (run closure init events).
Proof.
  pose proof (wellFormed_run closure events) as H.
  unfold wellFormed, core in H. cbn in H.
  destruct H as (_ & Hp & Hq & _). auto.
Qed.

(** X7: in every state the component reaches, the timer ref never holds a
    handle that has fired, and a pending countdown finds, when it fires, a
    buffer to send and no turn in progress: the timeout clears the countdown
    and the buffer, and either puts one request in flight (1000 bytes or
    more) or rejects the payload with an error and a new session. *)
Theorem X7_fired_countdown_dispatches (closure : State -> Render)
    (events : list Event) :
  let s := run closure init events in
  silenceTimerRef s <> Some Fired
  /\ (silenceTimerRef s = Some Pending ->
      chunksRef s <> [] /\ isProcessingRef s = false
      /\ isPlayingTTSRef s = false
      /\ let s' := step closure s SilenceTimeout in
         silenceTimerRef s' = None /\ chunksRef s' = []
         /\ (((1000 <= blobSize (chunksRef s))%N
              /\ inFlight s' = 1
              /\ fetchLog s'
                 = fetchLog s ++ [buildRequest (closure s) (chunksRef s)])
             \/ ((blobSize (chunksRef s) < 1000)%N
                 /\ error s' <> [] /\ fetchLog s' = fetchLog s
                 /\ currentRecordingSessionRef s'
                    = S (currentRecordingSessionRef s)))).
Proof.
  intros s. pose proof (wellFormed_run closure events) as H. fold s in H.
  unfold wellFormed, core in H. cbn in H.
  destruct H as (Hone & _ & _ & Hfired & Hpend & _).
  split; [exact Hfired|]. intros Etm.
  destruct (Hpend Etm) as (Hc & Epr & Eqr).
  repeat (split; [assumption|]).
  assert (Ht : tasks s = []).
  { destruct Hone as [H|(t & _ & H)]; [exact H|congruence]. }
  cbn [step]. rewrite Etm.
  destruct (N.lt_ge_cases (blobSize (chunksRef s)) 1000) as [Hlt|Hge].
  - rewrite (sendCurrentAudio_small (closure s)
               (set_silenceTimerRef (Some Fired) s) Hc Epr Hlt).
    rewrite catchBlock_eq, startNewRecordingSession_eq. cbn.
    split; [reflexivity|]. split; [reflexivity|]. right.
    split; [exact Hlt|]. split; [apply error_prefix_nonempty|].
    split; [reflexivity|]. apply Nat.add_1_r.
  - rewrite (sendCurrentAudio_sent (closure s)
               (set_silenceTimerRef (Some Fired) s) Hc Epr Hge).
    cbn. split; [reflexivity|]. split; [reflexivity|]. left.
    split; [exact Hge|]. split; [|reflexivity].
    unfold inFlight. cbn. rewrite Ht. reflexivity.
Qed.

(** The countdown of [short_pending_state] fires on 600 bytes: no request, the
    next session. *)
Lemma X7_fired_countdown_witness :
  silenceTimerRef short_pending_state = Some Pending
  /\ chunksRef short_pending_state <> []
  /\ chunksRef (step mount_closure short_pending_state SilenceTimeout) = [].
Proof.
  destruct (X7_fired_countdown_dispatches mount_closure
              [start_ok 1000; DataAvailable 1 300; Tick loud;
               DataAvailable 1 300; Tick quiet]) as (_ & H).
  destruct (H eq_refl) as (Hc & _ & _ & _ & Hempty & _).
  split; [reflexivity|]. split; [exact Hc|exact Hempty].
Defined.

Lemma remainingSeconds_bounds (t : N) :
  (t <= SILENCE_DURATION)%N ->
  (0 <= remainingSeconds t <= 2)%Z
  /\ (remainingSeconds t = 0%Z <-> t = SILENCE_DURATION).
Proof.
  unfold remainingSeconds, SILENCE_DURATION. intros H.
  pose proof (Z.div_mod (Z.of_N t - Z.of_N 1500) 1000) as Hdm.
  pose proof (Z.mod_pos_bound (Z.of_N t - Z.of_N 1500) 1000) as Hb.
  set (q := ((Z.of_N t - Z.of_N 1500) / 1000)%Z) in *.
  set (r := ((Z.of_N t - Z.of_N 1500) mod 1000)%Z) in *.
  lia.
Qed.

(** X8: in every state the component reaches, the displayed countdown is at
    most the silence duration of 1500 ms, so the seconds shown as remaining
    are 0, 1 or 2, and 0 only when the countdown is complete. *)
Theorem X8_countdown_display_bounded (closure : State -> Render)
    (events : list Event) :
  let s := run closure init events in
  (silenceTimer s <= SILENCE_DURATION)%N
  /\ (0 <= remainingSeconds (silenceTimer s) <= 2)%Z
  /\ (remainingSeconds (silenceTimer s) = 0%Z
      <-> silenceTimer s = SILENCE_DURATION).
Proof.
  intros s. pose proof (wellFormed_run closure events) as H. fold s in H.
  unfold wellFormed, core in H. cbn in H.
  destruct H as (_ & _ & _ & _ & _ & Hst & _).
  split; [exact Hst|]. apply remainingSeconds_bounds, Hst.
Qed.

(** ** The timer calls the first render's [sendCurrentAudio] *)

Lemma Forall_remove_nth {A : Type} (P : A -> Prop) (i : nat) (l : list A) :
  Forall P l -> Forall P (remove_nth i l).
Proof.
  intros H. revert i. induction H as [|x l Hx Hl IH]; intros i.
  - destruct i; constructor.
  - destruct i as [|i]; cbn; [exact Hl|]. constructor; [exact Hx|apply IH].
Qed.

Lemma Forall_nth_error {A : Type} (P : A -> Prop) (i : nat) (l : list A)
    (x : A) :
  Forall P l -> nth_error l i = Some x -> P x.
Proof.
  intros H E. apply nth_error_In in E. rewrite Forall_forall in H. auto.
Qed.

Lemma stale_same (s s' : State) : story s' = story s -> stale s -> stale s'.
Proof. unfold stale. intros ->. auto. Qed.

Lemma story_catchBlock (e : Thrown) (s : State) :
  story (catchBlock e s) = story s.
Proof. rewrite catchBlock_eq, startNewRecordingSession_eq. reflexivity. Qed.

Lemma story_onPlaybackOver (s : State) : story (onPlaybackOver s) = story s.
Proof. rewrite onPlaybackOver_eq, startNewRecordingSession_eq. reflexivity. Qed.

Lemma story_afterSaveTranscript (r : Render) (data : ApiData) (now : N)
    (s : State) :
  exists u ts,
    story (afterSaveTranscript r data now s)
    = (r_conversationHistory r
         ++ [mkTurn user u now;
             mkTurn assistant (option_default (d_text data)) now],
       updateInterviewPhase
         (r_conversationHistory r
            ++ [mkTurn user u now;
                mkTurn assistant (option_default (d_text data)) now]),
       tasks s ++ ts, fetchLog s)
    /\ Forall fromMount ts.
Proof.
  unfold afterSaveTranscript, finallyBlock.
  exists (if truthy (d_transcript data)
          then option_default (d_transcript data) else js "[Audio message]").
  destruct (truthy (d_audio data) && truthy (d_mimeType data)).
  - exists [AwaitPlay].
    destruct (truthy (d_transcript data)); cbn;
      (split; [reflexivity|repeat constructor]).
  - exists []. rewrite startNewRecordingSession_eq.
    destruct (truthy (d_transcript data)); cbn; rewrite app_nil_r;
      (split; [reflexivity|constructor]).
Qed.

Lemma stale_afterSaveTranscript (data : ApiData) (now : N) (s : State) :
  Forall fromMount (tasks s) -> Forall mountRequest (fetchLog s) ->
  stale (afterSaveTranscript mount_render data now s).
Proof.
  intros Ht Hl.
  destruct (story_afterSaveTranscript mount_render data now s)
    as (u & ts & E & Hts).
  unfold stale. rewrite E. cbn.
  split; [reflexivity|]. split; [lia|]. split; [lia|].
  split; [apply Forall_app; auto|exact Hl].
Qed.

Lemma stale_step (s : State) (e : Event) :
  stale s -> stale (step mount_closure s e).
Proof.
  intros Hs. pose proof Hs as Hs0. unfold stale, story in Hs. cbn in Hs.
  destruct Hs as (Hp & Hlen & Hu & Ht & Hl).
  destruct e as [u m now|d|tag size| | |el|i o now| |]; cbn [step].
  - destruct (isProcessing s); [exact Hs0|].
    unfold toggleRecording. destruct (isActive s).
    + apply (stale_same s); [|exact Hs0].
      unfold stopRealTimeRecording. rewrite cleanup_eq.
      destruct (sessionStartTime s) as [t|] eqn:Et; cbn; rewrite ?Et; cbn;
        [destruct (0 <? sessionMinutes t now)%N; reflexivity|reflexivity].
    + unfold startRealTimeRecording, handleInitialAIGreeting.
      destruct u as [|cu pl|];
        [unfold stale, story; cbn; repeat split; auto; lia ..|].
      destruct m; [|unfold stale, story; cbn; repeat split; auto; lia].
      unfold stale, story. rewrite startNewRecordingSession_eq. cbn.
      repeat split; auto.
  - destruct (analysisIntervalRef s); [|exact Hs0].
    apply (stale_same s); [|exact Hs0]. unfold analyzeAudio.
    destruct (negb (analyserRef s) || isProcessingRef s || isPlayingTTSRef s);
      [reflexivity|].
    destruct (aboveThreshold d); [reflexivity|]. cbn.
    match goal with
    | |- context [if ?b then _ else _] => destruct b
    end; reflexivity.
  - apply (stale_same s); [|exact Hs0]. unfold ondataavailable.
    match goal with
    | |- context [if ?b then _ else _] => destruct b
    end; reflexivity.
  - exact Hs0.
  - destruct (silenceTimerRef s) as [[|]|]; try exact Hs0.
    unfold mount_closure.
    destruct (sendCurrentAudio_cases mount_render
                (set_silenceTimerRef (Some Fired) s))
      as [->|(_ & _ & [(_ & ->)|(_ & ->)])].
    + exact Hs0.
    + apply (stale_same s); [|exact Hs0]. rewrite story_catchBlock.
      reflexivity.
    + unfold stale, story. cbn.
      split; [exact Hp|]. split; [exact Hlen|]. split; [exact Hu|].
      split; apply Forall_app; split; auto; repeat constructor.
  - exact Hs0.
  - destruct (nth_error (tasks s) i) as [t|] eqn:En; [|exact Hs0].
    pose proof (Forall_nth_error _ _ _ _ Ht En) as Hm.
    pose proof (Forall_remove_nth _ i _ Ht) as Hrest.
    assert (Hc : forall err,
      stale (catchBlock err (set_tasks (remove_nth i (tasks s)) s))).
    { intros err. unfold stale. rewrite story_catchBlock. cbn. auto. }
    destruct t as [r req|r data|], o as [fo| |err]; cbn [resume];
      try exact Hs0; try apply Hc; cbn in Hm; subst.
    + unfold afterFetch. destruct fo as [err|st tx|err|data]; try apply Hc.
      destruct (truthy (d_text data)); cbn [negb]; [|apply Hc].
      destruct (truthy (d_transcript data)).
      * unfold stale, story. cbn.
        split; [exact Hp|]. split; [exact Hlen|]. split; [exact Hu|].
        split; [|exact Hl]. apply Forall_app. split; [exact Hrest|].
        repeat constructor.
      * apply stale_afterSaveTranscript; cbn; assumption.
    + apply stale_afterSaveTranscript; cbn; assumption.
    + unfold stale, story, finallyBlock. cbn. auto.
  - destruct (currentAudioRef s); [|exact Hs0].
    apply (stale_same s); [apply story_onPlaybackOver|exact Hs0].
  - destruct (currentAudioRef s); [|exact Hs0].
    apply (stale_same s); [apply story_onPlaybackOver|exact Hs0].
Qed.

Lemma stale_init : stale init.
Proof. unfold stale, story. cbn. repeat split; auto. Qed.

(** X9: the silence timer calls the [sendCurrentAudio] of the first render
    ([analyzeAudio] is memoised with an empty dependency list and is its only
    caller).  So in every state the component reaches the interview phase is
    still [introduction], the stored history has at most two turns and at
    most one of the candidate, and every request that was made carries the
    prompt and the context of the empty history, the introduction phase and
    the empty sheet. *)
Theorem X9_requests_carry_the_first_render (events : list Event) :
  let s := run mount_closure init events in
  interviewPhase s = introduction
  /\ List.length (conversationHistory s) <= 2
  /\ userMessageCount (conversationHistory s) <= 1
  /\ forall req, In req (fetchLog s) ->
       req_systemPrompt req = createSystemPrompt mount_render
       /\ ctx_history (req_context req) = []
       /\ ctx_phase (req_context req) = introduction
       /\ ctx_candidateInfo (req_context req) = emptyCandidateInfo
       /\ ctx_totalExchanges (req_context req) = 0
       /\ ctx_formattedHistory (req_context req)
          = js "まだ会話が始まっていません。".
Proof.
  intros s.
  assert (H : stale s).
  { apply run_invariant; [apply stale_step|apply stale_init]. }
  unfold stale, story in H. cbn in H.
  destruct H as (Hp & Hlen & Hu & _ & Hl).
  split; [exact Hp|]. split; [exact Hlen|]. split; [exact Hu|].
  intros req Hin. rewrite Forall_forall in Hl. specialize (Hl req Hin).
  unfold mountRequest in Hl. rewrite Hl. cbn. repeat split; reflexivity.
Qed.

(** The request of the second utterance, made after a completed round trip,
    still carries the empty history. *)
Lemma X9_first_render_witness :
  List.length (fetchLog (run mount_closure init second_utterance)) = 2
  /\ forall req,
       In req (fetchLog (run mount_closure init second_utterance)) ->
       ctx_history (req_context req) = [].
Proof.
  split; [reflexivity|]. intros req Hin.
  destruct (X9_requests_carry_the_first_render second_utterance)
    as (_ & _ & _ & H).
  exact (proj1 (proj2 (H req Hin))).
Defined.

(** ** The devices of an active interview *)

Lemma rigged_session (s s' : State) :
  isActive s' = isActive s ->
  analysisIntervalRef s' = analysisIntervalRef s ->
  streamRef s' = streamRef s -> audioContextRef s' = audioContextRef s ->
  analyserRef s' = analyserRef s ->
  sessionStartTime s' = sessionStartTime s ->
  currentRecordingSessionRef s' = currentRecordingSessionRef s + 1 ->
  mediaRecorderRef s' = recorderAfterStart s ->
  isActive s = true -> rigged s -> rigged s'.
Proof.
  intros Ea Ei Es Ec Ean Et Eid Erec Hact (Hi & Hon & _).
  destruct (Hon Hact) as (Hs & Hc & Han & _ & _ & Hst).
  unfold rigged. rewrite Ea, Ei, Es, Ec, Ean, Et, Eid, Erec, Hact.
  split; [rewrite <- Hact; exact Hi|]. split; [|discriminate].
  intros _. unfold recorderAfterStart. rewrite Hs, Hc. cbn.
  repeat split; auto. lia.
Qed.

Lemma rigged_kept (s s' : State) :
  isActive s' = isActive s ->
  analysisIntervalRef s' = analysisIntervalRef s ->
  streamRef s' = streamRef s -> audioContextRef s' = audioContextRef s ->
  analyserRef s' = analyserRef s ->
  sessionStartTime s' = sessionStartTime s ->
  currentRecordingSessionRef s' = currentRecordingSessionRef s ->
  mediaRecorderRef s' = mediaRecorderRef s ->
  (isActive s = false ->
   tasks s' = [] /\ silenceTimerRef s' = None /\ currentAudioRef s' = None
   /\ isProcessingRef s' = false /\ isPlayingTTSRef s' = false) ->
  rigged s -> rigged s'.
Proof.
  intros Ea Ei Es Ec Ean Et Eid Erec Hoff (Hi & Hon & Hidle).
  unfold rigged. rewrite Ea, Ei, Es, Ec, Ean, Et, Eid, Erec.
  split; [exact Hi|]. split; [exact Hon|].
  intros Hact. destruct (Hidle Hact) as (_ & _ & _ & _ & _ & H).
  destruct (Hoff Hact) as (H1 & H2 & H3 & H4 & H5).
  repeat (split; [assumption|]). exact H.
Qed.

Lemma rigged_catchBlock (e : Thrown) (s : State) :
  isActive s = true -> rigged s -> rigged (catchBlock e s).
Proof.
  intros Hact. apply rigged_session; auto;
    rewrite catchBlock_eq, startNewRecordingSession_eq; reflexivity.
Qed.

Lemma rigged_afterSaveTranscript (r : Render) (data : ApiData) (now : N)
    (s : State) :
  isActive s = true -> rigged s -> rigged (afterSaveTranscript r data now s).
Proof.
  intros Hact. unfold afterSaveTranscript, finallyBlock.
  destruct (truthy (d_audio data) && truthy (d_mimeType data)).
  - apply rigged_kept;
      try (destruct (truthy (d_transcript data)); reflexivity).
    rewrite Hact. discriminate.
  - apply rigged_session; auto; rewrite startNewRecordingSession_eq;
      destruct (truthy (d_transcript data)); reflexivity.
Qed.

Lemma rigged_step (closure : State -> Render) (s : State) (e : Event) :
  wellFormed s -> rigged s -> rigged (step closure s e).
Proof.
  intros Hwf Hr. pose proof Hr as Hr0.
  unfold wellFormed, core in Hwf. cbn in Hwf.
  destruct Hwf as (Hone & Hp & _).
  destruct Hr as (Hi & Hon & Hidle).
  destruct e as [u m now|d|tag size| | |el|i o now| |]; cbn [step].
  - (* the button *)
    destruct (isProcessing s) eqn:Eproc; [exact Hr0|].
    unfold toggleRecording. destruct (isActive s) eqn:Hact.
    + assert (Ht : tasks s = []).
      { destruct Hone as [H|(t & _ & H)]; [exact H|congruence]. }
      destruct (stopRealTimeRecording_fields now s)
        as (Ha & _ & _ & Hpr & Hqr & _ & Htm & _ & Hiv & Hau & Hid & Hrec & Hst
            & Hts & _).
      unfold rigged. rewrite Ha, Hiv, Hts, Htm, Hau, Hpr, Hqr, Hid, Hrec, Hst, Ht.
      split; [reflexivity|]. split; [discriminate|]. intros _.
      repeat (split; [reflexivity|]).
      destruct (mediaRecorderRef s); discriminate.
    + destruct (Hidle eq_refl) as (Ht & Htm & Hau & Hpr & Hqr & Hid & Hst & Hrec).
      unfold startRealTimeRecording, handleInitialAIGreeting.
      destruct u as [|cu pl|];
        [apply (rigged_kept s); auto; intros _; cbn; auto ..|].
      destruct m; [|apply (rigged_kept s); auto; intros _; cbn; auto].
      unfold rigged. rewrite startNewRecordingSession_eq. cbn.
      split; [reflexivity|]. split; [|discriminate]. intros _.
      unfold recorderAfterStart. cbn. rewrite Hid.
      repeat split; auto. discriminate.
  - (* a sample *)
    destruct (analysisIntervalRef s) eqn:Eiv; [|exact Hr0].
    assert (Hact : isActive s = true) by congruence.
    unfold analyzeAudio.
    destruct (negb (analyserRef s) || isProcessingRef s || isPlayingTTSRef s);
      [exact Hr0|].
    apply (rigged_kept s); auto;
      try (destruct (aboveThreshold d); [reflexivity|]; cbn;
           match goal with
           | |- context [if ?b then _ else _] => destruct b
           end; reflexivity).
    rewrite Hact. discriminate.
  - (* a chunk *)
    destruct (ondataavailable_cases tag size s)
      as [(_ & _ & _ & _ & ->)|(_ & ->)]; [|exact Hr0].
    apply (rigged_kept s); auto. intros Hact. cbn.
    destruct (Hidle Hact) as (H1 & H2 & H3 & H4 & H5 & _). auto.
  - apply (rigged_kept s); auto. intros Hact. cbn.
    destruct (Hidle Hact) as (H1 & H2 & H3 & H4 & H5 & _). auto.
  - (* the timeout *)
    destruct (silenceTimerRef s) as [[|]|] eqn:Etm; try exact Hr0.
    assert (Hact : isActive s = true).
    { destruct (isActive s) eqn:E; [reflexivity|].
      destruct (Hidle eq_refl) as (_ & H & _). discriminate. }
    assert (Hr1 : rigged (set_silenceTimerRef (Some Fired) s)).
    { apply (rigged_kept s); auto. rewrite Hact. discriminate. }
    destruct (sendCurrentAudio_cases (closure s)
                (set_silenceTimerRef (Some Fired) s))
      as [->|(_ & _ & [(_ & ->)|(_ & ->)])].
    + exact Hr1.
    + apply rigged_catchBlock; [exact Hact|].
      apply (rigged_kept (set_silenceTimerRef (Some Fired) s)); auto.
      cbn. rewrite Hact. discriminate.
    + apply (rigged_kept (set_silenceTimerRef (Some Fired) s)); auto.
      cbn. rewrite Hact. discriminate.
  - apply (rigged_kept s); auto. intros Hact. cbn.
    destruct (Hidle Hact) as (H1 & H2 & H3 & H4 & H5 & _). auto.
  - (* a settlement *)
    destruct (nth_error (tasks s) i) as [t|] eqn:En; [|exact Hr0].
    assert (Hact : isActive s = true).
    { destruct (isActive s) eqn:E; [reflexivity|].
      destruct (Hidle eq_refl) as (H & _). rewrite H in En.
      destruct i; discriminate. }
    assert (Hr1 : rigged (set_tasks (remove_nth i (tasks s)) s)).
    { apply (rigged_kept s); auto. rewrite Hact. discriminate. }
    destruct t as [r req|r data|], o as [fo| |err]; cbn [resume];
      try exact Hr0;
      try (apply rigged_catchBlock; [exact Hact|exact Hr1]);
      try (apply rigged_afterSaveTranscript; [exact Hact|exact Hr1]).
    + unfold afterFetch. destruct fo as [err|st tx|err|data];
        try (apply rigged_catchBlock; [exact Hact|exact Hr1]).
      destruct (truthy (d_text data)); cbn [negb];
        [|apply rigged_catchBlock; [exact Hact|exact Hr1]].
      destruct (truthy (d_transcript data)).
      * apply (rigged_kept s); auto. rewrite Hact. discriminate.
      * apply rigged_afterSaveTranscript; [exact Hact|].
        apply (rigged_kept s); auto. rewrite Hact. discriminate.
    + apply (rigged_kept s); auto. rewrite Hact. discriminate.
  - (* the end of the playback *)
    destruct (currentAudioRef s) eqn:Eau; [|exact Hr0].
    assert (Hact : isActive s = true).
    { destruct (isActive s) eqn:E; [reflexivity|].
      destruct (Hidle eq_refl) as (_ & _ & H & _). congruence. }
    apply (rigged_session s); auto;
      rewrite onPlaybackOver_eq, startNewRecordingSession_eq; reflexivity.
  - destruct (currentAudioRef s) eqn:Eau; [|exact Hr0].
    assert (Hact : isActive s = true).
    { destruct (isActive s) eqn:E; [reflexivity|].
      destruct (Hidle eq_refl) as (_ & _ & H & _). congruence. }
    apply (rigged_session s); auto;
      rewrite onPlaybackOver_eq, startNewRecordingSession_eq; reflexivity.
Qed.

Lemma rigged_init : rigged init.
Proof.
  unfold rigged. cbn. split; [reflexivity|]. split; [discriminate|].
  intros _. repeat split; discriminate.
Qed.

Lemma rigged_run (closure : State -> Render) (events : list Event) :
  rigged (run closure init events).
Proof.
  assert (H : wellFormed (run closure init events)
              /\ rigged (run closure init events)).
  { apply (run_invariant (fun s => wellFormed s /\ rigged s)).
    - intros s e (Hw & Hr). split; [apply wellFormed_step, Hw|].
      apply rigged_step; assumption.
    - split; [apply wellFormed_init|apply rigged_init]. }
  apply H.
Qed.



(** ** An utterance is dispatched *)

Lemma blobSize_app (l : list Blob) (c : N) :
  blobSize (l ++ [c]) = (blobSize l + c)%N.
Proof.
  unfold blobSize. induction l as [|b l IH]; cbn; [lia|]. rewrite IH. lia.
Qed.

Lemma analyzeAudio_speaking (dataArray : list N) (s : State) :
  analyserRef s = true -> isProcessingRef s = false ->
  isPlayingTTSRef s = false -> aboveThreshold dataArray = true ->
  analyzeAudio dataArray s
  = set_previousSpeakingStateRef true
      (setSilenceTimer 0
         (set_silenceTimerRef None
            (setHasSpokenInCurrentSession true
               (set_hasSpokenInCurrentSessionRef true (setIsSpeaking true s))))).
Proof.
  intros Han Hpr Hqr Hsp. unfold analyzeAudio.
  rewrite Han, Hpr, Hqr, Hsp. reflexivity.
Qed.

Lemma analyzeAudio_silent (dataArray : list N) (s : State) :
  analyserRef s = true -> isProcessingRef s = false ->
  isPlayingTTSRef s = false -> aboveThreshold dataArray = false ->
  hasSpokenInCurrentSessionRef s = true -> previousSpeakingStateRef s = true ->
  chunksRef s <> [] -> silenceTimerRef s = None ->
  analyzeAudio dataArray s
  = set_previousSpeakingStateRef false
      (setSilenceTimer (N.min 0 SILENCE_DURATION)
         (set_silenceTimerRef (Some Pending) (setIsSpeaking false s))).
Proof.
  intros Han Hpr Hqr Hsi Hsp Hprev Hc Htm. unfold analyzeAudio.
  rewrite Han, Hpr, Hqr, Hsi. cbn. rewrite Hsp, Hprev, Htm, Hpr, Hqr.
  destruct (chunksRef s); [congruence|reflexivity].
Qed.

Lemma ondataavailable_kept (sessionId : nat) (size : N) (s : State) :
  isProcessingRef s = false -> isPlayingTTSRef s = false -> (0 < size)%N ->
  sessionId = currentRecordingSessionRef s ->
  ondataavailable sessionId size s = set_chunksRef (chunksRef s ++ [size]) s.
Proof.
  intros Hpr Hqr Hc ->. unfold ondataavailable.
  apply N.ltb_lt in Hc. rewrite Hc, Hpr, Hqr, Nat.eqb_refl. reflexivity.
Qed.

Lemma heard_states (closure : State -> Render) (s : State)
    (speaking silent : list N) (chunk : N) :
  analysisIntervalRef s = true -> analyserRef s = true ->
  isProcessingRef s = false -> isPlayingTTSRef s = false ->
  aboveThreshold speaking = true -> aboveThreshold silent = false ->
  (0 < chunk)%N ->
  exists s3,
    run closure s [Tick speaking;
                   DataAvailable (currentRecordingSessionRef s) chunk;
                   Tick silent]
    = s3
    /\ silenceTimerRef s3 = Some Pending
    /\ chunksRef s3 = chunksRef s ++ [chunk]
    /\ isProcessingRef s3 = false
    /\ tasks s3 = tasks s /\ fetchLog s3 = fetchLog s
    /\ currentRecordingSessionRef s3 = currentRecordingSessionRef s
    /\ isActive s3 = isActive s
    /\ isPlayingTTSRef s3 = false
    /\ conversationHistory s3 = conversationHistory s
    /\ interviewPhase s3 = interviewPhase s
    /\ candidateInfo s3 = candidateInfo s.
Proof.
  intros Hiv Han Hpr Hqr Hsp Hsi Hc.
  eexists. split; [reflexivity|].
  unfold run. cbn [fold_left step]. rewrite Hiv.
  rewrite (analyzeAudio_speaking speaking s Han Hpr Hqr Hsp).
  rewrite ondataavailable_kept; [|exact Hpr|exact Hqr|exact Hc|reflexivity].
  cbn [analysisIntervalRef set_chunksRef set_previousSpeakingStateRef
       setSilenceTimer set_silenceTimerRef setHasSpokenInCurrentSession
       set_hasSpokenInCurrentSessionRef setIsSpeaking chunksRef].
  rewrite Hiv.
  rewrite analyzeAudio_silent; cbn; auto 15.
  destruct (chunksRef s); discriminate.
Qed.

(** X11: in a state the component reaches with the interview active and no
    turn processed or played, a speaking sample, a non-empty chunk of the
    current recorder, a silent sample and the end of the countdown dispatch
    the buffer with the new chunk at its end: with 1000 bytes or more, as the
    audio of one new request, the component now processing; with fewer, no
    request is made, an error is shown and the next session records. *)
Theorem X11_utterance_is_dispatched (closure : State -> Render)
    (events : list Event) (speaking silent : list N) (chunk : N) :
  let s := run closure init events in
  isActive s = true -> isProcessingRef s = false -> isPlayingTTSRef s = false ->
  aboveThreshold speaking = true -> aboveThreshold silent = false ->
  (0 < chunk)%N ->
  let s' := run closure s
              (heard speaking silent (currentRecordingSessionRef s) chunk) in
  chunksRef s' = []
  /\ ((1000 <= blobSize (chunksRef s) + chunk)%N ->
      mode s' = Processing /\ inFlight s' = 1
      /\ exists req,
           fetchLog s' = fetchLog s ++ [req]
           /\ req_audio req = chunksRef s ++ [chunk])
  /\ ((blobSize (chunksRef s) + chunk < 1000)%N ->
      mode s' = Recording /\ fetchLog s' = fetchLog s /\ error s' <> []
      /\ currentRecordingSessionRef s' = S (currentRecordingSessionRef s)).
Proof.
  intros s Hact Hpr Hqr Hsp Hsi Hc s'.
  destruct (rigged_run closure events) as (Hiv & Hon & _). fold s in Hiv, Hon.
  destruct (Hon Hact) as (_ & _ & Han & _).
  rewrite Hact in Hiv.
  assert (Ht : tasks s = []).
  { pose proof (wellFormed_run closure events) as Hwf. fold s in Hwf.
    unfold wellFormed, core in Hwf. cbn in Hwf.
    destruct Hwf as ([H|(t & _ & H)] & _); [exact H|congruence]. }
  destruct (heard_states closure s speaking silent chunk Hiv Han Hpr Hqr Hsp
              Hsi Hc)
    as (s3 & Erun & Etm & Ech & Epr3 & Ets & Elog & Eid & Eact & Eqr3 & _).
  assert (Es' : s' = step closure s3 SilenceTimeout).
  { unfold s', heard. rewrite <- Erun. reflexivity. }
  assert (Hne : chunksRef (set_silenceTimerRef (Some Fired) s3) <> []).
  { cbn. rewrite Ech. destruct (chunksRef s); discriminate. }
  rewrite Es'. cbn [step]. rewrite Etm.
  destruct (N.lt_ge_cases (blobSize (chunksRef s3)) 1000) as [Hlt|Hge].
  - rewrite (sendCurrentAudio_small (closure s3)
               (set_silenceTimerRef (Some Fired) s3) Hne Epr3 Hlt).
    rewrite Ech, blobSize_app in Hlt.
    rewrite catchBlock_eq, startNewRecordingSession_eq. cbn.
    split; [reflexivity|]. split; [lia|]. intros _.
    unfold mode. cbn. rewrite Eact, Hact, Eqr3. cbn.
    split; [reflexivity|]. split; [exact Elog|].
    split; [apply error_prefix_nonempty|]. rewrite Eid. apply Nat.add_1_r.
  - rewrite (sendCurrentAudio_sent (closure s3)
               (set_silenceTimerRef (Some Fired) s3) Hne Epr3 Hge).
    cbn. rewrite Ech, blobSize_app in Hge.
    split; [reflexivity|]. split; [|lia]. intros _.
    unfold mode, inFlight. cbn. rewrite Eact, Hact, Eqr3, Ets, Ht, Elog, Ech.
    cbn. split; [reflexivity|]. split; [reflexivity|].
    eexists. split; reflexivity.
Qed.

(** An utterance of 4000 bytes right after the start. *)
Lemma X11_utterance_witness :
  mode (run mount_closure (run mount_closure init [start_ok 1000])
            (heard loud quiet 1 4000)) = Processing.
Proof.
  destruct (X11_utterance_is_dispatched mount_closure [start_ok 1000] loud
              quiet 4000 eq_refl eq_refl eq_refl eq_refl eq_refl eq_refl)
    as (_ & H & _).
  refine (proj1 (H _)). vm_compute. discriminate.
Defined.

(** ** What the fact sheet is filled with *)

Lemma fill_idempotent (min : nat) (patterns : list pattern) (t : jsstring)
    (prev : option jsstring) :
  let fill x :=
    if negb (truthy x) then or_keep (first_capture min patterns t) x else x in
  fill (fill prev) = fill prev.
Proof.
  cbv beta zeta.
  destruct (truthy prev) eqn:Hp; cbn [negb]; [rewrite Hp; reflexivity|].
  destruct (first_capture min patterns t) as [v|] eqn:Hf; cbn [or_keep].
  - rewrite (first_capture_nonempty _ _ _ _ Hf). reflexivity.
  - rewrite Hp. reflexivity.
Qed.

Lemma fill_skills_idempotent (t : jsstring) (prev : option (list jsstring)) :
  let fill x :=
    if skills_missing x
    then or_keep (option_map (fun v => [v]) (first_capture 3 skillsPatterns t)) x
    else x in
  fill (fill prev) = fill prev.
Proof.
  cbv beta zeta.
  destruct (skills_missing prev) eqn:Hp; [|rewrite Hp; reflexivity].
  destruct (first_capture 3 skillsPatterns t) as [v|];
    cbn [or_keep option_map skills_missing];
    [reflexivity|rewrite Hp; reflexivity].
Qed.

(** X12: the update of the fact sheet does not read the interviewer's reply,
    and a second update from the same transcript changes nothing: what a
    transcript gives, it gives the first time. *)
Theorem X12_fact_update_is_idempotent (aiResponse aiResponse' t : jsstring)
    (c : CandidateInfo) :
  updateCandidateInfo aiResponse' t c = updateCandidateInfo aiResponse t c
  /\ updateCandidateInfo aiResponse' t (updateCandidateInfo aiResponse t c)
     = updateCandidateInfo aiResponse t c.
Proof.
  split; [reflexivity|].
  unfold updateCandidateInfo. cbn [ci_name ci_experience ci_skills ci_interests
    ci_university ci_company].
  rewrite (fill_idempotent 0 namePatterns t (ci_name c)).
  rewrite (fill_idempotent 2 universityPatterns t (ci_university c)).
  rewrite (fill_idempotent 5 experiencePatterns t (ci_experience c)).
  rewrite (fill_idempotent 2 companyPatterns t (ci_company c)).
  rewrite (fill_skills_idempotent t (ci_skills c)).
  reflexivity.
Qed.

Lemma infix_refl (w : jsstring) : infix w w.
Proof. exists [], []. rewrite app_nil_r. reflexivity. Qed.

Lemma infix_nil (w : jsstring) : infix [] w.
Proof. exists [], w. reflexivity. Qed.

Lemma suffix_infix (s w : jsstring) : suffix s w -> infix s w.
Proof. intros (b & ->). exists b, []. rewrite app_nil_r. reflexivity. Qed.

Lemma infix_trans (x y w : jsstring) : infix x y -> infix y w -> infix x w.
Proof.
  intros (b1 & a1 & ->) (b2 & a2 & ->). exists (b2 ++ b1), (a1 ++ a2).
  rewrite <- !app_assoc. reflexivity.
Qed.

Lemma suffix_trans (x y w : jsstring) : suffix x y -> suffix y w -> suffix x w.
Proof.
  intros (b1 & ->) (b2 & ->). exists (b2 ++ b1). rewrite app_assoc. reflexivity.
Qed.

Lemma firstn_infix (n : nat) (x w : jsstring) : infix x w -> infix (firstn n x) w.
Proof.
  apply infix_trans. exists [], (skipn n x). cbn. symmetry.
  apply firstn_skipn.
Qed.

Lemma strip_prefix_Some (p s s' : jsstring) :
  strip_prefix p s = Some s' -> s = p ++ s'.
Proof.
  revert s. induction p as [|a p IH]; intros s H; cbn in H.
  - inversion H. reflexivity.
  - destruct s as [|b s]; [discriminate|].
    destruct (N.eqb_spec a b); [|discriminate]. subst.
    cbn. f_equal. apply IH, H.
Qed.

Lemma first_alt_Some {A : Type} (k : jsstring -> option A)
    (alts : list jsstring) (s : jsstring) (r : A) :
  first_alt k alts s = Some r -> exists s', suffix s' s /\ k s' = Some r.
Proof.
  induction alts as [|a alts IH]; cbn; [discriminate|].
  destruct (strip_prefix a s) as [s'|] eqn:Hp; [|exact IH].
  destruct (k s') as [r'|] eqn:Hk; [|exact IH].
  intros H. inversion H; subst. exists s'. split; [|exact Hk].
  exists a. apply strip_prefix_Some, Hp.
Qed.

Lemma lazy_plus_Some {A : Type} (k : jsstring -> option A) (s : jsstring)
    (r : A) :
  lazy_plus k s = Some r -> exists s', suffix s' s /\ k s' = Some r.
Proof.
  induction s as [|c s IH]; cbn; [discriminate|].
  destruct (isLineTerminator c); [discriminate|].
  destruct (k s) as [r'|] eqn:Hk.
  - intros H. inversion H; subst. exists s. split; [exists [c]; reflexivity|].
    exact Hk.
  - intros H. destruct (IH H) as (s' & Hs & Hk'). exists s'.
    split; [|exact Hk']. apply (suffix_trans _ s); [exact Hs|].
    exists [c]. reflexivity.
Qed.

Lemma go_infix (w : jsstring) (ts : pattern) :
  forall open_at cap s r,
    infix open_at w -> infix cap w -> suffix s w ->
    go ts open_at cap s = Some r -> infix r w.
Proof.
  induction ts as [|tk ts IH]; intros open_at cap s r Ho Hc Hs H; cbn in H.
  - inversion H; subst. exact Hc.
  - destruct tk as [alts| | |].
    + apply first_alt_Some in H. destruct H as (s' & Hs' & Hk).
      apply (IH open_at cap s'); auto. apply (suffix_trans _ s); assumption.
    + apply lazy_plus_Some in H. destruct H as (s' & Hs' & Hk).
      apply (IH open_at cap s'); auto. apply (suffix_trans _ s); assumption.
    + apply (IH s cap s); auto. apply suffix_infix, Hs.
    + apply (IH _ _ _ _ Ho (firstn_infix _ _ _ Ho) Hs H).
Qed.

Lemma regex_match_infix (p : pattern) (s c : jsstring) :
  regex_match p s = Some c -> infix c s.
Proof.
  assert (H : forall w, suffix s w -> regex_match p s = Some c -> infix c w).
  { induction s as [|x s IH]; intros w Hs; cbn.
    - destruct (go p [] [] []) as [c'|] eqn:Hg; [|discriminate].
      intros E. inversion E; subst.
      apply (go_infix w p [] [] []); auto using infix_nil.
    - destruct (go p [] [] (x :: s)) as [c'|] eqn:Hg.
      + intros E. inversion E; subst.
        apply (go_infix w p [] [] (x :: s)); auto using infix_nil.
      + apply IH. apply (suffix_trans _ (x :: s)); [|exact Hs].
        exists [x]. reflexivity. }
  apply H. exists []. reflexivity.
Qed.

Lemma trimStart_suffix (s : jsstring) : suffix (trimStart s) s.
Proof.
  induction s as [|c s IH]; cbn; [exists []; reflexivity|].
  destruct (isTrimmed c); [|exists []; reflexivity].
  apply (suffix_trans _ s); [exact IH|]. exists [c]. reflexivity.
Qed.

Lemma trim_infix (s : jsstring) : infix (trim s) s.
Proof.
  unfold trim. destruct (trimStart_suffix s) as (b1 & E1).
  destruct (trimStart_suffix (rev (trimStart s))) as (b2 & E2).
  exists b1, (rev b2).
  rewrite <- rev_app_distr, <- E2, rev_involutive. exact E1.
Qed.

Lemma trimStart_fixed (c : N) (s : jsstring) :
  isTrimmed c = false -> trimStart (c :: s) = c :: s.
Proof. intros H. cbn. rewrite H. reflexivity. Qed.

Lemma trimStart_snoc (l : jsstring) (c : N) :
  isTrimmed c = false -> trimStart (l ++ [c]) = trimStart l ++ [c].
Proof.
  intros H. induction l as [|x l IH]; cbn; [rewrite H; reflexivity|].
  destruct (isTrimmed x); [exact IH|reflexivity].
Qed.

Lemma trimStart_head (s : jsstring) :
  trimStart s = []
  \/ exists c rest, trimStart s = c :: rest /\ isTrimmed c = false.
Proof.
  induction s as [|c s IH]; cbn; [left; reflexivity|].
  destruct (isTrimmed c) eqn:E; [exact IH|]. right. exists c, s. auto.
Qed.

Lemma trimStart_idempotent (s : jsstring) :
  trimStart (trimStart s) = trimStart s.
Proof.
  destruct (trimStart_head s) as [E|(c & rest & E & Hc)]; rewrite E;
    [reflexivity|apply trimStart_fixed, Hc].
Qed.

Lemma trim_idempotent (s : jsstring) : trim (trim s) = trim s.
Proof.
  unfold trim.
  destruct (trimStart_head s) as [E|(c & rest & E & Hc)]; rewrite E.
  - reflexivity.
  - cbn [rev]. rewrite (trimStart_snoc _ _ Hc).
    rewrite rev_app_distr. cbn [rev app].
    rewrite (trimStart_fixed _ _ Hc).
    cbn [rev]. rewrite rev_involutive.
    rewrite (trimStart_snoc _ _ Hc), trimStart_idempotent.
    rewrite rev_app_distr. reflexivity.
Qed.

Lemma first_capture_piece (min : nat) (patterns : list pattern)
    (t v : jsstring) :
  first_capture min patterns t = Some v ->
  infix v t /\ trim v = v /\ min < List.length v.
Proof.
  intros H. apply first_capture_Some in H.
  destruct H as (_ & p & _ & _ & _ & (c & Hm & -> & Hlen)).
  split; [|split; [apply trim_idempotent|exact Hlen]].
  apply (infix_trans _ c); [apply trim_infix|].
  apply (regex_match_infix p), Hm.
Qed.

(** X13: whatever an update changes in the fact sheet was not populated
    before, and the value written is a piece of the candidate's transcript,
    with no white space at either end and longer than the minimum of its
    kind. *)
Theorem X13_facts_are_pieces_of_the_transcript (k : Kind)
    (aiResponse t : jsstring) (c : CandidateInfo) :
  fact k (updateCandidateInfo aiResponse t c) <> fact k c ->
  populated k c = false
  /\ exists v,
       fact k (updateCandidateInfo aiResponse t c) = Some [v]
       /\ infix v t /\ trim v = v /\ kindMin k < List.length v.
Proof.
  rewrite updateCandidateInfo_kind.
  destruct (populated k c); [congruence|].
  destruct (first_capture (kindMin k) (kindPatterns k) t) as [v|] eqn:Hf;
    cbn [or_keep option_map]; [|congruence].
  intros _. split; [reflexivity|]. exists v. split; [reflexivity|].
  apply (first_capture_piece _ _ _ _ Hf).
Qed.

(** The name found in [blank_then_name]. *)
Lemma X13_facts_witness :
  populated KName emptyCandidateInfo = false
  /\ exists v,
       fact KName (updateCandidateInfo [] blank_then_name emptyCandidateInfo)
       = Some [v]
       /\ infix v blank_then_name /\ trim v = v
       /\ kindMin KName < List.length v.
Proof.
  refine (X13_facts_are_pieces_of_the_transcript KName [] blank_then_name
            emptyCandidateInfo _).
  vm_compute. discriminate.
Defined.

(** ** The phase only advances *)

Lemma phaseRank_monotone (n m : nat) :
  n <= m -> phaseRank (phaseOfCount n) <= phaseRank (phaseOfCount m).
Proof.
  intros H. unfold phaseOfCount.
  repeat match goal with
         | |- context [?a <=? ?b] => destruct (Nat.leb_spec a b); try lia
         end; cbn; lia.
Qed.

Lemma phaseRank_step (n : nat) :
  phaseRank (phaseOfCount (S n)) <= S (phaseRank (phaseOfCount n)).
Proof.
  unfold phaseOfCount.
  repeat match goal with
         | |- context [?a <=? ?b] => destruct (Nat.leb_spec a b); try lia
         end; cbn; lia.
Qed.

Lemma userMessageCount_assistant (h : list Turn) :
  Forall (fun msg => role msg = assistant) h -> userMessageCount h = 0.
Proof.
  unfold userMessageCount. induction 1 as [|msg h Hm _ IH]; [reflexivity|].
  cbn. rewrite Hm. exact IH.
Qed.

(** X14: turns appended to a history never move the phase back; turns of the
    interviewer (the greeting among them) leave it where it is; and a turn of
    the candidate moves it at most to the next phase. *)
Theorem X14_phase_only_advances (h h' : list Turn) :
  phaseRank (updateInterviewPhase h)
  <= phaseRank (updateInterviewPhase (h ++ h'))
  /\ (Forall (fun msg => role msg = assistant) h' ->
      updateInterviewPhase (h ++ h') = updateInterviewPhase h
      /\ updateInterviewPhase (h' ++ h) = updateInterviewPhase h)
  /\ (userMessageCount h' <= 1 ->
      phaseRank (updateInterviewPhase (h ++ h'))
      <= S (phaseRank (updateInterviewPhase h))).
Proof.
  unfold updateInterviewPhase. rewrite !userMessageCount_app.
  split; [apply phaseRank_monotone; lia|]. split.
  - intros H. rewrite (userMessageCount_assistant h' H), Nat.add_0_r.
    split; reflexivity.
  - intros H. destruct (userMessageCount h') as [|[|n]]; [| |lia].
    + rewrite Nat.add_0_r. lia.
    + rewrite Nat.add_1_r. apply phaseRank_step.
Qed.

(** The greeting put before two exchanges. *)
Lemma X14_phase_witness :
  updateInterviewPhase (mkTurn assistant initialMessage 0 :: exchanges 2)
  = updateInterviewPhase (exchanges 2).
Proof.
  destruct (X14_phase_only_advances (exchanges 2)
              [mkTurn assistant initialMessage 0]) as (_ & H & _).
  refine (proj2 (H _)). repeat constructor.
Defined.

(** ** The persistence action *)

(** X15: [saveTranscript] asks the database for at most one row, and only
    for a signed-in user and a non-empty transcript: the row carries the
    transcript, the user and the interview given; and it resolves only with
    the id of a row the insert has returned. *)
Theorem X15_save_inserts_for_signed_in_users_only (auth : AuthAnswer)
    (insert : HistoryRow -> InsertAnswer) (now : N) (transcript : jsstring)
    (interviewId : option jsstring) :
  let rows := fst (saveTranscript auth insert now transcript interviewId) in
  let result := snd (saveTranscript auth insert now transcript interviewId) in
  (forall row, In row rows ->
     rows = [row]
     /\ row = mkHistoryRow transcript (row_user_id row) interviewId now
     /\ transcript <> [] /\ row_user_id row <> []
     /\ auth = AuthUser (Some (row_user_id row)))
  /\ (forall id, result = SaveOk id ->
        exists row rest, rows = [row] /\ insert row = InsertData (id :: rest))
  /\ (rows = [] -> exists e, result = SaveThrown e).
Proof.
  intros rows result. subst rows result. unfold saveTranscript.
  destruct auth as [e|[[|c uid]|]]; cbn [truthy negb fst snd];
    try (split; [intros row []|split; [discriminate|eexists; reflexivity]]).
  destruct transcript as [|t0 t]; cbn [nonEmpty negb fst snd];
    [split; [intros row []|split; [discriminate|eexists; reflexivity]]|].
  cbv zeta. cbn [option_default].
  set (row0 := mkHistoryRow (t0 :: t) (c :: uid) interviewId now).
  destruct (insert row0) as [message|[|id rest]] eqn:Hins; cbn [fst snd];
    (split; [intros row [<-|[]]; cbn; repeat split; discriminate|]);
    (split; [|discriminate]); try discriminate.
  intros id' E. inversion E; subst. exists row0, rest. auto.
Qed.

(** A signed-in user saves a transcript. *)
Lemma X15_save_witness :
  snd (saveTranscript (AuthUser (Some (js "user_1"))) insert_stub 5000
                      (js "I am Taro") None) = SaveOk 7
  /\ exists row rest,
       fst (saveTranscript (AuthUser (Some (js "user_1"))) insert_stub 5000
                           (js "I am Taro") None) = [row]
       /\ insert_stub row = InsertData (7%N :: rest).
Proof.
  split; [reflexivity|].
  destruct (X15_save_inserts_for_signed_in_users_only
              (AuthUser (Some (js "user_1"))) insert_stub 5000
              (js "I am Taro") None) as (_ & H & _).
  exact (H 7%N eq_refl).
Defined.

(** X16: while the component waits for [saveTranscript], the transcript it
    handed over is not empty, so for a signed-in user the insert is always
    reached; and when the save fails the turn is dropped: the history, the
    phase and the fact sheet stay as they were although the reply is already
    on display, the error shows the message, the processing flags are
    cleared and the next session records into an empty buffer. *)
Theorem X16_failed_save_drops_the_turn (closure : State -> Render)
    (events : list Event) (r : Render) (data : ApiData) (auth : AuthAnswer)
    (insert : HistoryRow -> InsertAnswer) (saved now : N)
    (interviewId : option jsstring) :
  let s := run closure init events in
  tasks s = [AwaitSaveTranscript r data] ->
  let transcript := option_default (d_transcript data) in
  let rows := fst (saveTranscript auth insert saved transcript interviewId) in
  let result := snd (saveTranscript auth insert saved transcript interviewId) in
  (forall uid, auth = AuthUser (Some uid) -> uid <> [] ->
     rows = [mkHistoryRow transcript uid interviewId saved])
  /\ (forall e, result = SaveThrown e ->
        let s' := step closure s (Settle 0 (saveSettlement result) now) in
        conversationHistory s' = conversationHistory s
        /\ interviewPhase s' = interviewPhase s
        /\ candidateInfo s' = candidateInfo s
        /\ response s' = response s
        /\ error s' = js "エラーが発生しました: " ++ errorMessage e
        /\ tasks s' = []
        /\ isProcessingRef s' = false /\ isProcessing s' = false
        /\ chunksRef s' = []
        /\ currentRecordingSessionRef s' = S (currentRecordingSessionRef s)).
Proof.
  intros s Ht transcript rows result.
  pose proof (wellFormed_run closure events) as Hwf. fold s in Hwf.
  unfold wellFormed, core in Hwf. cbn in Hwf.
  destruct Hwf as (_ & _ & _ & _ & _ & _ & Hsav).
  rewrite Ht in Hsav. inversion Hsav as [|? ? Hs1 _]; subst.
  cbn in Hs1. destruct Hs1 as (_ & Htr).
  split.
  - intros uid -> Huid. unfold rows, saveTranscript.
    destruct uid as [|c uid]; [congruence|]. cbn [truthy negb].
    fold transcript.
    assert (Hne : nonEmpty transcript = true).
    { unfold transcript. destruct (d_transcript data) as [[|]|];
        try discriminate. reflexivity. }
    rewrite Hne. cbn [negb].
    destruct (insert _) as [m|[|id rest]]; reflexivity.
  - intros e ->. cbn [saveSettlement step]. rewrite Ht. cbn [nth_error resume
      remove_nth].
    rewrite catchBlock_eq, startNewRecordingSession_eq. cbn.
    repeat split; auto. apply Nat.add_1_r.
Qed.

(** The save fails for a user who is not signed in. *)
Lemma X16_failed_save_witness :
  tasks (run mount_closure init saving)
  = [AwaitSaveTranscript mount_render reply_text_only]
  /\ conversationHistory
       (step mount_closure (run mount_closure init saving)
             (Settle 0 (Rejected (ErrorObject (js "User not authenticated")))
                     6000))
     = [].
Proof.
  split; [reflexivity|].
  destruct (X16_failed_save_drops_the_turn mount_closure saving mount_render
              reply_text_only (AuthUser None) insert_stub 5500 6000 None
              eq_refl) as (_ & H).
  exact (proj1 (H (ErrorObject (js "User not authenticated")) eq_refl)).
Defined.

(** ** The route *)

Lemma greedy_any_None (s : jsstring) :
  greedy_any closing_brace s = None -> ~ In rbrace s.
Proof.
  induction s as [|c s IH]; cbn [greedy_any]; [intros _ []|].
  destruct (greedy_any closing_brace s) as [r|]; [discriminate|].
  cbn [closing_brace]. destruct (N.eqb_spec c rbrace); [discriminate|].
  intros _ [H|H]; [congruence|]. exact (IH eq_refl H).
Qed.

Lemma greedy_any_Some (s rest : jsstring) :
  greedy_any closing_brace s = Some rest ->
  exists body, s = body ++ rbrace :: rest /\ ~ In rbrace rest.
Proof.
  revert rest. induction s as [|c s IH]; intros rest; cbn [greedy_any];
    [discriminate|].
  destruct (greedy_any closing_brace s) as [r|] eqn:Hg.
  - intros E. inversion E; subst. destruct (IH rest eq_refl) as (body & -> & Hn).
    exists (c :: body). auto.
  - cbn [closing_brace]. destruct (N.eqb_spec c rbrace); [|discriminate].
    intros E. inversion E; subst. exists []. split; [reflexivity|].
    apply greedy_any_None, Hg.
Qed.

Lemma firstn_consumed (x rest : jsstring) :
  firstn (List.length (x ++ rest) - List.length rest) (x ++ rest) = x.
Proof.
  rewrite length_app, Nat.add_sub, firstn_app, firstn_all, Nat.sub_diag.
  apply app_nil_r.
Qed.

Lemma match_here_Some (s m : jsstring) :
  match_here s = Some m ->
  exists body after,
    s = m ++ after /\ m = lbrace :: body ++ [rbrace] /\ ~ In rbrace after.
Proof.
  destruct s as [|c s]; cbn [match_here]; [discriminate|].
  destruct (N.eqb_spec c lbrace); [|discriminate]. subst c.
  destruct (greedy_any closing_brace s) as [rest|] eqn:Hg; [|discriminate].
  destruct (greedy_any_Some _ _ Hg) as (body & -> & Hn).
  replace (lbrace :: body ++ rbrace :: rest)
    with ((lbrace :: body ++ [rbrace]) ++ rest)
    by (cbn; rewrite <- app_assoc; reflexivity).
  rewrite firstn_consumed. intros E. injection E as <-.
  exists body, rest. auto.
Qed.

Lemma match_here_None (c : N) (s : jsstring) :
  match_here (c :: s) = None -> In rbrace s -> c <> lbrace.
Proof.
  cbn [match_here]. destruct (N.eqb_spec c lbrace); [|auto].
  destruct (greedy_any closing_brace s) as [rest|] eqn:Hg; [discriminate|].
  intros _ Hin. exfalso. exact (greedy_any_None _ Hg Hin).
Qed.

Lemma jsonMatch_Some (s m : jsstring) :
  jsonMatch s = Some m -> outermostBraces s m.
Proof.
  unfold outermostBraces.
  induction s as [|c s IH]; cbn [jsonMatch].
  - cbn. discriminate.
  - destruct (match_here (c :: s)) as [m'|] eqn:Hm.
    + intros E. inversion E; subst.
      destruct (match_here_Some _ _ Hm) as (body & after & Hs & Hb & Hn).
      exists [], body, after. auto.
    + intros E. destruct (IH E) as (before & body & after & -> & -> & Hl & Hr).
      exists (c :: before), body, after.
      split; [reflexivity|]. split; [reflexivity|]. split; [|exact Hr].
      intros [H|H]; [|exact (Hl H)].
      apply (match_here_None _ _ Hm); [|exact H].
      apply in_or_app. right. cbn. right. apply in_or_app. left.
      apply in_or_app. right. left. reflexivity.
Qed.

Lemma greedy_any_found (body rest : jsstring) :
  greedy_any closing_brace (body ++ rbrace :: rest) <> None.
Proof.
  induction body as [|c body IH]; cbn [app greedy_any].
  - destruct (greedy_any closing_brace rest); [discriminate|].
    cbn. discriminate.
  - destruct (greedy_any closing_brace (body ++ rbrace :: rest));
      [discriminate|congruence].
Qed.

Lemma jsonMatch_None (s : jsstring) :
  jsonMatch s = None ->
  forall before body after, s <> before ++ lbrace :: body ++ rbrace :: after.
Proof.
  induction s as [|c s IH]; cbn [jsonMatch]; intros H before body after E.
  - destruct before; discriminate.
  - destruct (match_here (c :: s)) as [m|] eqn:Hm; [discriminate|].
    destruct before as [|b before]; cbn in E; inversion E; subst.
    + cbn [match_here] in Hm. rewrite N.eqb_refl in Hm.
      destruct (greedy_any closing_brace (body ++ rbrace :: after)) eqn:Hg;
        [discriminate|]. exact (greedy_any_found _ _ Hg).
    + exact (IH H before body after eq_refl).
Qed.

(** X17: the text the route hands to [JSON.parse] goes from the first left
    brace of Gemini's reply to its last right brace (no left brace before it,
    no right brace after it); and there is none exactly when no right brace
    follows a left brace in the reply. *)
Theorem X17_reply_json_is_the_outermost_braces (responseText : jsstring) :
  match jsonMatch responseText with
  | Some matched => outermostBraces responseText matched
  | None =>
    forall before body after,
      responseText <> before ++ lbrace :: body ++ rbrace :: after
  end.
Proof.
  destruct (jsonMatch responseText) as [m|] eqn:H;
    [apply jsonMatch_Some, H|apply jsonMatch_None, H].
Qed.

Lemma base64_nil (bytes : list N) : base64 bytes = [] -> bytes = [].
Proof. destruct bytes as [|a [|b [|c rest]]]; cbn; congruence. Qed.

Lemma readReply_text (JSON_parse : jsstring -> option (Value * Value))
    (responseText : jsstring) :
  truthyValue (fst (readReply JSON_parse responseText))
  = nonEmpty responseText.
Proof.
  unfold readReply.
  destruct (jsonMatch responseText) as [m|] eqn:Hm.
  - assert (Hne : nonEmpty responseText = true).
    { destruct responseText; [discriminate|reflexivity]. }
    destruct (JSON_parse m) as [[text transcript]|]; cbn [fst].
    + destruct (truthyValue text) eqn:Ht; [congruence|].
      rewrite Hne. destruct responseText; [discriminate|reflexivity].
    + rewrite Hne. destruct responseText; [discriminate|reflexivity].
  - cbn. destruct responseText; reflexivity.
Qed.

Lemma POST_answers (generateContent : GeminiRequest -> GeminiAnswer)
    (JSON_parse : jsstring -> option (Value * Value))
    (synthesizeSpeech : Value -> option (list N)) (form : Thrown + FormData) :
  let out := POST generateContent JSON_parse synthesizeSpeech form in
  let status := res_status (out_response out) in
  (status = 400%N <-> exists formData, form = inr formData
                                       /\ fd_audio formData = None)
  /\ (status = 400%N -> out_geminiCalls out = [] /\ out_ttsCalls out = [])
  /\ (status = 200%N
      <-> exists request responseText,
            out_geminiCalls out = [request]
            /\ generateContent request = GeminiText responseText)
  /\ (status = 200%N ->
      exists request responseText aiText transcript audio mimeType,
        out_geminiCalls out = [request]
        /\ generateContent request = GeminiText responseText
        /\ (aiText, transcript) = readReply JSON_parse responseText
        /\ out_ttsCalls out = [aiText]
        /\ res_body (out_response out)
           = DataBody aiText transcript audio mimeType
        /\ truthyValue aiText = nonEmpty responseText
        /\ match synthesizeSpeech aiText with
           | Some audioContent =>
             audio = Some (base64 audioContent)
             /\ mimeType = Some (js "audio/mp3")
           | None => audio = None /\ mimeType = None
           end)
  /\ (status = 200%N \/ status = 400%N \/ status = 500%N).
Proof.
  intros out status. subst status out. unfold POST.
  destruct form as [e|formData].
  { cbn. repeat split; try discriminate; auto.
    - intros (fd & H & _). discriminate.
    - intros (rq & rt & H & _). discriminate. }
  destruct (fd_audio formData) as [audioFile|] eqn:Hau.
  2:{ cbn. repeat split; try discriminate; auto.
      - intros _. exists formData. auto.
      - intros (rq & rt & H & _). discriminate. }
  cbv zeta.
  set (request := mkGeminiRequest _ _ _).
  destruct (generateContent request) as [e|responseText] eqn:Hg.
  { cbn. repeat split; try discriminate; auto.
    - intros (fd & H & Hn). inversion H; subst. congruence.
    - intros (rq & rt & H & Hrt). inversion H; subst. congruence. }
  pose proof (readReply_text JSON_parse responseText) as Htext.
  destruct (readReply JSON_parse responseText) as [aiText transcript] eqn:Hr.
  cbn [fst] in Htext.
  destruct (synthesizeSpeech aiText) as [audioContent|] eqn:Htts; cbn.
  - split.
    { split; [discriminate|]. intros (fd & H & Hn). inversion H; subst.
      congruence. }
    split; [discriminate|]. split.
    { split; [|reflexivity]. intros _. exists request, responseText. auto. }
    split; [|auto]. intros _.
    exists request, responseText, aiText, transcript.
    eexists. eexists. split; [reflexivity|]. split; [exact Hg|].
    split; [symmetry; exact Hr|]. repeat (split; [reflexivity|]).
    split; [exact Htext|]. rewrite Htts. split; reflexivity.
  - split.
    { split; [discriminate|]. intros (fd & H & Hn). inversion H; subst.
      congruence. }
    split; [discriminate|]. split.
    { split; [|reflexivity]. intros _. exists request, responseText. auto. }
    split; [|auto]. intros _.
    exists request, responseText, aiText, transcript.
    eexists. eexists. split; [reflexivity|]. split; [exact Hg|].
    split; [symmetry; exact Hr|]. repeat (split; [reflexivity|]).
    split; [exact Htext|]. rewrite Htts. split; reflexivity.
Qed.



(** X19: what the component does with a 200 answer of the route.  The turn
    fails (no text) exactly when Gemini's reply was empty; and after the
    transcript is saved the component waits for the playback exactly when
    the synthesis returned content that is not empty, so that an answer of
    the route never carries an audio the component would not play. *)
Theorem X19_route_answer_in_the_component
    (generateContent : GeminiRequest -> GeminiAnswer)
    (JSON_parse : jsstring -> option (Value * Value))
    (synthesizeSpeech : Value -> option (list N)) (form : Thrown + FormData)
    (data : ApiData) (r : Render) (now : N) (s : State) :
  let out := POST generateContent JSON_parse synthesizeSpeech form in
  res_status (out_response out) = 200%N ->
  clientData (res_body (out_response out)) = Some data ->
  exists request responseText aiText,
    out_geminiCalls out = [request]
    /\ generateContent request = GeminiText responseText
    /\ out_ttsCalls out = [aiText]
    /\ (failedOutcome (Json data) = true <-> responseText = [])
    /\ (truthy (d_audio data) = true -> truthy (d_mimeType data) = true)
    /\ (tasks (afterSaveTranscript r data now s) = tasks s ++ [AwaitPlay]
        <-> exists audioContent,
              synthesizeSpeech aiText = Some audioContent
              /\ audioContent <> []).
Proof.
  intros out Hst Hcl.
  destruct (POST_answers generateContent JSON_parse synthesizeSpeech form)
    as (_ & _ & _ & H200 & _).
  fold out in H200.
  destruct (H200 Hst)
    as (rq & responseText & aiText & transcript & audio & mimeType & Hcalls
        & Hgem & _ & Htts & Hbody & Htext & Hsyn).
  rewrite Hbody in Hcl. cbn in Hcl.
  exists rq, responseText, aiText.
  split; [exact Hcalls|]. split; [exact Hgem|]. split; [exact Htts|].
  destruct (asField aiText) as [t|] eqn:Ht; [|discriminate].
  destruct (asField transcript) as [tr|]; [|discriminate].
  inversion Hcl; subst data. clear Hcl. cbn [d_audio d_mimeType d_text
    failedOutcome].
  assert (Htr : truthy t = truthyValue aiText).
  { destruct aiText as [| |[|c v]|b]; inversion Ht; reflexivity. }
  split.
  { rewrite Htr, Htext. destruct responseText; cbn; split; congruence. }
  assert (Hplay : truthy audio && truthy mimeType = true
                  <-> exists audioContent,
                        synthesizeSpeech aiText = Some audioContent
                        /\ audioContent <> []).
  { destruct (synthesizeSpeech aiText) as [content|].
    - destruct Hsyn as (-> & ->). cbn [truthy].
      split.
      + intros H. exists content. split; [reflexivity|].
        intros ->. discriminate.
      + intros (c & E & Hne). inversion E; subst c.
        destruct (base64 content) eqn:Eb;
          [apply base64_nil in Eb; contradiction|reflexivity].
    - destruct Hsyn as (-> & ->). cbn. split; [discriminate|].
      intros (c & E & _). discriminate. }
  split.
  { destruct (synthesizeSpeech aiText) as [content|];
      destruct Hsyn as (-> & ->); [reflexivity|discriminate]. }
  rewrite <- Hplay.
  destruct (afterSaveTranscript_cases r
              (mkApiData t tr audio mimeType) now s)
    as [(Hp & Hts & _)|(Hp & Hts & _)]; cbn [d_audio d_mimeType] in Hp;
    rewrite Hp, Hts.
  - split; reflexivity.
  - split; [|discriminate]. intros E. exfalso.
    apply (f_equal (@List.length Task)) in E. rewrite length_app in E.
    cbn in E. lia.
Qed.

(** The component plays the audio of that answer. *)
Lemma X19_route_answer_witness :
  clientData
    (res_body (out_response (POST gemini_stub parse_stub speech_stub audio_form)))
  = Some route_reply
  /\ truthy (d_mimeType route_reply) = true.
Proof.
  split; [reflexivity|].
  destruct (X19_route_answer_in_the_component gemini_stub parse_stub
              speech_stub audio_form route_reply mount_render 6000 init
              eq_refl eq_refl) as (rq & rt & aiText & _ & _ & _ & _ & H & _).
  exact (H eq_refl).
Defined.

(** ** A granted start *)

(** X20: the button on an idle component, with the usage check passed and
    the microphone granted, begins a new interview: the history (the greeting
    included), the response and the error are emptied, the phase is the
    introduction and the fact sheet is empty, the start time is taken, the
    interval runs and a recorder records for the next session into an empty
    buffer; no request is made and no usage reported. *)
Theorem X20_granted_start_begins_afresh (now : N) (s : State) :
  isActive s = false ->
  let s' := toggleRecording Allowed true now s in
  isActive s' = true
  /\ conversationHistory s' = [] /\ response s' = [] /\ error s' = []
  /\ interviewPhase s' = introduction
  /\ candidateInfo s' = emptyCandidateInfo
  /\ sessionStartTime s' = Some now
  /\ analysisIntervalRef s' = true
  /\ currentRecordingSessionRef s' = S (currentRecordingSessionRef s)
  /\ mediaRecorderRef s'
     = Some (mkRecorder (S (currentRecordingSessionRef s)) true)
  /\ chunksRef s' = [] /\ silenceTimerRef s' = None
  /\ fetchLog s' = fetchLog s /\ usageLog s' = usageLog s
  /\ tasks s' = tasks s.
Proof.
  intros Ha s'. subst s'. unfold toggleRecording. rewrite Ha.
  unfold startRealTimeRecording, handleInitialAIGreeting.
  rewrite startNewRecordingSession_eq. unfold recorderAfterStart. cbn.
  rewrite Nat.add_1_r. repeat split; reflexivity.
Qed.

(** The start after a stop: the session is numbered 1 again and the history
    of the first interview is gone. *)
Lemma X20_granted_start_witness :
  conversationHistory
    (toggleRecording Allowed true 9000
       (run mount_closure init (round_trip reply_text_only ++ [start_ok 8000])))
  = []
  /\ currentRecordingSessionRef
       (toggleRecording Allowed true 9000
          (run mount_closure init
               (round_trip reply_text_only ++ [start_ok 8000])))
     = 1.
Proof.
  destruct (X20_granted_start_begins_afresh 9000
              (run mount_closure init
                   (round_trip reply_text_only ++ [start_ok 8000])) eq_refl)
    as (_ & Hh & _ & _ & _ & _ & _ & _ & Hid & _).
  split; [exact Hh|exact Hid].
Defined.
